(** * The library assistant's conversation session controller

    A shallow embedding of [LibraryAIAssistant] (the second component of
    [src/components/QuizModal.tsx]) and of [TavusService]
    ([src/data/storyData.ts]): the event normalizer
    [extractToolCallFromData], the event handler [handleTavusEvent] with its
    keyword fallback [tryManualToolCall], the dispatcher [executeToolCall],
    the media binder [updateReplicaVideo], and the session lifecycle
    ([initializeAIAssistant], [joinConversation], [cleanupConversation],
    [restartConversation]) with its three [setTimeout] timers.

    Modelling conventions.
    - Untyped payloads ([any]) are values of [Js.value]; property access,
      truthiness and [typeof] follow ECMAScript.  Numbers are integers
      ([Z]): every numeral the component itself produces or compares is one.
    - A string is the UTF-8 encoding of a well-formed text.  Equality,
      concatenation, [includes], [split] and the removal of the characters
      outside a to z act on the bytes as the source acts on the UTF-16 code
      units; [length] and [substring] count code units ([Js.utf16_length],
      [Js.utf16_prefix]); [toLowerCase], whose definition is Unicode's, is
      a field of [Js.Runtime], known to fold A to Z on ASCII text.
    - The React state cells and the three [useRef] cells form one record
      ([World.world]); a [setX] call is a field update.
    - An [async] function is run to completion as one step, so the model
      covers the executions in which no other handler interleaves with an
      [await].  Calls to collaborators (transport, provider, UI callbacks)
      are appended to a time-stamped trace; their outcomes (resolve or
      reject) are read from an environment record.
    - Built-ins whose full definition is the language's, not the
      repository's ([JSON.parse], [JSON.stringify], string-to-number
      conversion, [toLowerCase]), are the fields of the class [Js.Runtime];
      [Json.reference] is an instance for the integer fragment of JSON
      (integers below 2^53 in magnitude, object keys that are not array
      indices) and for the letters of Basic Latin and the Latin-1
      Supplement. *)

From Stdlib Require Import String Ascii ZArith List Lia Bool Arith.
From Stdlib Require Import Numbers.DecimalString.
Import ListNotations.

Set Warnings "-register-all".
Set Implicit Arguments.

Open Scope string_scope.
Open Scope list_scope.

(* ================================================================== *)
(** * ECMAScript values *)
(* ================================================================== *)

Module Js.

Inductive value : Type :=
  | VUndef
  | VNull
  | VBool (b : bool)
  | VNum (n : Z)
  | VStr (s : string)
  | VArr (vs : list value)
  | VObj (kvs : list (string * value)).

(** Exceptions: the two the engine raises on the paths modelled here, and
    [new Error(message)]. *)
Inductive exn : Type :=
  | TypeError
  | SyntaxError
  | Error (message : string).

Inductive res (A : Type) : Type :=
  | Ok (a : A)
  | Throw (e : exn).
Arguments Ok {A} a.
Arguments Throw {A} e.

Definition bind {A B} (m : res A) (k : A -> res B) : res B :=
  match m with
  | Ok a => k a
  | Throw e => Throw e
  end.

Notation "x <- m ;; k" := (bind m (fun x => k))
  (at level 61, m at next level, right associativity).

(** [ToBoolean]. *)
Definition truthy (v : value) : bool :=
  match v with
  | VUndef | VNull => false
  | VBool b => b
  | VNum n => negb (n =? 0)%Z
  | VStr s => negb (s =? "")
  | VArr _ | VObj _ => true
  end.

Definition nullish (v : value) : bool :=
  match v with
  | VUndef | VNull => true
  | _ => false
  end.

Fixpoint assoc (k : string) (kvs : list (string * value)) : value :=
  match kvs with
  | [] => VUndef
  | (k', v) :: rest => if k' =? k then v else assoc k rest
  end.

(** [v.k] for a receiver that is neither [null] nor [undefined]; the keys
    read by the component are own properties of plain objects only. *)
Definition prop (v : value) (k : string) : value :=
  match v with
  | VObj kvs => assoc k kvs
  | _ => VUndef
  end.

(** [v.k] in general: a nullish receiver raises [TypeError]. *)
Definition get (v : value) (k : string) : res value :=
  if nullish v then Throw TypeError else Ok (prop v k).

Definition isArray (v : value) : bool :=
  match v with
  | VArr _ => true
  | _ => false
  end.

(** [v.length > 0] for an array [v]. *)
Definition nonempty (v : value) : bool :=
  match v with
  | VArr (_ :: _) => true
  | _ => false
  end.

(** [v[0]]. *)
Definition first (v : value) : value :=
  match v with
  | VArr (x :: _) => x
  | _ => VUndef
  end.

(** [typeof v === 'string']. *)
Definition is_string (v : value) : bool :=
  match v with
  | VStr _ => true
  | _ => false
  end.

(** [v === 'lit'] for a string literal. *)
Definition str_eq (v : value) (lit : string) : bool :=
  match v with
  | VStr s => s =? lit
  | _ => false
  end.

(** ** Strings *)

(** The lower-case form of a character of Basic Latin. *)
Definition lower_ascii (c : ascii) : ascii :=
  let n := nat_of_ascii c in
  if (65 <=? n)%nat && (n <=? 90)%nat then ascii_of_nat (n + 32) else c.

(** [toLowerCase] on ASCII text: A to Z are folded, nothing else changes. *)
Fixpoint ascii_toLowerCase (s : string) : string :=
  match s with
  | EmptyString => EmptyString
  | String c s' => String (lower_ascii c) (ascii_toLowerCase s')
  end.

(** Every character is one of Basic Latin (U+0000 to U+007F). *)
Fixpoint ascii_text (s : string) : bool :=
  match s with
  | EmptyString => true
  | String c s' => (nat_of_ascii c <? 128)%nat && ascii_text s'
  end.

(** The UTF-16 code units a byte of the encoding stands for: one for a
    character of Basic Latin and for the first byte of a two- or three-byte
    sequence, two (a surrogate pair) for the first byte of a four-byte
    sequence, none for a continuation byte. *)
Definition utf16_units (c : ascii) : nat :=
  let n := nat_of_ascii c in
  if (n <? 128)%nat then 1
  else if (n <? 192)%nat then 0
  else if (n <? 240)%nat then 1
  else 2.

(** [s.length]. *)
Fixpoint utf16_length (s : string) : nat :=
  match s with
  | EmptyString => 0
  | String c s' => utf16_units c + utf16_length s'
  end.

(** The high surrogate of the character whose four-byte sequence starts
    with [c] and goes on with [rest], in the three-byte form of its code. *)
Definition high_surrogate (c : ascii) (rest : string) : string :=
  match rest with
  | String b1 (String b2 _) =>
      let top := (nat_of_ascii c mod 8) * 256
                 + (nat_of_ascii b1 mod 64) * 4
                 + (nat_of_ascii b2 mod 64) / 16 in
      let h := 216 * 256 + (top - 64) in
      String (ascii_of_nat 237)
        (String (ascii_of_nat (128 + (h / 64) mod 64))
           (String (ascii_of_nat (128 + h mod 64)) EmptyString))
  | _ => EmptyString
  end.

(** [s.substring(0, n)]: the first [n] code units.  A cut between the two
    halves of a surrogate pair keeps the first half. *)
Fixpoint utf16_prefix (n : nat) (s : string) : string :=
  match s with
  | EmptyString => EmptyString
  | String c s' =>
      match utf16_units c with
      | O => String c (utf16_prefix n s')
      | S O =>
          match n with
          | O => EmptyString
          | S m => String c (utf16_prefix m s')
          end
      | S (S _) =>
          match n with
          | O => EmptyString
          | S O => high_surrogate c s'
          | S (S m) => String c (utf16_prefix m s')
          end
      end
  end.

(** [s.includes(sub)]. *)
Fixpoint includes (s sub : string) : bool :=
  prefix sub s ||
  match s with
  | EmptyString => false
  | String _ s' => includes s' sub
  end.

Definition dquote : string := String "034"%char "".

Definition string_of_nat (n : nat) : string :=
  NilEmpty.string_of_uint (Nat.to_uint n).

Definition string_of_Z (z : Z) : string :=
  NilEmpty.string_of_int (Z.to_int z).

Fixpoint join (sep : string) (parts : list string) : string :=
  match parts with
  | [] => ""
  | [p] => p
  | p :: rest => p ++ sep ++ join sep rest
  end.

(** [ToString], as a template literal applies it. *)
Fixpoint ToString (v : value) : string :=
  match v with
  | VUndef => "undefined"
  | VNull => "null"
  | VBool true => "true"
  | VBool false => "false"
  | VNum n => string_of_Z n
  | VStr s => s
  | VArr vs =>
      join "," (map (fun x => if nullish x then "" else ToString x) vs)
  | VObj _ => "[object Object]"
  end.

(** The built-ins the component calls and the language defines. *)
Class Runtime : Type := {
  (** [JSON.parse(text)]; [None] is a [SyntaxError]. *)
  JSON_parse : string -> option value;
  (** The text a template literal shows for [JSON.stringify(v)]. *)
  JSON_stringify : value -> string;
  (** [Number(text)]; [None] is [NaN]. *)
  StringToNumber : string -> option Z;
  (** [s.toLowerCase()], Unicode's default lower-case mapping. *)
  toLowerCase : string -> string;
  (** On ASCII text the mapping folds A to Z and changes nothing else. *)
  toLowerCase_ascii :
    forall s, ascii_text s = true -> toLowerCase s = ascii_toLowerCase s
}.

(** [ToNumber]; [None] is [NaN]. *)
Definition ToNumber `{Runtime} (v : value) : option Z :=
  match v with
  | VUndef => None
  | VNull => Some 0%Z
  | VBool true => Some 1%Z
  | VBool false => Some 0%Z
  | VNum n => Some n
  | VStr s => StringToNumber s
  | VArr _ | VObj _ => StringToNumber (ToString v)
  end.

(** [n <= v] and [n >= v] for a number [n]. *)
Definition num_le `{Runtime} (n : Z) (v : value) : bool :=
  match ToNumber v with
  | Some m => (n <=? m)%Z
  | None => false
  end.

Definition num_ge `{Runtime} (n : Z) (v : value) : bool :=
  match ToNumber v with
  | Some m => (m <=? n)%Z
  | None => false
  end.

(** Size of a value, the measure of the normalizer's recursion. *)
Fixpoint size (v : value) : nat :=
  match v with
  | VArr vs => S (list_sum (map (fun x => S (size x)) vs))
  | VObj kvs => S (list_sum (map (fun kv => S (size (snd kv))) kvs))
  | _ => 1
  end.

End Js.

(* ================================================================== *)
(** * A reference runtime

    An instance of [Js.Runtime] that agrees with the language on JSON
    texts made of objects whose keys are not array indices, arrays,
    strings without [\u] escapes, booleans, [null] and integers below
    2^53 in magnitude, and on the lower-case forms of texts in Basic
    Latin and the Latin-1 Supplement.  It serves the concrete cases; the
    theorems hold for every runtime. *)
(* ================================================================== *)

Module Json.
Import Js.

Definition code (c : ascii) : nat := nat_of_ascii c.

Definition is_ws (c : ascii) : bool :=
  (code c =? 32)%nat || (code c =? 9)%nat || (code c =? 10)%nat
  || (code c =? 13)%nat.

Definition is_digit (c : ascii) : bool :=
  (48 <=? code c)%nat && (code c <=? 57)%nat.

Fixpoint skip_ws (s : string) : string :=
  match s with
  | String c r => if is_ws c then skip_ws r else s
  | EmptyString => s
  end.

Fixpoint strip_prefix (p s : string) : option string :=
  match p, s with
  | EmptyString, _ => Some s
  | String a p', String b s' => if Ascii.eqb a b then strip_prefix p' s' else None
  | String _ _, EmptyString => None
  end.

Fixpoint digits (acc : Z) (s : string) : Z * string :=
  match s with
  | String c r =>
      if is_digit c then digits (acc * 10 + Z.of_nat (code c - 48)) r
      else (acc, s)
  | EmptyString => (acc, s)
  end.

(** An integer numeral [0] or [[1-9][0-9]*]; a fraction or an exponent is
    outside the fragment. *)
Definition parse_nat (s : string) : option (Z * string) :=
  match s with
  | String c r =>
      if is_digit c then
        let '(n, rest) := digits 0 s in
        let leading_zero :=
          (code c =? 48)%nat &&
          match r with
          | String d _ => is_digit d
          | EmptyString => false
          end in
        let continued :=
          match rest with
          | String d _ =>
              (code d =? 46)%nat || (code d =? 101)%nat || (code d =? 69)%nat
          | EmptyString => false
          end in
        if leading_zero || continued then None else Some (n, rest)
      else None
  | EmptyString => None
  end.

Definition unescape (c : ascii) : option ascii :=
  match code c with
  | 34 => Some c
  | 92 => Some c
  | 47 => Some c
  | 98 => Some (ascii_of_nat 8)
  | 102 => Some (ascii_of_nat 12)
  | 110 => Some (ascii_of_nat 10)
  | 114 => Some (ascii_of_nat 13)
  | 116 => Some (ascii_of_nat 9)
  | _ => None
  end.

(** The characters of a string literal after its opening quote. *)
Fixpoint parse_string_body (s : string) : option (string * string) :=
  match s with
  | EmptyString => None
  | String c r =>
      if (code c =? 34)%nat then Some ("", r)
      else if (code c <? 32)%nat then None
      else if (code c =? 92)%nat then
        match r with
        | String e r' =>
            match unescape e, parse_string_body r' with
            | Some x, Some (body, rest) => Some (String x body, rest)
            | _, _ => None
            end
        | EmptyString => None
        end
      else
        match parse_string_body r with
        | Some (body, rest) => Some (String c body, rest)
        | None => None
        end
  end.

Fixpoint parse_value (fuel : nat) (s : string) : option (value * string) :=
  match fuel with
  | O => None
  | S f =>
      match skip_ws s with
      | EmptyString => None
      | String c r =>
          if (code c =? 110)%nat then
            option_map (pair VNull) (strip_prefix "ull" r)
          else if (code c =? 116)%nat then
            option_map (pair (VBool true)) (strip_prefix "rue" r)
          else if (code c =? 102)%nat then
            option_map (pair (VBool false)) (strip_prefix "alse" r)
          else if (code c =? 34)%nat then
            match parse_string_body r with
            | Some (body, rest) => Some (VStr body, rest)
            | None => None
            end
          else if (code c =? 45)%nat then
            match parse_nat r with
            | Some (n, rest) => Some (VNum (- n), rest)
            | None => None
            end
          else if (code c =? 91)%nat then
            match skip_ws r with
            | String d r' =>
                if (code d =? 93)%nat then Some (VArr [], r')
                else option_map (fun p => (VArr (fst p), snd p))
                                (parse_items f r)
            | EmptyString => None
            end
          else if (code c =? 123)%nat then
            match skip_ws r with
            | String d r' =>
                if (code d =? 125)%nat then Some (VObj [], r')
                else option_map (fun p => (VObj (fst p), snd p))
                                (parse_members f r)
            | EmptyString => None
            end
          else
            match parse_nat (String c r) with
            | Some (n, rest) => Some (VNum n, rest)
            | None => None
            end
      end
  end

with parse_items (fuel : nat) (s : string) : option (list value * string) :=
  match fuel with
  | O => None
  | S f =>
      match parse_value f s with
      | Some (v, rest) =>
          match skip_ws rest with
          | String d r' =>
              if (code d =? 93)%nat then Some ([v], r')
              else if (code d =? 44)%nat then
                match parse_items f r' with
                | Some (vs, r'') => Some (v :: vs, r'')
                | None => None
                end
              else None
          | EmptyString => None
          end
      | None => None
      end
  end

with parse_members (fuel : nat) (s : string)
  : option (list (string * value) * string) :=
  match fuel with
  | O => None
  | S f =>
      match skip_ws s with
      | String q r =>
          if (code q =? 34)%nat then
            match parse_string_body r with
            | Some (key, rest) =>
                match skip_ws rest with
                | String colon r1 =>
                    if (code colon =? 58)%nat then
                      match parse_value f r1 with
                      | Some (v, r2) =>
                          match skip_ws r2 with
                          | String d r3 =>
                              if (code d =? 125)%nat then Some ([(key, v)], r3)
                              else if (code d =? 44)%nat then
                                match parse_members f r3 with
                                | Some (kvs, r4) => Some ((key, v) :: kvs, r4)
                                | None => None
                                end
                              else None
                          | EmptyString => None
                          end
                      | None => None
                      end
                    else None
                | EmptyString => None
                end
            | None => None
            end
          else None
      | EmptyString => None
      end
  end.

(** [obj[k] = v] on the members read so far: a repeated key keeps its
    place and takes the later value. *)
Fixpoint set_member (k : string) (v : value) (kvs : list (string * value))
  : list (string * value) :=
  match kvs with
  | [] => [(k, v)]
  | (k', v') :: rest =>
      if k' =? k then (k', v) :: rest else (k', v') :: set_member k v rest
  end.

(** The object a member list stands for, at every depth. *)
Fixpoint settle (v : value) : value :=
  match v with
  | VArr vs => VArr (map settle vs)
  | VObj kvs =>
      VObj (fold_left
              (fun acc kv => set_member (fst kv) (snd kv) acc)
              (map (fun kv => (fst kv, settle (snd kv))) kvs) [])
  | _ => v
  end.

Definition parse (text : string) : option value :=
  match parse_value (S (String.length text)) text with
  | Some (v, rest) =>
      match skip_ws rest with
      | EmptyString => Some (settle v)
      | String _ _ => None
      end
  | None => None
  end.

Definition hex_digit (n : nat) : ascii :=
  if (n <? 10)%nat then ascii_of_nat (48 + n) else ascii_of_nat (87 + n).

Definition escape (c : ascii) : string :=
  match code c with
  | 34 => String (ascii_of_nat 92) dquote
  | 92 => String c (String c "")
  | 8 => String (ascii_of_nat 92) "b"
  | 12 => String (ascii_of_nat 92) "f"
  | 10 => String (ascii_of_nat 92) "n"
  | 13 => String (ascii_of_nat 92) "r"
  | 9 => String (ascii_of_nat 92) "t"
  | n =>
      if (n <? 32)%nat then
        String (ascii_of_nat 92)
          ("u00" ++ String (hex_digit (n / 16)) (String (hex_digit (n mod 16)) ""))
      else String c ""
  end.

Fixpoint quote_body (s : string) : string :=
  match s with
  | EmptyString => ""
  | String c r => escape c ++ quote_body r
  end.

Definition quote (s : string) : string := dquote ++ quote_body s ++ dquote.

(** [JSON.stringify] of a value nested in an array or an object. *)
Fixpoint stringify_inner (v : value) : string :=
  match v with
  | VUndef | VNull => "null"
  | VBool true => "true"
  | VBool false => "false"
  | VNum n => string_of_Z n
  | VStr s => quote s
  | VArr vs => "[" ++ join "," (map stringify_inner vs) ++ "]"
  | VObj kvs =>
      "{" ++ join ","
        ((fix members (l : list (string * value)) : list string :=
            match l with
            | [] => []
            | (k, VUndef) :: rest => members rest
            | (k, x) :: rest =>
                (quote k ++ ":" ++ stringify_inner x)%string :: members rest
            end) kvs) ++ "}"
  end.

Definition stringify (v : value) : string :=
  match v with
  | VUndef => "undefined"
  | _ => stringify_inner v
  end.

(** [Number(text)] on optionally signed decimal integers; the empty text
    is [0]. *)
Definition to_number (text : string) : option Z :=
  match skip_ws text with
  | EmptyString => Some 0%Z
  | String c r =>
      let '(neg, body) :=
        if (code c =? 45)%nat then (true, r)
        else if (code c =? 43)%nat then (false, r)
        else (false, String c r) in
      match body with
      | String d _ =>
          if is_digit d then
            let '(n, rest) := digits 0 body in
            match skip_ws rest with
            | EmptyString => Some (if neg then (- n)%Z else n)
            | String _ _ => None
            end
          else None
      | EmptyString => None
      end
  end.

(** The lower-case mapping on the letters of Basic Latin and of the
    Latin-1 Supplement: besides A to Z, the two-byte sequences of U+00C0
    to U+00DE, the multiplication sign U+00D7 apart, move to U+00E0 to
    U+00FE. *)
Fixpoint lower_latin (s : string) : string :=
  match s with
  | EmptyString => EmptyString
  | String c r =>
      match r with
      | String d r' =>
          if (code c =? 195)%nat && (128 <=? code d)%nat
             && (code d <=? 158)%nat && negb (code d =? 151)%nat
          then String c (String (ascii_of_nat (code d + 32)) (lower_latin r'))
          else String (lower_ascii c) (lower_latin r)
      | EmptyString => String (lower_ascii c) EmptyString
      end
  end.

Definition to_lower (s : string) : string :=
  if ascii_text s then ascii_toLowerCase s else lower_latin s.

#[export] Instance reference : Runtime := {
  JSON_parse := parse;
  JSON_stringify := stringify;
  StringToNumber := to_number;
  toLowerCase := to_lower;
  toLowerCase_ascii := fun s (Hs : ascii_text s = true) =>
    @eq_ind_r bool true
      (fun b : bool =>
         (if b then ascii_toLowerCase s else lower_latin s)
         = ascii_toLowerCase s)
      eq_refl (ascii_text s) Hs
}.

End Json.

(* ================================================================== *)
(** * The catalog *)
(* ================================================================== *)

Module Catalog.
Import Js.

(** [BookType], with the fields the component reads. *)
Record Book : Type := {
  title : string;
  author : string;
  subject : string;
  difficulty_level : string;
  target_age_min : Z;
  target_age_max : Z;
  description : option string
}.

(** The predicate of [getRecommendedBooks]'s filter, for the lowered
    preference text [lowerPrefs]. *)
Definition recommends `{Runtime} (lowerPrefs : string) (book : Book) : bool :=
  includes (toLowerCase (title book)) lowerPrefs
  || match description book with
     | Some d => includes (toLowerCase d) lowerPrefs
     | None => false
     end
  || includes (toLowerCase (subject book)) lowerPrefs
  || includes (toLowerCase (author book)) lowerPrefs.

Definition getRecommendedBooks `{Runtime} (books : list Book)
  (preferences : string) : list Book :=
  let lowerPrefs := toLowerCase preferences in
  firstn 6 (filter (recommends lowerPrefs) books).

End Catalog.

(* ================================================================== *)
(** * The event normalizer: [extractToolCallFromData] *)
(* ================================================================== *)

Module Normalizer.
Import Js.

(** The object [{ function_name, arguments }] the normalizer returns. *)
Record toolcall : Type := {
  function_name : value;
  arguments : value
}.

(** What one guarded block of the function does: [return] a result,
    raise, or fall through to the next block. *)
Inductive step : Type :=
  | Return (r : option toolcall)
  | Raise (e : exn)
  | Next.

Definition of_res (r : res (option toolcall)) : step :=
  match r with
  | Ok x => Return x
  | Throw e => Raise e
  end.

Section Blocks.
Context `{Runtime}.

(** [typeof a === 'string' ? JSON.parse(a) : a]. *)
Definition parse_arguments (a : value) : res value :=
  match a with
  | VStr text =>
      match JSON_parse text with
      | Some v => Ok v
      | None => Throw SyntaxError
      end
  | _ => Ok a
  end.

(** [{ function_name: f.name, arguments: parse(f.arguments) }]. *)
Definition of_descriptor (f : value) : step :=
  match parse_arguments (prop f "arguments") with
  | Ok a => Return (Some {| function_name := prop f "name"; arguments := a |})
  | Throw e => Raise e
  end.

(** 1. [data.function_name && data.arguments]. *)
Definition direct_fields (data : value) : step :=
  if truthy (prop data "function_name") && truthy (prop data "arguments")
  then Return (Some {| function_name := prop data "function_name";
                       arguments := prop data "arguments" |})
  else Next.

(** 2. [data.properties && data.properties.function_name]. *)
Definition nested_properties (data : value) : step :=
  let p := prop data "properties" in
  if truthy p && truthy (prop p "function_name")
  then Return (Some {| function_name := prop p "function_name";
                       arguments := prop p "arguments" |})
  else Next.

(** 3. A non-empty [data.tool_calls] array; only element 0 is read. *)
Definition tool_calls_array (data : value) : step :=
  let calls := prop data "tool_calls" in
  if truthy calls && isArray calls && nonempty calls then
    let toolCall := first calls in
    match get toolCall "function" with
    | Throw e => Raise e
    | Ok f => if truthy f then of_descriptor f else Next
    end
  else Next.

(** 4. A tagged conversation event delegates to its [properties]. *)
Definition conversation_event (rec : value -> res (option toolcall))
  (data : value) : step :=
  if str_eq (prop data "event_type") "conversation.toolcall"
     || str_eq (prop data "event_type") "conversation.llm.function_call"
     || str_eq (prop data "message_type") "conversation"
  then
    if truthy (prop data "properties")
    then of_res (rec (prop data "properties"))
    else Next
  else Next.

(** 5. [data.choices[0].message.tool_calls], re-wrapped and delegated. *)
Definition choices_response (rec : value -> res (option toolcall))
  (data : value) : step :=
  let choices := prop data "choices" in
  if truthy choices && isArray choices && nonempty choices then
    let choice := first choices in
    match get choice "message" with
    | Throw e => Raise e
    | Ok m =>
        if truthy m && truthy (prop m "tool_calls")
        then of_res (rec (VObj [("tool_calls", prop m "tool_calls")]))
        else Next
    end
  else Next.

(** 6. [data.function && data.function.name]. *)
Definition function_descriptor (data : value) : step :=
  let f := prop data "function" in
  if truthy f && truthy (prop f "name") then of_descriptor f else Next.

(** The six blocks in source order. *)
Definition strategies (rec : value -> res (option toolcall))
  : list (value -> step) :=
  [ direct_fields; nested_properties; tool_calls_array;
    conversation_event rec; choices_response rec; function_descriptor ].

(** Sequential execution: the first block that does not fall through ends
    the function; after the last one, [return null]. *)
Fixpoint run (blocks : list (value -> step)) (data : value)
  : res (option toolcall) :=
  match blocks with
  | [] => Ok None
  | b :: rest =>
      match b data with
      | Return r => Ok r
      | Raise e => Throw e
      | Next => run rest data
      end
  end.

(** The body of [extractToolCallFromData], with [rec] for its recursive
    calls. *)
Definition extract_body (rec : value -> res (option toolcall))
  (data : value) : res (option toolcall) :=
  if negb (truthy data) then Ok None else run (strategies rec) data.

(** The recursion unrolled [fuel] times. *)
Fixpoint extract_fuel (fuel : nat) (data : value) : res (option toolcall) :=
  match fuel with
  | O => Ok None
  | S n => extract_body (extract_fuel n) data
  end.

(** Every recursive call is on a strictly smaller value (see
    [extract_fuel_stable]), so [size data] unrollings suffice. *)
Definition extractToolCallFromData (data : value) : res (option toolcall) :=
  extract_fuel (size data) data.

(** ** The reading of the specification: six total strategies, first
    success wins *)






(** A recognized event-type tag. *)
Definition tagged (data : value) : bool :=
  existsb (str_eq (prop data "event_type"))
    ["conversation.toolcall"; "conversation.llm.function_call"]
  || str_eq (prop data "message_type") "conversation".








End Blocks.

(** The canonical call of the specification's example. *)
Definition canonical : toolcall :=
  {| function_name := VStr "filter_books_by_subject";
     arguments := VObj [("subject", VStr "SCIENCE")] |}.


(** The six wire shapes, for an encoding [args] of the arguments. *)
Definition shape_direct : value :=
  VObj [("function_name", VStr "filter_books_by_subject");
        ("arguments", VObj [("subject", VStr "SCIENCE")])].










End Normalizer.

(* ================================================================== *)
(** * Component state, collaborators and their environment *)
(* ================================================================== *)

Module World.
Import Js Catalog Normalizer.

(** [TavusConversation]. *)
Record TavusConversation : Type := {
  conversation_id : string;
  conversation_name : string;
  status : string;
  conversation_url : string;
  replica_id : string;
  persona_id : option string;
  created_at : string
}.

(** The Daily call object held in [callObjectRef]. *)
Inductive CallObject : Type := DailyCall.

Inductive track_kind : Type := Video | Audio.

Record track : Type := {
  kind : track_kind;
  track_id : nat
}.

(** The [<video>] element behind [videoRef]: its [srcObject] stream (the
    tracks in it) and its [muted] flag. *)
Record video : Type := {
  srcObject : option (list track);
  muted : bool
}.

(** The argument of [onFilterChange]. *)
Record FilterCriteria : Type := {
  searchTerm : option value;
  selectedSubject : option value;
  selectedDifficulty : option value;
  ageRange : option (value * value)
}.

(** Calls that leave the component, plus the entry of [executeToolCall]. *)
Inductive call : Type :=
  | CreateCallObject
  | TransportJoin (url : string)
  | TransportSetLocalVideo (on : bool)
  | TransportLeave
  | TransportDestroy
  | SendAppMessage (payload : value) (target : string)
  | ProviderCreate
  | ProviderEnd (conversationId : string)
  | OnFilterChange (criteria : FilterCriteria)
  | OnBookRecommendation (books : list Book)
  | ExecuteToolCall (toolCallData : toolcall).

(** The four closures handed to [setTimeout]. *)
Inductive timer_action : Type :=
  | WrapUp
  | FinalWarning
  | HardTermination
  | RestartInitialize.

Record timer : Type := {
  due : Z;
  action : timer_action
}.

Record world : Type := {
  now : Z;
  (* useRef cells *)
  callObjectRef : option CallObject;
  conversationIdRef : option string;
  videoRef : option video;
  (* useState cells *)
  conversation : option TavusConversation;
  isConnected : bool;
  isConnecting : bool;
  error : option string;
  isVolumeOn : bool;
  replicaConnected : bool;
  connectionStatus : string;
  lastToolCall : string;
  toolCallHistory : list string;
  personaCreated : bool;
  naturalResponseCount : Z;
  restrictedResponseCount : Z;
  (* pending timers and the calls made so far *)
  timers : list timer;
  trace : list (Z * call)
}.

Definition set_now (x : Z) (w : world) : world :=
  {| now := x; callObjectRef := callObjectRef w; conversationIdRef :=
     conversationIdRef w; videoRef := videoRef w; conversation :=
     conversation w; isConnected := isConnected w; isConnecting :=
     isConnecting w; error := error w; isVolumeOn := isVolumeOn w;
     replicaConnected := replicaConnected w; connectionStatus :=
     connectionStatus w; lastToolCall := lastToolCall w; toolCallHistory
     := toolCallHistory w; personaCreated := personaCreated w;
     naturalResponseCount := naturalResponseCount w;
     restrictedResponseCount := restrictedResponseCount w; timers :=
     timers w; trace := trace w |}.

Definition set_callObjectRef (x : option CallObject) (w : world) : world :=
  {| now := now w; callObjectRef := x; conversationIdRef :=
     conversationIdRef w; videoRef := videoRef w; conversation :=
     conversation w; isConnected := isConnected w; isConnecting :=
     isConnecting w; error := error w; isVolumeOn := isVolumeOn w;
     replicaConnected := replicaConnected w; connectionStatus :=
     connectionStatus w; lastToolCall := lastToolCall w; toolCallHistory
     := toolCallHistory w; personaCreated := personaCreated w;
     naturalResponseCount := naturalResponseCount w;
     restrictedResponseCount := restrictedResponseCount w; timers :=
     timers w; trace := trace w |}.

Definition set_conversationIdRef (x : option string) (w : world) : world :=
  {| now := now w; callObjectRef := callObjectRef w; conversationIdRef :=
     x; videoRef := videoRef w; conversation := conversation w;
     isConnected := isConnected w; isConnecting := isConnecting w; error
     := error w; isVolumeOn := isVolumeOn w; replicaConnected :=
     replicaConnected w; connectionStatus := connectionStatus w;
     lastToolCall := lastToolCall w; toolCallHistory := toolCallHistory w;
     personaCreated := personaCreated w; naturalResponseCount :=
     naturalResponseCount w; restrictedResponseCount :=
     restrictedResponseCount w; timers := timers w; trace := trace w |}.

Definition set_videoRef (x : option video) (w : world) : world :=
  {| now := now w; callObjectRef := callObjectRef w; conversationIdRef :=
     conversationIdRef w; videoRef := x; conversation := conversation w;
     isConnected := isConnected w; isConnecting := isConnecting w; error
     := error w; isVolumeOn := isVolumeOn w; replicaConnected :=
     replicaConnected w; connectionStatus := connectionStatus w;
     lastToolCall := lastToolCall w; toolCallHistory := toolCallHistory w;
     personaCreated := personaCreated w; naturalResponseCount :=
     naturalResponseCount w; restrictedResponseCount :=
     restrictedResponseCount w; timers := timers w; trace := trace w |}.

Definition setConversation (x : option TavusConversation) (w : world) : world :=
  {| now := now w; callObjectRef := callObjectRef w; conversationIdRef :=
     conversationIdRef w; videoRef := videoRef w; conversation := x;
     isConnected := isConnected w; isConnecting := isConnecting w; error
     := error w; isVolumeOn := isVolumeOn w; replicaConnected :=
     replicaConnected w; connectionStatus := connectionStatus w;
     lastToolCall := lastToolCall w; toolCallHistory := toolCallHistory w;
     personaCreated := personaCreated w; naturalResponseCount :=
     naturalResponseCount w; restrictedResponseCount :=
     restrictedResponseCount w; timers := timers w; trace := trace w |}.

Definition setIsConnected (x : bool) (w : world) : world :=
  {| now := now w; callObjectRef := callObjectRef w; conversationIdRef :=
     conversationIdRef w; videoRef := videoRef w; conversation :=
     conversation w; isConnected := x; isConnecting := isConnecting w;
     error := error w; isVolumeOn := isVolumeOn w; replicaConnected :=
     replicaConnected w; connectionStatus := connectionStatus w;
     lastToolCall := lastToolCall w; toolCallHistory := toolCallHistory w;
     personaCreated := personaCreated w; naturalResponseCount :=
     naturalResponseCount w; restrictedResponseCount :=
     restrictedResponseCount w; timers := timers w; trace := trace w |}.

Definition setIsConnecting (x : bool) (w : world) : world :=
  {| now := now w; callObjectRef := callObjectRef w; conversationIdRef :=
     conversationIdRef w; videoRef := videoRef w; conversation :=
     conversation w; isConnected := isConnected w; isConnecting := x;
     error := error w; isVolumeOn := isVolumeOn w; replicaConnected :=
     replicaConnected w; connectionStatus := connectionStatus w;
     lastToolCall := lastToolCall w; toolCallHistory := toolCallHistory w;
     personaCreated := personaCreated w; naturalResponseCount :=
     naturalResponseCount w; restrictedResponseCount :=
     restrictedResponseCount w; timers := timers w; trace := trace w |}.

Definition setError (x : option string) (w : world) : world :=
  {| now := now w; callObjectRef := callObjectRef w; conversationIdRef :=
     conversationIdRef w; videoRef := videoRef w; conversation :=
     conversation w; isConnected := isConnected w; isConnecting :=
     isConnecting w; error := x; isVolumeOn := isVolumeOn w;
     replicaConnected := replicaConnected w; connectionStatus :=
     connectionStatus w; lastToolCall := lastToolCall w; toolCallHistory
     := toolCallHistory w; personaCreated := personaCreated w;
     naturalResponseCount := naturalResponseCount w;
     restrictedResponseCount := restrictedResponseCount w; timers :=
     timers w; trace := trace w |}.

Definition setReplicaConnected (x : bool) (w : world) : world :=
  {| now := now w; callObjectRef := callObjectRef w; conversationIdRef :=
     conversationIdRef w; videoRef := videoRef w; conversation :=
     conversation w; isConnected := isConnected w; isConnecting :=
     isConnecting w; error := error w; isVolumeOn := isVolumeOn w;
     replicaConnected := x; connectionStatus := connectionStatus w;
     lastToolCall := lastToolCall w; toolCallHistory := toolCallHistory w;
     personaCreated := personaCreated w; naturalResponseCount :=
     naturalResponseCount w; restrictedResponseCount :=
     restrictedResponseCount w; timers := timers w; trace := trace w |}.

Definition setConnectionStatus (x : string) (w : world) : world :=
  {| now := now w; callObjectRef := callObjectRef w; conversationIdRef :=
     conversationIdRef w; videoRef := videoRef w; conversation :=
     conversation w; isConnected := isConnected w; isConnecting :=
     isConnecting w; error := error w; isVolumeOn := isVolumeOn w;
     replicaConnected := replicaConnected w; connectionStatus := x;
     lastToolCall := lastToolCall w; toolCallHistory := toolCallHistory w;
     personaCreated := personaCreated w; naturalResponseCount :=
     naturalResponseCount w; restrictedResponseCount :=
     restrictedResponseCount w; timers := timers w; trace := trace w |}.

Definition setLastToolCall (x : string) (w : world) : world :=
  {| now := now w; callObjectRef := callObjectRef w; conversationIdRef :=
     conversationIdRef w; videoRef := videoRef w; conversation :=
     conversation w; isConnected := isConnected w; isConnecting :=
     isConnecting w; error := error w; isVolumeOn := isVolumeOn w;
     replicaConnected := replicaConnected w; connectionStatus :=
     connectionStatus w; lastToolCall := x; toolCallHistory :=
     toolCallHistory w; personaCreated := personaCreated w;
     naturalResponseCount := naturalResponseCount w;
     restrictedResponseCount := restrictedResponseCount w; timers :=
     timers w; trace := trace w |}.

Definition setToolCallHistory (x : list string) (w : world) : world :=
  {| now := now w; callObjectRef := callObjectRef w; conversationIdRef :=
     conversationIdRef w; videoRef := videoRef w; conversation :=
     conversation w; isConnected := isConnected w; isConnecting :=
     isConnecting w; error := error w; isVolumeOn := isVolumeOn w;
     replicaConnected := replicaConnected w; connectionStatus :=
     connectionStatus w; lastToolCall := lastToolCall w; toolCallHistory
     := x; personaCreated := personaCreated w; naturalResponseCount :=
     naturalResponseCount w; restrictedResponseCount :=
     restrictedResponseCount w; timers := timers w; trace := trace w |}.

Definition setPersonaCreated (x : bool) (w : world) : world :=
  {| now := now w; callObjectRef := callObjectRef w; conversationIdRef :=
     conversationIdRef w; videoRef := videoRef w; conversation :=
     conversation w; isConnected := isConnected w; isConnecting :=
     isConnecting w; error := error w; isVolumeOn := isVolumeOn w;
     replicaConnected := replicaConnected w; connectionStatus :=
     connectionStatus w; lastToolCall := lastToolCall w; toolCallHistory
     := toolCallHistory w; personaCreated := x; naturalResponseCount :=
     naturalResponseCount w; restrictedResponseCount :=
     restrictedResponseCount w; timers := timers w; trace := trace w |}.

Definition setNaturalResponseCount (x : Z) (w : world) : world :=
  {| now := now w; callObjectRef := callObjectRef w; conversationIdRef :=
     conversationIdRef w; videoRef := videoRef w; conversation :=
     conversation w; isConnected := isConnected w; isConnecting :=
     isConnecting w; error := error w; isVolumeOn := isVolumeOn w;
     replicaConnected := replicaConnected w; connectionStatus :=
     connectionStatus w; lastToolCall := lastToolCall w; toolCallHistory
     := toolCallHistory w; personaCreated := personaCreated w;
     naturalResponseCount := x; restrictedResponseCount :=
     restrictedResponseCount w; timers := timers w; trace := trace w |}.

Definition setRestrictedResponseCount (x : Z) (w : world) : world :=
  {| now := now w; callObjectRef := callObjectRef w; conversationIdRef :=
     conversationIdRef w; videoRef := videoRef w; conversation :=
     conversation w; isConnected := isConnected w; isConnecting :=
     isConnecting w; error := error w; isVolumeOn := isVolumeOn w;
     replicaConnected := replicaConnected w; connectionStatus :=
     connectionStatus w; lastToolCall := lastToolCall w; toolCallHistory
     := toolCallHistory w; personaCreated := personaCreated w;
     naturalResponseCount := naturalResponseCount w;
     restrictedResponseCount := x; timers := timers w; trace := trace w |}.

Definition set_timers (x : list timer) (w : world) : world :=
  {| now := now w; callObjectRef := callObjectRef w; conversationIdRef :=
     conversationIdRef w; videoRef := videoRef w; conversation :=
     conversation w; isConnected := isConnected w; isConnecting :=
     isConnecting w; error := error w; isVolumeOn := isVolumeOn w;
     replicaConnected := replicaConnected w; connectionStatus :=
     connectionStatus w; lastToolCall := lastToolCall w; toolCallHistory
     := toolCallHistory w; personaCreated := personaCreated w;
     naturalResponseCount := naturalResponseCount w;
     restrictedResponseCount := restrictedResponseCount w; timers := x;
     trace := trace w |}.

Definition set_trace (x : list (Z * call)) (w : world) : world :=
  {| now := now w; callObjectRef := callObjectRef w; conversationIdRef :=
     conversationIdRef w; videoRef := videoRef w; conversation :=
     conversation w; isConnected := isConnected w; isConnecting :=
     isConnecting w; error := error w; isVolumeOn := isVolumeOn w;
     replicaConnected := replicaConnected w; connectionStatus :=
     connectionStatus w; lastToolCall := lastToolCall w; toolCallHistory
     := toolCallHistory w; personaCreated := personaCreated w;
     naturalResponseCount := naturalResponseCount w;
     restrictedResponseCount := restrictedResponseCount w; timers :=
     timers w; trace := x |}.

(** The component as first rendered, at time [t]. *)
Definition initial (t : Z) : world :=
  {| now := t; callObjectRef := None; conversationIdRef := None;
     videoRef := None; conversation := None; isConnected := false;
     isConnecting := false; error := None; isVolumeOn := true;
     replicaConnected := false; connectionStatus := "Ready to start";
     lastToolCall := ""; toolCallHistory := []; personaCreated := false;
     naturalResponseCount := 0%Z; restrictedResponseCount := 0%Z;
     timers := []; trace := [] |}.

(** Record a call at the current time. *)
Definition emit (c : call) (w : world) : world :=
  set_trace (trace w ++ [(now w, c)]) w.

(** [setTimeout(action, delay)]; an omitted [delay] is [0]. *)
Definition setTimeout (a : timer_action) (delay : option Z) (w : world)
  : world :=
  let d := match delay with Some d => d | None => 0%Z end in
  set_timers (timers w ++ [{| due := (now w + d)%Z; action := a |}]) w.

(** A string ref or state cell is truthy when set and not empty. *)
Definition truthy_id (id : option string) : bool :=
  match id with
  | Some s => negb (s =? "")
  | None => false
  end.

(** Outcome of a [fetch] followed by the reading of its body. *)
Inductive http (A : Type) : Type :=
  | NetworkFailure (e : exn)
  | HttpError (errorData : value) (statusText : string)
  | HttpOk (data : res A).
Arguments NetworkFailure {A} e.
Arguments HttpError {A} errorData statusText.
Arguments HttpOk {A} data.

(** What the collaborators answer. *)
Record env : Type := {
  apiKey : string;                       (* VITE_TAVUS_API_KEY *)
  replicaId : string;                    (* VITE_TAVUS_REPLICA_ID *)
  personaId : string;                    (* VITE_TAVUS_PERSONA_ID *)
  daily_loaded : bool;                   (* window.Daily *)
  create_response : http TavusConversation;
  end_response : http unit;
  join_result : res unit;
  setLocalVideo_result : res unit;
  leave_result : res unit
}.

(** [err.message]; an error raised by the engine carries a non-empty
    text of the engine's choosing, represented here by the error's name. *)
Definition message_of (e : exn) : string :=
  match e with
  | Error m => m
  | TypeError => "TypeError"
  | SyntaxError => "SyntaxError"
  end.

(** [`${err}`]. *)
Definition show_exn (e : exn) : string :=
  match e with
  | Error "" => "Error"
  | Error m => "Error: " ++ m
  | TypeError => "TypeError"
  | SyntaxError => "SyntaxError"
  end.

End World.

(* ================================================================== *)
(** * Dispatch: [executeToolCall], [tryManualToolCall], [handleTavusEvent] *)
(* ================================================================== *)

Module Dispatcher.
Import Js Catalog Normalizer World.

(** [v.toLowerCase()]: only strings have the method. *)
Definition value_toLowerCase `{Runtime} (v : value) : res string :=
  match v with
  | VStr s => Ok (toLowerCase s)
  | _ => Throw TypeError
  end.

(** [v.includes(lit)]: strings search a substring, arrays an element; no
    other value has the method. *)
Definition value_includes (v : value) (lit : string) : res bool :=
  match v with
  | VStr s => Ok (includes s lit)
  | VArr vs => Ok (existsb (fun x => str_eq x lit) vs)
  | _ => Throw TypeError
  end.

(** [v.includes(l1) || v.includes(l2) || ...]. *)
Fixpoint includes_any (v : value) (lits : list string) : res bool :=
  match lits with
  | [] => Ok false
  | l :: rest =>
      b <- value_includes v l ;;
      if b then Ok true else includes_any v rest
  end.

(** [prev.slice(-4)]. *)
Definition slice_last4 (prev : list string) : list string :=
  skipn (length prev - 4) prev.

(** [xs.filter(p)] for a predicate that may raise. *)
Fixpoint filter_res {A} (p : A -> res bool) (xs : list A) : res (list A) :=
  match xs with
  | [] => Ok []
  | x :: rest =>
      b <- p x ;;
      kept <- filter_res p rest ;;
      Ok (if b then x :: kept else kept)
  end.

Section Handlers.
Context `{Runtime}.
Variable books : list Book.

Definition subject_matches (s : value) (book : Book) : bool :=
  str_eq s "ALL" || str_eq s (subject book).

Definition difficulty_matches (d : value) (book : Book) : bool :=
  str_eq d "ALL" || str_eq d (difficulty_level book).

Definition search_matches (term : value) (book : Book) : res bool :=
  t <- value_toLowerCase term ;;
  Ok (includes (toLowerCase (title book)) t
      || match description book with
         | Some d => includes (toLowerCase d) t
         | None => false
         end
      || includes (toLowerCase (author book)) t).

Definition age_matches (minAge maxAge : value) (book : Book) : bool :=
  num_le (target_age_min book) maxAge && num_ge (target_age_max book) minAge.

(** [getRecommendedBooks(preferences)] on an untyped argument: its first
    statement is [preferences.toLowerCase()]. *)
Definition recommend (preferences : value) : res (list Book) :=
  match preferences with
  | VStr p => Ok (getRecommendedBooks books p)
  | _ => Throw TypeError
  end.

(** The [switch] of [executeToolCall], inside its [try]. *)
Definition dispatch (fname args : value) (w : world) : res world :=
  if str_eq fname "filter_books_by_subject" then
    s <- get args "subject" ;;
    let subjectBooks := filter (subject_matches s) books in
    let w := emit (OnFilterChange
                     {| searchTerm := None; selectedSubject := Some s;
                        selectedDifficulty := None; ageRange := None |}) w in
    Ok (setConnectionStatus
          ("✅ Showing " ++ string_of_nat (length subjectBooks) ++ " "
             ++ ToString s ++ " books from our catalog") w)
  else if str_eq fname "filter_books_by_difficulty" then
    d <- get args "difficulty" ;;
    let difficultyBooks := filter (difficulty_matches d) books in
    let w := emit (OnFilterChange
                     {| searchTerm := None; selectedSubject := None;
                        selectedDifficulty := Some d; ageRange := None |}) w in
    Ok (setConnectionStatus
          ("✅ Showing " ++ string_of_nat (length difficultyBooks) ++ " "
             ++ ToString d ++ " books") w)
  else if str_eq fname "search_books" then
    term <- get args "searchTerm" ;;
    searchResults <- filter_res (search_matches term) books ;;
    let w := emit (OnFilterChange
                     {| searchTerm := Some term; selectedSubject := None;
                        selectedDifficulty := None; ageRange := None |}) w in
    Ok (setConnectionStatus
          ("✅ Found " ++ string_of_nat (length searchResults) ++ " "
             ++ dquote ++ ToString term ++ dquote ++ " books") w)
  else if str_eq fname "filter_books_by_age" then
    minAge <- get args "minAge" ;;
    maxAge <- get args "maxAge" ;;
    let ageBooks := filter (age_matches minAge maxAge) books in
    let w := emit (OnFilterChange
                     {| searchTerm := None; selectedSubject := None;
                        selectedDifficulty := None;
                        ageRange := Some (minAge, maxAge) |}) w in
    Ok (setConnectionStatus
          ("✅ Showing " ++ string_of_nat (length ageBooks)
             ++ " books for ages " ++ ToString minAge ++ "-"
             ++ ToString maxAge ++ " ") w)
  else if str_eq fname "recommend_books" then
    preferences <- get args "preferences" ;;
    recommendedBooks <- recommend preferences ;;
    let w := emit (OnBookRecommendation recommendedBooks) w in
    Ok (setConnectionStatus
          ("✅ Found " ++ string_of_nat (length recommendedBooks)
             ++ " recommendations") w)
  else
    Ok (setConnectionStatus ("❓ Unknown action: " ++ ToString fname) w).

Definition executeToolCall (toolCallData : toolcall) (w : world) : world :=
  let fname := function_name toolCallData in
  let args := arguments toolCallData in
  let toolCallString :=
    (ToString fname ++ "(" ++ JSON_stringify args ++ ")")%string in
  let w := emit (ExecuteToolCall toolCallData) w in
  let w := setLastToolCall toolCallString w in
  let w :=
    setToolCallHistory (slice_last4 (toolCallHistory w) ++ [toolCallString]) w in
  match dispatch fname args w with
  | Ok w' => w'
  | Throw _ => setConnectionStatus "❌ Error executing action" w
  end.

Definition manual (fname key : string) (arg : string) : toolcall :=
  {| function_name := VStr fname; arguments := VObj [(key, VStr arg)] |}.

Definition tryManualToolCall (userSpeech : value) (w : world) : res world :=
  speech <- value_toLowerCase userSpeech ;;
  if includes speech "story" || includes speech "stories" then
    Ok (executeToolCall (manual "filter_books_by_subject" "subject" "STORY") w)
  else if includes speech "science" then
    Ok (executeToolCall (manual "filter_books_by_subject" "subject" "SCIENCE") w)
  else if includes speech "math" then
    Ok (executeToolCall (manual "filter_books_by_subject" "subject" "MATHS") w)
  else if includes speech "animal" || includes speech "rabbit" then
    Ok (executeToolCall (manual "search_books" "searchTerm" "animals") w)
  else if includes speech "easy" || includes speech "beginner" then
    Ok (executeToolCall
          (manual "filter_books_by_difficulty" "difficulty" "beginner") w)
  else Ok w.

(** [data && data.event_type === 'conversation.utterance' &&
    data.properties && data.properties.role === role]. *)
Definition is_utterance (role : string) (data : value) : bool :=
  truthy data
  && str_eq (prop data "event_type") "conversation.utterance"
  && truthy (prop data "properties")
  && str_eq (prop (prop data "properties") "role") role.

(** The bookkeeping on replica utterances, before the [try]. *)
Definition track_replica (data : value) (w : world) : res world :=
  if is_utterance "replica" data then
    let replicaResponse := prop (prop data "properties") "speech" in
    mentionsExternalBooks <-
      includes_any replicaResponse
        ["Peter Rabbit"; "Runaway Bunny"; "Tale of"; "classic story";
         "famous book"] ;;
    spokeFunction <-
      includes_any replicaResponse
        ["filter_books_by_"; "search_books"; "recommend_books"; "{"; "}"] ;;
    let isNatural := negb spokeFunction in
    if isNatural && negb mentionsExternalBooks then
      Ok (setRestrictedResponseCount (restrictedResponseCount w + 1)%Z
            (setNaturalResponseCount (naturalResponseCount w + 1)%Z w))
    else if mentionsExternalBooks then
      Ok (setConnectionStatus
            "⚠️ AI mentioned external books - needs restriction improvement" w)
    else
      Ok (setConnectionStatus
            "⚠️ AI mentioned function names - needs improvement" w)
  else Ok w.

(** One of the guarded assignments to [toolCallData]. *)
Definition probe (toolCallData : option toolcall) (guard : bool)
  (payload : value) : res (option toolcall) :=
  match toolCallData with
  | Some _ => Ok toolCallData
  | None => if guard then extractToolCallFromData payload else Ok None
  end.

(** Methods 1 to 5: the payloads probed, in order. *)
Definition probe_all (event data : value) : res (option toolcall) :=
  t1 <- probe None (truthy data) data ;;
  t2 <- probe t1 true event ;;
  t3 <- probe t2 (truthy (prop event "payload")) (prop event "payload") ;;
  t4 <- probe t3 (truthy (prop event "message")) (prop event "message") ;;
  match t4 with
  | Some _ => Ok t4
  | None =>
      if truthy data && truthy (prop data "event_type") then
        tagged <- includes_any (prop data "event_type") ["tool"; "function"] ;;
        if tagged || str_eq (prop data "event_type")
                            "conversation.llm.function_call"
        then extractToolCallFromData data
        else Ok None
      else Ok None
  end.

(** The [try] block. *)
Definition process (event data : value) (w : world) : res world :=
  toolCallData <- probe_all event data ;;
  match toolCallData with
  | Some tc => Ok (executeToolCall tc w)
  | None =>
      if is_utterance "user" data
      then tryManualToolCall (prop (prop data "properties") "speech") w
      else Ok w
  end.

(** [handleTavusEvent]: an exception of the bookkeeping escapes, one of
    the [try] block is caught and logged. *)
Definition handleTavusEvent (event : value) (w : world) : res world :=
  data <- get event "data" ;;
  w1 <- track_replica data w ;;
  Ok match process event data w1 with
     | Ok w2 => w2
     | Throw _ => w1
     end.

End Handlers.

(** The [executeToolCall] entries of a trace. *)
Definition executed (w : world) : list toolcall :=
  flat_map (fun e => match snd e with
                     | ExecuteToolCall tc => [tc]
                     | _ => []
                     end) (trace w).

Definition filter_changes (w : world) : list FilterCriteria :=
  flat_map (fun e => match snd e with
                     | OnFilterChange c => [c]
                     | _ => []
                     end) (trace w).

Definition recommendations (w : world) : list (list Book) :=
  flat_map (fun e => match snd e with
                     | OnBookRecommendation bs => [bs]
                     | _ => []
                     end) (trace w).

(** The state a handler leaves behind: an escaping exception leaves the
    state it started from. *)
Definition after (r : res world) (w : world) : world :=
  match r with
  | Ok w' => w'
  | Throw _ => w
  end.

(** A computation that produces no tool call: it ends with [null] or
    with an exception. *)
Definition quiet (r : res (option toolcall)) : Prop :=
  r = Ok None \/ exists e, r = Throw e.

(** The payloads [handleTavusEvent] hands to the normalizer. *)
Definition probed (event : value) : list value :=
  [prop event "data"; event; prop event "payload"; prop event "message"].

(** A user utterance that carries speech text. *)
Definition recognized_user_utterance (event : value) : bool :=
  is_utterance "user" (prop event "data")
  && is_string (prop (prop (prop event "data") "properties") "speech").

(** [{ selectedSubject: s }]. *)
Definition subject_criteria (s : value) : FilterCriteria :=
  {| searchTerm := None; selectedSubject := Some s;
     selectedDifficulty := None; ageRange := None |}.

(** [text.toLowerCase().includes(needle.toLowerCase())]. *)
Definition contains_ci `{Runtime} (text needle : string) : bool :=
  includes (toLowerCase text) (toLowerCase needle).

End Dispatcher.

(* ================================================================== *)
(** * The media binder: [updateReplicaVideo] *)
(* ================================================================== *)

Module Media.
Import Js Catalog World.

(** One entry of [participant.tracks]. *)
Record track_state : Type := {
  state : string;
  persistentTrack : option track
}.

(** A participant of [callObject.participants()]; a slot may be absent. *)
Record participant : Type := {
  video_slot : option track_state;
  audio_slot : option track_state
}.

(** [slot?.state === 'playable']. *)
Definition playable (slot : option track_state) : bool :=
  match slot with
  | Some ts => state ts =? "playable"
  | None => false
  end.

Definition track_of (slot : option track_state) : option track :=
  match slot with
  | Some ts => persistentTrack ts
  | None => None
  end.

Section Binder.
Variable books : list Book.
(** [isVolumeOn] as the listeners read it.  They are registered once, by
    [setupEventListeners], and close over the state of the render that
    started the session, so this is the flag of that render and not the
    current one. *)
Variable isVolumeOn_captured : bool.

Definition displayReplicaVideo (videoTrack : track) (w : world) : world :=
  match videoRef w with
  | Some _ =>
      set_videoRef (Some {| srcObject := Some [videoTrack];
                            muted := negb isVolumeOn_captured |}) w
  | None => w
  end.

Definition is_video (t : track) : bool :=
  match kind t with
  | Video => true
  | Audio => false
  end.

Definition handleReplicaAudio (audioTrack : track) (w : world) : world :=
  match videoRef w with
  | Some v =>
      match srcObject v with
      | Some currentStream =>
          let newStream := filter is_video currentStream ++ [audioTrack] in
          set_videoRef (Some {| srcObject := Some newStream;
                                muted := negb isVolumeOn_captured |}) w
      | None => w
      end
  | None => w
  end.

(** The body of the [forEach] for one entry; [has] is
    [hasWorkingAudioVideo]. *)
Definition visit (acc : world * bool) (entry : string * participant)
  : world * bool :=
  let '(w, has) := acc in
  let '(id, p) := entry in
  if id =? "local" then (w, has)
  else
    let videoPlayable := playable (video_slot p) in
    let audioPlayable := playable (audio_slot p) in
    let '(w, has) :=
      if videoPlayable && audioPlayable then
        (setIsConnecting false
           (setConnectionStatus
              ("🔒 Library assistant ready! we have "
                 ++ string_of_nat (length books) ++ " books in our catalog")
              (setReplicaConnected true w)), true)
      else (w, has) in
    let w :=
      if videoPlayable then
        match track_of (video_slot p) with
        | Some videoTrack => displayReplicaVideo videoTrack w
        | None => w
        end
      else w in
    let w :=
      if audioPlayable then
        match track_of (audio_slot p) with
        | Some audioTrack => handleReplicaAudio audioTrack w
        | None => w
        end
      else w in
    (w, has).

Definition updateReplicaVideo (participants : list (string * participant))
  (w : world) : world :=
  match callObjectRef w with
  | None => w
  | Some _ =>
      let '(w', hasWorkingAudioVideo) := fold_left visit participants (w, false) in
      if hasWorkingAudioVideo then w'
      else setConnectionStatus "Connected - waiting for assistant media..."
             (setReplicaConnected false w')
  end.

End Binder.

(** The tracks attached to the local sink. *)
Definition bound_tracks (w : world) : list track :=
  match videoRef w with
  | Some v =>
      match srcObject v with
      | Some s => s
      | None => []
      end
  | None => []
  end.

(** A remote participant with both tracks playable. *)
Definition ready (entry : string * participant) : bool :=
  negb (fst entry =? "local")
  && playable (video_slot (snd entry))
  && playable (audio_slot (snd entry)).

(** Some remote participant has both tracks playable. *)
Definition some_ready (participants : list (string * participant)) : bool :=
  existsb ready participants.

(** A participant none of whose tracks is playable, or the local one. *)
Definition idle (entry : string * participant) : bool :=
  (fst entry =? "local")
  || negb (playable (video_slot (snd entry)))
     && negb (playable (audio_slot (snd entry))).

End Media.

(* ================================================================== *)
(** * [TavusService] and the session lifecycle *)
(* ================================================================== *)

Module Lifecycle.
Import Js Catalog Normalizer World.

(** ** [TavusService] *)

Definition isConfigured (e : env) : bool :=
  negb (apiKey e =? "") && negb (replicaId e =? "").

(** The [Error] built from a response that is not [ok]. *)
Definition api_error (errorData : value) (statusText : string) : exn :=
  match get errorData "message" with
  | Throw ex => ex
  | Ok m =>
      Error ("Tavus API error: "
               ++ (if truthy m then ToString m else statusText))%string
  end.

(** [TavusService.endConversation]: one [POST .../end] unless the key is
    missing. *)
Definition endConversation (e : env) (conversationId : string) (w : world)
  : world * res unit :=
  if apiKey e =? "" then (w, Throw (Error "Tavus API key not configured"))
  else
    let w := emit (ProviderEnd conversationId) w in
    match end_response e with
    | NetworkFailure ex => (w, Throw ex)
    | HttpError errorData statusText =>
        (w, Throw (api_error errorData statusText))
    | HttpOk _ => (w, Ok tt)
    end.

(** [TavusService.createLibraryConversation], through
    [createConversation]: one [POST /conversations] (the request body, a
    text built from the catalog, is not represented). *)
Definition createLibraryConversation (e : env) (w : world)
  : world * res TavusConversation :=
  if apiKey e =? "" then (w, Throw (Error "Tavus API key not configured"))
  else
    let w := emit ProviderCreate w in
    match create_response e with
    | NetworkFailure ex => (w, Throw ex)
    | HttpError errorData statusText =>
        (w, Throw (api_error errorData statusText))
    | HttpOk data => (w, data)
    end.

(** ** The component *)

Definition checkLibraryPersona (e : env) : res unit :=
  if personaId e =? "" then
    Throw (Error "No persona ID configured. Please set either VITE_TAVUS_LIBRARY_PERSONA_ID or VITE_TAVUS_PERSONA_ID in your .env")
  else Ok tt.

Definition clear_video (w : world) : world :=
  match videoRef w with
  | Some v => set_videoRef (Some {| srcObject := None; muted := muted v |}) w
  | None => w
  end.

(** The "reset all state" statements that end [cleanupConversation]. *)
Definition cleanupConversation_reset (w : world) : world :=
  let w := setConversation None w in
  let w := setIsConnected false w in
  let w := setReplicaConnected false w in
  let w := setConnectionStatus "Ready to start" w in
  let w := set_conversationIdRef None w in
  clear_video w.

(** [cleanupConversation]: leave the call, end the conversation, reset;
    the first rejection skips the rest (the [catch] only logs). *)
Definition cleanupConversation (e : env) (w : world) : world :=
  let left :=
    match callObjectRef w with
    | Some _ =>
        let w := emit TransportLeave w in
        match leave_result e with
        | Throw ex => (w, Throw ex)
        | Ok _ => (set_callObjectRef None (emit TransportDestroy w), Ok tt)
        end
    | None => (w, Ok tt)
    end in
  match left with
  | (w, Throw _) => w
  | (w, Ok _) =>
      let ended :=
        match conversationIdRef w with
        | Some id =>
            if truthy_id (conversationIdRef w) then endConversation e id w
            else (w, Ok tt)
        | None => (w, Ok tt)
        end in
      match ended with
      | (w, Throw _) => w
      | (w, Ok _) => cleanupConversation_reset w
      end
  end.

(** [joinConversation].  Its call of [setupEventListeners] registers the
    handlers of [Dispatcher] and [Media] and changes no state. *)
Definition joinConversation (e : env) (conversationUrl : string) (w : world)
  : world * res unit :=
  if negb (daily_loaded e) then (w, Throw (Error "Daily.co library not loaded"))
  else
    let failed (ex : exn) (w : world) :=
      (setConnectionStatus "Failed to join conversation"
         (setError (Some ("Failed to join: " ++ show_exn ex)%string) w),
       @Throw unit ex) in
    let w := setConnectionStatus "Joining conversation..." w in
    let w := set_callObjectRef (Some DailyCall) (emit CreateCallObject w) in
    let w := emit (TransportJoin conversationUrl) w in
    match join_result e with
    | Throw ex => failed ex w
    | Ok _ =>
        let w := emit (TransportSetLocalVideo false) w in
        match setLocalVideo_result e with
        | Throw ex => failed ex w
        | Ok _ =>
            (setConnectionStatus "Connected - waiting for Library  assistant..."
               (setIsConnected true w), Ok tt)
        end
    end.

Definition CONVERSATION_DURATION : Z := 60000.
Definition WRAP_UP_TIME : Z := 45000.
Definition FINAL_WARNING_TIME : Z := 55000.

(** The [catch] of [initializeAIAssistant]. *)
Definition failed (err : exn) (w : world) : world :=
  let reason :=
    if message_of err =? "" then "Failed to create conversation"
    else message_of err in
  setConnectionStatus "Failed to create conversation"
    (setError (Some reason) w).

(** [initializeAIAssistant].  The second [setTimeout] is written without a
    delay argument ([FINAL_WARNING_TIME] is commented out at the call). *)
Definition initializeAIAssistant (e : env) (w : world) : world :=
  if negb (isConfigured e) then
    setError (Some "Tavus not configured. Please check your environment variables.") w
  else
    let w := setIsConnecting true w in
    let w := setError None w in
    let w := setConnectionStatus "Initializing AI assistant..." w in
    let w :=
      match checkLibraryPersona e with
      | Throw err => failed err w
      | Ok _ =>
          let w :=
            setConnectionStatus "Creating conversation with book catalog..." w in
          match createLibraryConversation e w with
          | (w, Throw err) => failed err w
          | (w, Ok newConversation) =>
              let w := setConversation (Some newConversation) w in
              let w :=
                set_conversationIdRef
                  (Some (conversation_id newConversation)) w in
              let w :=
                setConnectionStatus
                  "Conversation created with book restrictions! Joining..." w in
              match joinConversation e (conversation_url newConversation) w with
              | (w, Throw err) => failed err w
              | (w, Ok _) =>
                  let w := setTimeout WrapUp (Some WRAP_UP_TIME) w in
                  let w := setTimeout FinalWarning None w in
                  setTimeout HardTermination (Some CONVERSATION_DURATION) w
              end
          end
      end in
    setIsConnecting false w.

(** The escalation messages. *)
Definition instruction (conversationId text : string) : value :=
  VObj [("message_type", VStr "conversation");
        ("event_type", VStr "conversation.respond");
        ("conversation_id", VStr conversationId);
        ("properties", VObj [("text", VStr text)])].

Definition wrapUpText : string :=
  "We have about 15 seconds left. Please start wrapping up your response.".

Definition finalWarningText : string :=
  "URGENT: You have 5 seconds left. Please end your response immediately with a polite goodbye.".

(** The guard and body shared by the two escalation closures; whether
    [sendAppMessage] then raises makes no difference, its [catch] only
    logs. *)
Definition escalate (text : string) (w : world) : world :=
  match callObjectRef w, conversationIdRef w with
  | Some _, Some id =>
      if truthy_id (conversationIdRef w)
      then emit (SendAppMessage (instruction id text) "*") w
      else w
  | _, _ => w
  end.

(** What a timer does when it fires.  The termination closure calls
    [cleanupConversation()] without awaiting it and then sets the status;
    the call suspends at its first [await] before it assigns any state,
    so the status is set first and the reset of a completed cleanup
    overwrites it. *)
Definition fire (e : env) (a : timer_action) (w : world) : world :=
  match a with
  | WrapUp => escalate wrapUpText w
  | FinalWarning => escalate finalWarningText w
  | HardTermination =>
      if truthy_id (conversationIdRef w) then
        cleanupConversation e
          (setConnectionStatus "Conversation ended due to time limit" w)
      else w
  | RestartInitialize => initializeAIAssistant e w
  end.

(** [restartConversation]. *)
Definition restartConversation (e : env) (w : world) : world :=
  let w := cleanupConversation e w in
  let w := setPersonaCreated false w in
  let w := setNaturalResponseCount 0%Z w in
  let w := setRestrictedResponseCount 0%Z w in
  setTimeout RestartInitialize (Some 1000%Z) w.

(** ** The timer queue *)

(** The first pending timer due at [t] or before, earliest first, in
    order of registration among equals. *)
Fixpoint earliest (pending : list timer) : option Z :=
  match pending with
  | [] => None
  | tm :: rest =>
      match earliest rest with
      | Some d => Some (Z.min (due tm) d)
      | None => Some (due tm)
      end
  end.

Fixpoint take (d : Z) (pending : list timer) : option (timer * list timer) :=
  match pending with
  | [] => None
  | tm :: rest =>
      if (due tm =? d)%Z then Some (tm, rest)
      else
        match take d rest with
        | Some (x, rest') => Some (x, tm :: rest')
        | None => None
        end
  end.

Definition next_timer (t : Z) (pending : list timer)
  : option (timer * list timer) :=
  match earliest pending with
  | Some d => if (d <=? t)%Z then take d pending else None
  | None => None
  end.

(** Fire the timers due up to time [t], at most [fuel] of them. *)
Fixpoint run_timers (fuel : nat) (e : env) (t : Z) (w : world) : world :=
  match fuel with
  | O => w
  | S n =>
      match next_timer t (timers w) with
      | None => set_now (Z.max (now w) t) w
      | Some (tm, rest) =>
          let w := set_now (Z.max (now w) (due tm)) (set_timers rest w) in
          run_timers n e t (fire e (action tm) w)
      end
  end.

(** A firing registers at most three timers, none of which registers
    more. *)
Definition weight (tm : timer) : nat :=
  match action tm with
  | RestartInitialize => 4
  | _ => 1
  end.

Definition budget (pending : list timer) : nat :=
  S (list_sum (map weight pending)).

(** Let time pass until [t]. *)
Definition advance (e : env) (t : Z) (w : world) : world :=
  run_timers (budget (timers w)) e t w.

(** Observations on the trace. *)
Definition provider_ends (w : world) : list (Z * string) :=
  flat_map (fun c => match snd c with
                     | ProviderEnd id => [(fst c, id)]
                     | _ => []
                     end) (trace w).

Definition sent_messages (w : world) : list (Z * value) :=
  flat_map (fun c => match snd c with
                     | SendAppMessage m _ => [(fst c, m)]
                     | _ => []
                     end) (trace w).

(** The collaborators let a teardown run to its end. *)
Definition teardown_succeeds (e : env) : bool :=
  negb (apiKey e =? "")
  && match leave_result e with
     | Ok _ => true
     | Throw _ => false
     end
  && match end_response e with
     | HttpOk _ => true
     | _ => false
     end.

(** What a failed start leaves in [w'], started from [w]: a non-empty
    reason, the failure status, the connecting flag cleared, no timer
    armed and no provider end call made. *)
Definition start_failed (w w' : world) : Prop :=
  (exists reason, error w' = Some reason /\ reason <> "")
  /\ connectionStatus w' = "Failed to create conversation"
  /\ isConnecting w' = false
  /\ timers w' = timers w
  /\ provider_ends w' = provider_ends w.

(** The transport refuses the join, at one of its three steps. *)
Definition join_fails (e : env) : Prop :=
  daily_loaded e = false
  \/ (exists x, join_result e = Throw x)
  \/ (exists x, setLocalVideo_result e = Throw x).

End Lifecycle.

(* ================================================================== *)
(** * Concrete inputs *)
(* ================================================================== *)

Module Examples.
Import Js Catalog Normalizer World Dispatcher Media Lifecycle.

Definition book (t a s : string) (d : option string) : Book :=
  {| title := t; author := a; subject := s; difficulty_level := "beginner";
     target_age_min := 4; target_age_max := 9; description := d |}.

(** Ten books, three of them tagged [SCIENCE]; nothing mentions dragons. *)
Definition catalog : list Book :=
  [ book "Hoppy the Rabbit" "A. Warren" "STORY" (Some "A rabbit explores the forest");
    book "Why Is the Sky Blue" "B. Lin" "SCIENCE" (Some "Light and colour");
    book "Counting Stars" "C. Okoro" "MATHS" None;
    book "Flutter the Bird" "D. Marsh" "STORY" (Some "A bird with a blue wing");
    book "Seeds and Sprouts" "E. Novak" "SCIENCE" None;
    book "Shapes Around Us" "F. Ito" "MATHS" (Some "Circles and squares");
    book "The Kind Giant" "G. Silva" "STORY" None;
    book "Magnets at Play" "H. Brandt" "SCIENCE" (Some "Push and pull");
    book "Old Town Tales" "I. Haddad" "HISTORY" None;
    book "Rhymes for Rain" "J. Castle" "POETRY" (Some "Short poems") ].

Definition conv : TavusConversation :=
  {| conversation_id := "c-1"; conversation_name := "Library Assistant Chat";
     status := "active"; conversation_url := "https://tavus.daily.co/c-1";
     replica_id := "r-1"; persona_id := Some "p-1";
     created_at := "2025-01-01T00:00:00Z" |}.

(** Every collaborator answers successfully. *)
Definition env_ok : env :=
  {| apiKey := "key"; replicaId := "r-1"; personaId := "p-1";
     daily_loaded := true;
     create_response := HttpOk (Ok conv);
     end_response := HttpOk (Ok tt);
     join_result := Ok tt;
     setLocalVideo_result := Ok tt;
     leave_result := Ok tt |}.

(** The provider refuses to create the conversation. *)
Definition env_create_fails : env :=
  {| apiKey := "key"; replicaId := "r-1"; personaId := "p-1";
     daily_loaded := true;
     create_response :=
       HttpError (VObj [("message", VStr "quota exceeded")]) "Too Many Requests";
     end_response := HttpOk (Ok tt);
     join_result := Ok tt;
     setLocalVideo_result := Ok tt;
     leave_result := Ok tt |}.

(** The conversation is created but the transport join is rejected. *)
Definition env_join_fails : env :=
  {| apiKey := "key"; replicaId := "r-1"; personaId := "p-1";
     daily_loaded := true;
     create_response := HttpOk (Ok conv);
     end_response := HttpOk (Ok tt);
     join_result := Throw (Error "room is full");
     setLocalVideo_result := Ok tt;
     leave_result := Ok tt |}.

(** The provider answers the end request with an error status. *)
Definition env_end_fails : env :=
  {| apiKey := "key"; replicaId := "r-1"; personaId := "p-1";
     daily_loaded := true;
     create_response := HttpOk (Ok conv);
     end_response := HttpError (VObj []) "Service Unavailable";
     join_result := Ok tt;
     setLocalVideo_result := Ok tt;
     leave_result := Ok tt |}.

(** A session joined at time [0]. *)
Definition joined : world := initializeAIAssistant env_ok (initial 0).

(** The same session once its [<video>] element is mounted. *)
Definition mounted : world :=
  set_videoRef (Some {| srcObject := None; muted := false |}) joined.

(** An event that carries the direct shape under [payload]. *)
Definition wrapped_event : value := VObj [("payload", shape_direct)].

(** An event no probe recognises. *)
Definition noise_event : value :=
  VObj [("data", VObj [("event_type", VStr "conversation.started")])].

Definition video_track : track := {| kind := Video; track_id := 1 |}.
Definition audio_track : track := {| kind := Audio; track_id := 2 |}.

Definition local_participant : participant :=
  {| video_slot := Some {| state := "off"; persistentTrack := None |};
     audio_slot := Some {| state := "playable"; persistentTrack := None |} |}.

(** A replica whose video is playable while its audio still loads. *)
Definition video_only : participant :=
  {| video_slot := Some {| state := "playable";
                           persistentTrack := Some video_track |};
     audio_slot := Some {| state := "loading"; persistentTrack := None |} |}.

Definition both_ready : participant :=
  {| video_slot := Some {| state := "playable";
                           persistentTrack := Some video_track |};
     audio_slot := Some {| state := "playable";
                           persistentTrack := Some audio_track |} |}.

End Examples.

(* ================================================================== *)
(** * The assistant's panel: [handleOpen], [leaveConversation],
      [toggleMute], [toggleVolume] *)
(* ================================================================== *)

Module Panel.
Import Js Catalog World Lifecycle.

(** The session together with the panel's own state cells, and the
    arguments of the [setLocalAudio] calls made so far. *)
Record panel : Type := {
  session : world;
  isOpen : bool;
  isMuted : bool;
  shouldPulse : bool;
  localAudio : list bool
}.

Definition set_session (x : world) (p : panel) : panel :=
  {| session := x; isOpen := isOpen p; isMuted := isMuted p;
     shouldPulse := shouldPulse p; localAudio := localAudio p |}.

Definition setIsOpen (x : bool) (p : panel) : panel :=
  {| session := session p; isOpen := x; isMuted := isMuted p;
     shouldPulse := shouldPulse p; localAudio := localAudio p |}.

Definition setIsMuted (x : bool) (p : panel) : panel :=
  {| session := session p; isOpen := isOpen p; isMuted := x;
     shouldPulse := shouldPulse p; localAudio := localAudio p |}.

Definition setShouldPulse (x : bool) (p : panel) : panel :=
  {| session := session p; isOpen := isOpen p; isMuted := isMuted p;
     shouldPulse := x; localAudio := localAudio p |}.

Definition set_localAudio (x : list bool) (p : panel) : panel :=
  {| session := session p; isOpen := isOpen p; isMuted := isMuted p;
     shouldPulse := shouldPulse p; localAudio := x |}.

Definition setIsVolumeOn (x : bool) (w : world) : world :=
  {| now := now w; callObjectRef := callObjectRef w;
     conversationIdRef := conversationIdRef w; videoRef := videoRef w;
     conversation := conversation w; isConnected := isConnected w;
     isConnecting := isConnecting w; error := error w; isVolumeOn := x;
     replicaConnected := replicaConnected w;
     connectionStatus := connectionStatus w; lastToolCall := lastToolCall w;
     toolCallHistory := toolCallHistory w;
     personaCreated := personaCreated w;
     naturalResponseCount := naturalResponseCount w;
     restrictedResponseCount := restrictedResponseCount w;
     timers := timers w; trace := trace w |}.

(** The panel as first rendered around a session. *)
Definition closed (w : world) : panel :=
  {| session := w; isOpen := false; isMuted := false; shouldPulse := true;
     localAudio := [] |}.

(** [handleOpen]: a start is attempted only when no conversation is
    stored and the session is neither connecting nor connected. *)
Definition handleOpen (e : env) (p : panel) : panel :=
  let p := setIsOpen true p in
  let p := setShouldPulse false p in
  match conversation (session p) with
  | None =>
      if negb (isConnecting (session p)) && negb (isConnected (session p))
      then set_session (initializeAIAssistant e (session p)) p
      else p
  | Some _ => p
  end.

(** [leaveConversation]. *)
Definition leaveConversation (e : env) (p : panel) : panel :=
  setIsOpen false (set_session (cleanupConversation e (session p)) p).

(** [toggleMute]; [result] is the outcome of [setLocalAudio]. *)
Definition toggleMute (result : res unit) (p : panel) : panel :=
  match callObjectRef (session p) with
  | Some _ =>
      if isConnected (session p) then
        let newMutedState := negb (isMuted p) in
        let p := set_localAudio (localAudio p ++ [negb newMutedState]) p in
        match result with
        | Ok _ => setIsMuted newMutedState p
        | Throw _ =>
            set_session (setError (Some "Error toggling mute") (session p)) p
        end
      else p
  | None => p
  end.

(** [toggleVolume]. *)
Definition toggleVolume (w : world) : world :=
  let newVolumeState := negb (isVolumeOn w) in
  let w := setIsVolumeOn newVolumeState w in
  match videoRef w with
  | Some v =>
      set_videoRef (Some {| srcObject := srcObject v;
                            muted := negb newVolumeState |}) w
  | None => w
  end.

(** Every collaborator of a start answers successfully, the provider with
    the conversation [c]. *)
Definition start_succeeds (e : env) (c : TavusConversation) : Prop :=
  isConfigured e = true
  /\ personaId e <> ""
  /\ create_response e = HttpOk (Ok c)
  /\ daily_loaded e = true
  /\ join_result e = Ok tt
  /\ setLocalVideo_result e = Ok tt.

(** No pending timer is the delayed start of a restart. *)
Definition no_restart_pending (w : world) : Prop :=
  Forall (fun tm => action tm <> RestartInitialize) (timers w).

End Panel.

(* ================================================================== *)
(** * The quiz modal: [QuizModal] *)
(* ================================================================== *)

Module Quiz.
Import Js.

(** One answer option of the multiple-choice question. *)
Record QuizOption : Type := {
  option_text : string;
  isCorrect : bool
}.

Record MultipleChoice : Type := {
  question : string;
  options : list QuizOption
}.

Record Spelling : Type := {
  word : string;
  hint : string
}.

Record QuizData : Type := {
  multipleChoice : MultipleChoice;
  spelling : Spelling
}.

(** [pageContent]. *)
Record PageContent : Type := {
  title : string;
  text : string;
  quiz : option QuizData
}.

(** [QuizAnswer]. *)
Record QuizAnswer : Type := {
  pageTitle : string;
  multipleChoiceQuestion : string;
  multipleChoiceAnswer : string;
  spellingWord : string;
  spellingAnswer_recorded : string;
  answer_isCorrect : bool
}.

(** [s.split(' ')]: the pieces between single spaces, empty ones
    included. *)
Fixpoint split_from (piece : string) (s : string) : list string :=
  match s with
  | EmptyString => [piece]
  | String c rest =>
      if Ascii.eqb c " "%char then piece :: split_from "" rest
      else split_from (piece ++ String c "") rest
  end.

Definition split_space (s : string) : list string := split_from "" s.

(** [pageContent.quiz || { ... }]: the quiz of the page, or one made up
    from its text. *)
Definition quiz_of (pageContent : PageContent) : QuizData :=
  match quiz pageContent with
  | Some q => q
  | None =>
      {| multipleChoice :=
           {| question := "What happened in this part of the story?";
              options :=
                [ {| option_text := utf16_prefix 50 (text pageContent) ++ "...";
                     isCorrect := true |};
                  {| option_text := "Something completely different happened...";
                     isCorrect := false |} ] |};
         spelling :=
           {| word :=
                match find (fun w => (4 <? utf16_length w)%nat)
                           (split_space (text pageContent)) with
                | Some w => w
                | None => "story"
                end;
              hint := "Try spelling this word from the story" |} |}
  end.

(** [s.replace(/[^a-z]/g, '')]. *)
Fixpoint letters_only (s : string) : string :=
  match s with
  | EmptyString => EmptyString
  | String c rest =>
      let n := nat_of_ascii c in
      if (97 <=? n)%nat && (n <=? 122)%nat
      then String c (letters_only rest)
      else letters_only rest
  end.

(** The test applied to what an engine read:
    [text.toLowerCase().replace(/[^a-z]/g, '').includes(targetWord)]. *)
Definition reads_word `{Runtime} (read target : string) : bool :=
  includes (letters_only (toLowerCase read)) (toLowerCase target).

(** The white space and line terminators [trim] removes, by their
    encodings: U+0009 to U+000D and U+0020; U+00A0; U+1680, U+2000 to
    U+200A, U+2028, U+2029, U+202F, U+205F, U+3000 and U+FEFF. *)
Definition is_space (c : ascii) : bool :=
  let n := nat_of_ascii c in
  (n =? 32)%nat || ((9 <=? n)%nat && (n <=? 13)%nat).

Definition is_space2 (a b : ascii) : bool :=
  (nat_of_ascii a =? 194)%nat && (nat_of_ascii b =? 160)%nat.

Definition is_space3 (a b c : ascii) : bool :=
  let x := nat_of_ascii a in
  let y := nat_of_ascii b in
  let z := nat_of_ascii c in
  ((x =? 225)%nat && (y =? 154)%nat && (z =? 128)%nat)
  || ((x =? 226)%nat && (y =? 128)%nat
      && (((128 <=? z)%nat && (z <=? 138)%nat)
          || (z =? 168)%nat || (z =? 169)%nat || (z =? 175)%nat))
  || ((x =? 226)%nat && (y =? 129)%nat && (z =? 159)%nat)
  || ((x =? 227)%nat && (y =? 128)%nat && (z =? 128)%nat)
  || ((x =? 239)%nat && (y =? 187)%nat && (z =? 191)%nat).

(** The text after one leading white-space character, if there is one. *)
Definition after_space (s : string) : option string :=
  match s with
  | String a r =>
      if is_space a then Some r
      else
        match r with
        | String b r' =>
            if is_space2 a b then Some r'
            else
              match r' with
              | String c r'' => if is_space3 a b c then Some r'' else None
              | EmptyString => None
              end
        | EmptyString => None
        end
  | EmptyString => None
  end.

(** The same from the end, on the reversed text. *)
Definition before_space (reversed : string) : option string :=
  match reversed with
  | String c r =>
      if is_space c then Some r
      else
        match r with
        | String b r' =>
            if is_space2 b c then Some r'
            else
              match r' with
              | String a r'' => if is_space3 a b c then Some r'' else None
              | EmptyString => None
              end
        | EmptyString => None
        end
  | EmptyString => None
  end.

Fixpoint strip (next : string -> option string) (fuel : nat) (s : string)
  : string :=
  match fuel with
  | O => s
  | S f =>
      match next s with
      | Some r => strip next f r
      | None => s
      end
  end.

Fixpoint reverse (acc s : string) : string :=
  match s with
  | EmptyString => acc
  | String c r => reverse (String c acc) r
  end.

Definition trim_left (s : string) : string :=
  strip after_space (String.length s) s.

Definition trim_right (s : string) : string :=
  reverse "" (strip before_space (String.length s) (reverse "" s)).

(** [s.trim()]. *)
Definition trim (s : string) : string := trim_right (trim_left s).

Inductive ocr_method : Type := tesseract | gemini.

(** A camera of [availableCameras]. *)
Record MediaDeviceInfo : Type := {
  deviceId : string;
  label : string
}.

(** What [getCurrentCameraConstraints] asks for besides the 320x240
    size. *)
Inductive camera_choice : Type :=
  | ExactDevice (id : string)
  | FacingUser.

Section Numbers.
Context `{Runtime}.
(** The numbers of the OCR engines: the type, zero, and division by a
    hundred. *)
Variable number : Type.
Variable zero : number.
Variable hundredth : number -> number.

(** [OCRResult]. *)
Record OCRResult : Type := {
  ocr_text : string;
  confidence : number;
  method : ocr_method
}.

(** Calls out of the component. *)
Inductive effect : Type :=
  | Confetti
  | CorrectSound
  | ReadText (spoken : string)
  | Recognize (engine : ocr_method) (image : string)
  | AddQuizAnswer (answer : QuizAnswer)
  | NextPage
  | OnClose.

Record state : Type := {
  score : nat;
  showScore : bool;
  spellingAnswer : string;
  isProcessing : bool;
  ocrResults : list OCRResult;
  capturedImage : option string;
  showLivePreview : bool;
  showMultipleChoice : bool;
  showSpelling : bool;
  isTransitioning : bool;
  availableCameras : list MediaDeviceInfo;
  currentCameraIndex : nat;
  selectedMultipleChoiceAnswer : string;
  finalSpellingAnswer : string;
  pendingTransitions : nat;
  effects : list effect
}.

Definition setScore (x : nat) (s : state) : state :=
  {| score := x; showScore := showScore s; spellingAnswer :=
     spellingAnswer s; isProcessing := isProcessing s; ocrResults :=
     ocrResults s; capturedImage := capturedImage s; showLivePreview :=
     showLivePreview s; showMultipleChoice := showMultipleChoice s;
     showSpelling := showSpelling s; isTransitioning := isTransitioning s;
     availableCameras := availableCameras s; currentCameraIndex :=
     currentCameraIndex s; selectedMultipleChoiceAnswer :=
     selectedMultipleChoiceAnswer s; finalSpellingAnswer :=
     finalSpellingAnswer s; pendingTransitions := pendingTransitions s;
     effects := effects s |}.

Definition setShowScore (x : bool) (s : state) : state :=
  {| score := score s; showScore := x; spellingAnswer := spellingAnswer s;
     isProcessing := isProcessing s; ocrResults := ocrResults s;
     capturedImage := capturedImage s; showLivePreview := showLivePreview
     s; showMultipleChoice := showMultipleChoice s; showSpelling :=
     showSpelling s; isTransitioning := isTransitioning s;
     availableCameras := availableCameras s; currentCameraIndex :=
     currentCameraIndex s; selectedMultipleChoiceAnswer :=
     selectedMultipleChoiceAnswer s; finalSpellingAnswer :=
     finalSpellingAnswer s; pendingTransitions := pendingTransitions s;
     effects := effects s |}.

Definition setSpellingAnswer (x : string) (s : state) : state :=
  {| score := score s; showScore := showScore s; spellingAnswer := x;
     isProcessing := isProcessing s; ocrResults := ocrResults s;
     capturedImage := capturedImage s; showLivePreview := showLivePreview
     s; showMultipleChoice := showMultipleChoice s; showSpelling :=
     showSpelling s; isTransitioning := isTransitioning s;
     availableCameras := availableCameras s; currentCameraIndex :=
     currentCameraIndex s; selectedMultipleChoiceAnswer :=
     selectedMultipleChoiceAnswer s; finalSpellingAnswer :=
     finalSpellingAnswer s; pendingTransitions := pendingTransitions s;
     effects := effects s |}.

Definition setIsProcessing (x : bool) (s : state) : state :=
  {| score := score s; showScore := showScore s; spellingAnswer :=
     spellingAnswer s; isProcessing := x; ocrResults := ocrResults s;
     capturedImage := capturedImage s; showLivePreview := showLivePreview
     s; showMultipleChoice := showMultipleChoice s; showSpelling :=
     showSpelling s; isTransitioning := isTransitioning s;
     availableCameras := availableCameras s; currentCameraIndex :=
     currentCameraIndex s; selectedMultipleChoiceAnswer :=
     selectedMultipleChoiceAnswer s; finalSpellingAnswer :=
     finalSpellingAnswer s; pendingTransitions := pendingTransitions s;
     effects := effects s |}.

Definition setOcrResults (x : list OCRResult) (s : state) : state :=
  {| score := score s; showScore := showScore s; spellingAnswer :=
     spellingAnswer s; isProcessing := isProcessing s; ocrResults := x;
     capturedImage := capturedImage s; showLivePreview := showLivePreview
     s; showMultipleChoice := showMultipleChoice s; showSpelling :=
     showSpelling s; isTransitioning := isTransitioning s;
     availableCameras := availableCameras s; currentCameraIndex :=
     currentCameraIndex s; selectedMultipleChoiceAnswer :=
     selectedMultipleChoiceAnswer s; finalSpellingAnswer :=
     finalSpellingAnswer s; pendingTransitions := pendingTransitions s;
     effects := effects s |}.

Definition setCapturedImage (x : option string) (s : state) : state :=
  {| score := score s; showScore := showScore s; spellingAnswer :=
     spellingAnswer s; isProcessing := isProcessing s; ocrResults :=
     ocrResults s; capturedImage := x; showLivePreview := showLivePreview
     s; showMultipleChoice := showMultipleChoice s; showSpelling :=
     showSpelling s; isTransitioning := isTransitioning s;
     availableCameras := availableCameras s; currentCameraIndex :=
     currentCameraIndex s; selectedMultipleChoiceAnswer :=
     selectedMultipleChoiceAnswer s; finalSpellingAnswer :=
     finalSpellingAnswer s; pendingTransitions := pendingTransitions s;
     effects := effects s |}.

Definition setShowLivePreview (x : bool) (s : state) : state :=
  {| score := score s; showScore := showScore s; spellingAnswer :=
     spellingAnswer s; isProcessing := isProcessing s; ocrResults :=
     ocrResults s; capturedImage := capturedImage s; showLivePreview := x;
     showMultipleChoice := showMultipleChoice s; showSpelling :=
     showSpelling s; isTransitioning := isTransitioning s;
     availableCameras := availableCameras s; currentCameraIndex :=
     currentCameraIndex s; selectedMultipleChoiceAnswer :=
     selectedMultipleChoiceAnswer s; finalSpellingAnswer :=
     finalSpellingAnswer s; pendingTransitions := pendingTransitions s;
     effects := effects s |}.

Definition setShowMultipleChoice (x : bool) (s : state) : state :=
  {| score := score s; showScore := showScore s; spellingAnswer :=
     spellingAnswer s; isProcessing := isProcessing s; ocrResults :=
     ocrResults s; capturedImage := capturedImage s; showLivePreview :=
     showLivePreview s; showMultipleChoice := x; showSpelling :=
     showSpelling s; isTransitioning := isTransitioning s;
     availableCameras := availableCameras s; currentCameraIndex :=
     currentCameraIndex s; selectedMultipleChoiceAnswer :=
     selectedMultipleChoiceAnswer s; finalSpellingAnswer :=
     finalSpellingAnswer s; pendingTransitions := pendingTransitions s;
     effects := effects s |}.

Definition setShowSpelling (x : bool) (s : state) : state :=
  {| score := score s; showScore := showScore s; spellingAnswer :=
     spellingAnswer s; isProcessing := isProcessing s; ocrResults :=
     ocrResults s; capturedImage := capturedImage s; showLivePreview :=
     showLivePreview s; showMultipleChoice := showMultipleChoice s;
     showSpelling := x; isTransitioning := isTransitioning s;
     availableCameras := availableCameras s; currentCameraIndex :=
     currentCameraIndex s; selectedMultipleChoiceAnswer :=
     selectedMultipleChoiceAnswer s; finalSpellingAnswer :=
     finalSpellingAnswer s; pendingTransitions := pendingTransitions s;
     effects := effects s |}.

Definition setIsTransitioning (x : bool) (s : state) : state :=
  {| score := score s; showScore := showScore s; spellingAnswer :=
     spellingAnswer s; isProcessing := isProcessing s; ocrResults :=
     ocrResults s; capturedImage := capturedImage s; showLivePreview :=
     showLivePreview s; showMultipleChoice := showMultipleChoice s;
     showSpelling := showSpelling s; isTransitioning := x;
     availableCameras := availableCameras s; currentCameraIndex :=
     currentCameraIndex s; selectedMultipleChoiceAnswer :=
     selectedMultipleChoiceAnswer s; finalSpellingAnswer :=
     finalSpellingAnswer s; pendingTransitions := pendingTransitions s;
     effects := effects s |}.

Definition setAvailableCameras (x : list MediaDeviceInfo) (s : state) : state :=
  {| score := score s; showScore := showScore s; spellingAnswer :=
     spellingAnswer s; isProcessing := isProcessing s; ocrResults :=
     ocrResults s; capturedImage := capturedImage s; showLivePreview :=
     showLivePreview s; showMultipleChoice := showMultipleChoice s;
     showSpelling := showSpelling s; isTransitioning := isTransitioning s;
     availableCameras := x; currentCameraIndex := currentCameraIndex s;
     selectedMultipleChoiceAnswer := selectedMultipleChoiceAnswer s;
     finalSpellingAnswer := finalSpellingAnswer s; pendingTransitions :=
     pendingTransitions s; effects := effects s |}.

Definition setCurrentCameraIndex (x : nat) (s : state) : state :=
  {| score := score s; showScore := showScore s; spellingAnswer :=
     spellingAnswer s; isProcessing := isProcessing s; ocrResults :=
     ocrResults s; capturedImage := capturedImage s; showLivePreview :=
     showLivePreview s; showMultipleChoice := showMultipleChoice s;
     showSpelling := showSpelling s; isTransitioning := isTransitioning s;
     availableCameras := availableCameras s; currentCameraIndex := x;
     selectedMultipleChoiceAnswer := selectedMultipleChoiceAnswer s;
     finalSpellingAnswer := finalSpellingAnswer s; pendingTransitions :=
     pendingTransitions s; effects := effects s |}.

Definition setSelectedMultipleChoiceAnswer (x : string) (s : state) : state :=
  {| score := score s; showScore := showScore s; spellingAnswer :=
     spellingAnswer s; isProcessing := isProcessing s; ocrResults :=
     ocrResults s; capturedImage := capturedImage s; showLivePreview :=
     showLivePreview s; showMultipleChoice := showMultipleChoice s;
     showSpelling := showSpelling s; isTransitioning := isTransitioning s;
     availableCameras := availableCameras s; currentCameraIndex :=
     currentCameraIndex s; selectedMultipleChoiceAnswer := x;
     finalSpellingAnswer := finalSpellingAnswer s; pendingTransitions :=
     pendingTransitions s; effects := effects s |}.

Definition setFinalSpellingAnswer (x : string) (s : state) : state :=
  {| score := score s; showScore := showScore s; spellingAnswer :=
     spellingAnswer s; isProcessing := isProcessing s; ocrResults :=
     ocrResults s; capturedImage := capturedImage s; showLivePreview :=
     showLivePreview s; showMultipleChoice := showMultipleChoice s;
     showSpelling := showSpelling s; isTransitioning := isTransitioning s;
     availableCameras := availableCameras s; currentCameraIndex :=
     currentCameraIndex s; selectedMultipleChoiceAnswer :=
     selectedMultipleChoiceAnswer s; finalSpellingAnswer := x;
     pendingTransitions := pendingTransitions s; effects := effects s |}.

Definition set_pendingTransitions (x : nat) (s : state) : state :=
  {| score := score s; showScore := showScore s; spellingAnswer :=
     spellingAnswer s; isProcessing := isProcessing s; ocrResults :=
     ocrResults s; capturedImage := capturedImage s; showLivePreview :=
     showLivePreview s; showMultipleChoice := showMultipleChoice s;
     showSpelling := showSpelling s; isTransitioning := isTransitioning s;
     availableCameras := availableCameras s; currentCameraIndex :=
     currentCameraIndex s; selectedMultipleChoiceAnswer :=
     selectedMultipleChoiceAnswer s; finalSpellingAnswer :=
     finalSpellingAnswer s; pendingTransitions := x; effects := effects s |}.

Definition set_effects (x : list effect) (s : state) : state :=
  {| score := score s; showScore := showScore s; spellingAnswer :=
     spellingAnswer s; isProcessing := isProcessing s; ocrResults :=
     ocrResults s; capturedImage := capturedImage s; showLivePreview :=
     showLivePreview s; showMultipleChoice := showMultipleChoice s;
     showSpelling := showSpelling s; isTransitioning := isTransitioning s;
     availableCameras := availableCameras s; currentCameraIndex :=
     currentCameraIndex s; selectedMultipleChoiceAnswer :=
     selectedMultipleChoiceAnswer s; finalSpellingAnswer :=
     finalSpellingAnswer s; pendingTransitions := pendingTransitions s;
     effects := x |}.

(** The modal as first rendered. *)
Definition initial : state :=
  {| score := 0; showScore := false; spellingAnswer := "";
     isProcessing := false; ocrResults := []; capturedImage := None;
     showLivePreview := false; showMultipleChoice := true;
     showSpelling := false; isTransitioning := false;
     availableCameras := []; currentCameraIndex := 0;
     selectedMultipleChoiceAnswer := ""; finalSpellingAnswer := "";
     pendingTransitions := 0; effects := [] |}.

Definition emit (e : effect) (s : state) : state :=
  set_effects (effects s ++ [e]) s.

Definition readText (spoken : string) (s : state) : state :=
  emit (ReadText spoken) s.

Section Page.
Variable pageContent : PageContent.

Definition celebrateCorrectAnswer (s : state) : state :=
  let s := emit Confetti s in
  let s := emit CorrectSound s in
  let congratsText :=
    if showSpelling s then "Perfect spelling! Great job!"
    else "Correct answer!" in
  readText congratsText s.

(** [handleMultipleChoiceAnswer]; the two-second timeout it sets is
    counted in [pendingTransitions]. *)
Definition handleMultipleChoiceAnswer (correct : bool) (s : state) : state :=
  let selectedOption :=
    find (fun opt => Bool.eqb (isCorrect opt) correct)
         (options (multipleChoice (quiz_of pageContent))) in
  let s :=
    setSelectedMultipleChoiceAnswer
      match selectedOption with
      | Some opt => option_text opt
      | None => ""
      end s in
  let s :=
    if correct then setScore (score s + 1) (celebrateCorrectAnswer s)
    else readText "That's not correct. Try again next time!" s in
  let s := setIsTransitioning true s in
  set_pendingTransitions (pendingTransitions s + 1) s.

(** The [onClick] of an option button. *)
Definition click_option (opt : QuizOption) (s : state) : state :=
  handleMultipleChoiceAnswer (isCorrect opt)
    (setSelectedMultipleChoiceAnswer (option_text opt) s).

(** The timeout of [handleMultipleChoiceAnswer] fires. *)
Definition transition (s : state) : state :=
  match pendingTransitions s with
  | O => s
  | S n =>
      let s := set_pendingTransitions n s in
      let s := setShowMultipleChoice false s in
      let s := setShowSpelling true s in
      setIsTransitioning false s
  end.

Definition handleSpellingSubmit (s : state) : state :=
  let s := setFinalSpellingAnswer (spellingAnswer s) s in
  let target := word (spelling (quiz_of pageContent)) in
  let correct := toLowerCase (spellingAnswer s) =? toLowerCase target in
  let s :=
    if correct then setScore (score s + 1) (celebrateCorrectAnswer s)
    else readText ("Not quite right. The correct spelling was " ++ target) s in
  setShowScore true s.

(** What the camera and the two engines answer. *)
Record camera_env : Type := {
  webcam : bool;                           (* webcamRef.current *)
  screenshot : option string;              (* getScreenshot() *)
  tesseract_reads : res (string * number); (* worker.recognize *)
  geminiKey : string;                      (* GeminiService.getApiKey() *)
  gemini_reads : res (string * number)     (* GeminiService.recognizeText *)
}.

Definition processWithTesseract (e : camera_env) (imageSrc : string)
  (s : state) : state * res OCRResult :=
  let s := emit (Recognize tesseract imageSrc) s in
  match tesseract_reads e with
  | Ok (read, conf) =>
      (s, Ok {| ocr_text := trim read; confidence := hundredth conf;
                method := tesseract |})
  | Throw ex => (s, Throw ex)
  end.

Definition processWithGemini (e : camera_env) (imageSrc : string)
  (s : state) : state * res OCRResult :=
  if geminiKey e =? "" then (s, Throw (Error "Gemini API key not configured"))
  else
    let s := emit (Recognize gemini imageSrc) s in
    match gemini_reads e with
    | Ok (read, conf) =>
        (s, Ok {| ocr_text := read; confidence := conf; method := gemini |})
    | Throw ex => (s, Throw ex)
    end.

(** The part of [captureImage] between the first recognition and
    [setOcrResults]: the results to show and the accepted one. *)
Definition recognise (e : camera_env) (imageSrc : string) (s : state)
  : state * res (list OCRResult * option OCRResult) :=
  match processWithTesseract e imageSrc s with
  | (s, Throw ex) => (s, Throw ex)
  | (s, Ok tesseractResult) =>
      let targetWord := word (spelling (quiz_of pageContent)) in
      if reads_word (ocr_text tesseractResult) targetWord then
        (s, Ok ([tesseractResult], Some tesseractResult))
      else if negb (geminiKey e =? "") then
        match processWithGemini e imageSrc s with
        | (s, Ok geminiResult) =>
            (s, Ok ([tesseractResult; geminiResult],
                    if reads_word (ocr_text geminiResult) targetWord
                    then Some geminiResult else None))
        | (s, Throw _) =>
            (s, Ok ([tesseractResult;
                     {| ocr_text := "Gemini API Error"; confidence := zero;
                        method := gemini |}], None))
        end
      else
        (s, Ok ([tesseractResult;
                 {| ocr_text := "Gemini API key not configured";
                    confidence := zero; method := gemini |}], None))
  end.

Definition captureImage (e : camera_env) (s : state) : state :=
  if negb (webcam e) then s
  else
    let s := setIsProcessing true s in
    let s := setOcrResults [] s in
    match screenshot e with
    | None => setIsProcessing false s
    | Some imageSrc =>
        if imageSrc =? "" then setIsProcessing false s
        else
          let s := setShowLivePreview false s in
          let s := setCapturedImage (Some imageSrc) s in
          let s :=
            match recognise e imageSrc s with
            | (s, Ok (results, finalResult)) =>
                let s := setOcrResults results s in
                match finalResult with
                | Some _ =>
                    let s := celebrateCorrectAnswer s in
                    let s := setScore (score s + 1) s in
                    let s := setShowScore true s in
                    readText "Great job! Now let's continue the story" s
                | None =>
                    let s :=
                      readText
                        ("You tried but your spelling is not correct. The word was "
                           ++ dquote ++ word (spelling (quiz_of pageContent))
                           ++ dquote
                           ++ ". Please, read the story and try again.") s in
                    setShowScore true s
                end
            | (s, Throw _) =>
                let s :=
                  readText
                    "Sorry, I couldn't read your spelling clearly. Please try again or type your answer."
                    s in
                setOcrResults
                  [{| ocr_text := "Processing Error"; confidence := zero;
                      method := tesseract |}] s
            end in
          setIsProcessing false s
    end.

Definition switchCamera (s : state) : state :=
  if (length (availableCameras s) <=? 1)%nat then s
  else
    let nextIndex :=
      (currentCameraIndex s + 1) mod length (availableCameras s) in
    let s := setCurrentCameraIndex nextIndex s in
    let s := setCapturedImage None s in
    let s := setOcrResults [] s in
    setIsProcessing false s.

Definition getCurrentCameraConstraints (s : state) : camera_choice :=
  match nth_error (availableCameras s) (currentCameraIndex s) with
  | Some camera => ExactDevice (deviceId camera)
  | None => FacingUser
  end.

Definition handleContinue (s : state) : state :=
  let q := quiz_of pageContent in
  let quizAnswer :=
    {| pageTitle := title pageContent;
       multipleChoiceQuestion := question (multipleChoice q);
       multipleChoiceAnswer := selectedMultipleChoiceAnswer s;
       spellingWord := word (spelling q);
       spellingAnswer_recorded :=
         if finalSpellingAnswer s =? "" then spellingAnswer s
         else finalSpellingAnswer s;
       answer_isCorrect := (score s =? 2)%nat |} in
  let s := emit (AddQuizAnswer quizAnswer) s in
  let s := if (score s =? 2)%nat then emit NextPage s else s in
  emit OnClose s.

End Page.
End Numbers.

(** [c] is one of a to z. *)
Definition is_letter (c : ascii) : bool :=
  let n := nat_of_ascii c in (97 <=? n)%nat && (n <=? 122)%nat.

Fixpoint all_letters (s : string) : bool :=
  match s with
  | EmptyString => true
  | String c rest => is_letter c && all_letters rest
  end.

(** [switchCamera], [n] times. *)
Fixpoint switch_times {number : Type} (n : nat) (s : state number)
  : state number :=
  match n with
  | O => s
  | S k => switchCamera (switch_times k s)
  end.

(** One pass through the quiz by the keyboard: an option is clicked, the
    spelling step appears, an answer is typed and submitted, and the
    reader continues. *)
Definition played `{Runtime} {number : Type} (pageContent : PageContent)
  (opt : QuizOption) (typed : string) (s : state number) : state number :=
  let s := click_option pageContent opt s in
  let s := transition s in
  let s := setSpellingAnswer typed s in
  let s := handleSpellingSubmit pageContent s in
  handleContinue pageContent s.

(** The answers handed to [addQuizAnswer]. *)
Definition recorded_answers {number : Type} (s : state number)
  : list QuizAnswer :=
  flat_map (fun e => match e with
                     | AddQuizAnswer a => [a]
                     | _ => []
                     end) (effects s).

(** The number of [NextPage] calls among the effects. *)
Definition next_pages {number : Type} (s : state number) : nat :=
  length (filter (fun e => match e with NextPage => true | _ => false end)
                 (effects s)).

(** The engines consulted, in order. *)
Definition consulted {number : Type} (s : state number) : list ocr_method :=
  flat_map (fun e => match e with
                     | Recognize m _ => [m]
                     | _ => []
                     end) (effects s).

End Quiz.

(* ================================================================== *)
(** * The specification's words: substring, letter case, first piece *)
(* ================================================================== *)

Module Reading.
Import Js Catalog.

(** [sub] is a substring of [s]. *)
Definition occurs (sub s : string) : Prop :=
  exists before after_ : string, s = (before ++ sub ++ after_)%string.

(** The capital letters of Basic Latin beside their small forms. *)
Definition letter_pairs : list (ascii * ascii) :=
  combine (list_ascii_of_string "ABCDEFGHIJKLMNOPQRSTUVWXYZ")
          (list_ascii_of_string "abcdefghijklmnopqrstuvwxyz").

(** The same character, or the two forms of one letter. *)
Definition same_letter (c d : ascii) : Prop :=
  c = d \/ In (c, d) letter_pairs \/ In (d, c) letter_pairs.

Definition paired (c d : ascii) : bool :=
  existsb (fun p => Ascii.eqb (fst p) c && Ascii.eqb (snd p) d) letter_pairs.

Definition same_letterb (c d : ascii) : bool :=
  Ascii.eqb c d || paired c d || paired d c.

(** The 256 characters of the type [ascii]. *)
Definition every_ascii : list ascii := map ascii_of_nat (seq 0 256).

(** Equal texts, the case of the letters A to Z ignored. *)
Inductive same_text : string -> string -> Prop :=
  | same_empty : same_text "" ""
  | same_next (c d : ascii) (s t : string) :
      same_letter c d -> same_text s t ->
      same_text (String c s) (String d t).

(** [needle] is a substring of [text], the case of the letters A to Z
    ignored. *)
Definition occurs_ignoring_case (needle text : string) : Prop :=
  exists (before found after_ : string),
    text = (before ++ found ++ after_)%string /\ same_text found needle.

(** The texts of a book a recommendation looks at: title, description,
    subject and author. *)
Definition recommendation_texts (book : Book) : list string :=
  title book
  :: match description book with
     | Some d => [d]
     | None => []
     end
  ++ [subject book; author book].

(** The texts of a book a search looks at: title, description and
    author. *)
Definition search_texts (book : Book) : list string :=
  title book
  :: match description book with
     | Some d => [d]
     | None => []
     end
  ++ [author book].

(** Some text of [texts] holds the lower-cased [needle] once it is
    lower-cased itself. *)
Definition lowered_in `{Runtime} (needle : string) (texts : list string)
  : Prop :=
  exists field, In field texts
                /\ occurs (toLowerCase needle) (toLowerCase field).

(** Some text of [texts] holds [needle], the case of the letters A to Z
    ignored. *)
Definition ignoring_case_in (needle : string) (texts : list string) : Prop :=
  exists field, In field texts /\ occurs_ignoring_case needle field.

(** [pieces] are the pieces of [s] between its single spaces. *)
Definition cut_at_spaces (s : string) (pieces : list string) : Prop :=
  pieces <> []
  /\ String.concat " " pieces = s
  /\ Forall (fun piece => ~ occurs " " piece) pieces.

(** [x] is the first element of [l] that satisfies [P]. *)
Definition first_such {A} (P : A -> Prop) (l : list A) (x : A) : Prop :=
  exists before after_, l = before ++ x :: after_
                        /\ Forall (fun y => ~ P y) before /\ P x.

End Reading.

(* ================================================================== *)
(** * Vocabulary for the properties below *)
(* ================================================================== *)

Module Observations.
Import Js Catalog Normalizer World Dispatcher Media.

(** The names [executeToolCall] has a [case] for. *)
Definition known_actions : list string :=
  [ "filter_books_by_subject"; "filter_books_by_difficulty"; "search_books";
    "filter_books_by_age"; "recommend_books" ].

(** [{ selectedDifficulty: d }]. *)
Definition difficulty_criteria (d : value) : FilterCriteria :=
  {| searchTerm := None; selectedSubject := None;
     selectedDifficulty := Some d; ageRange := None |}.

(** [{ searchTerm: t }]. *)
Definition search_criteria (t : value) : FilterCriteria :=
  {| searchTerm := Some t; selectedSubject := None;
     selectedDifficulty := None; ageRange := None |}.


(** The test of the [search_books] filter on a text term. *)
Definition found_by_search `{Runtime} (term : string) (book : Book) : bool :=
  includes (toLowerCase (title book)) (toLowerCase term)
  || match description book with
     | Some d => includes (toLowerCase d) (toLowerCase term)
     | None => false
     end
  || includes (toLowerCase (author book)) (toLowerCase term).

(** The words [tryManualToolCall] listens for. *)
Definition manual_keywords : list string :=
  [ "story"; "stories"; "science"; "math"; "animal"; "rabbit"; "easy";
    "beginner" ].

(** A value that is not a plain object. *)
Definition not_object (v : value) : bool :=
  match v with
  | VObj _ => false
  | _ => true
  end.

(** The slots of a participant hold tracks of their own kind. *)
Definition well_kinded (p : participant) : Prop :=
  (forall t, track_of (video_slot p) = Some t -> kind t = Video)
  /\ (forall t, track_of (audio_slot p) = Some t -> kind t = Audio).

End Observations.

(* ================================================================== *)
(** * Further concrete cases *)
(* ================================================================== *)

Module Cases.
Import Js Catalog Normalizer World Dispatcher Media Lifecycle Examples.
Import Panel Quiz.

(** No persona id is configured. *)
Definition env_no_persona : env :=
  {| apiKey := "key"; replicaId := "r-1"; personaId := "";
     daily_loaded := true;
     create_response := HttpOk (Ok conv);
     end_response := HttpOk (Ok tt);
     join_result := Ok tt;
     setLocalVideo_result := Ok tt;
     leave_result := Ok tt |}.

(** The transport refuses to leave. *)
Definition env_leave_fails : env :=
  {| apiKey := "key"; replicaId := "r-1"; personaId := "p-1";
     daily_loaded := true;
     create_response := HttpOk (Ok conv);
     end_response := HttpOk (Ok tt);
     join_result := Ok tt;
     setLocalVideo_result := Ok tt;
     leave_result := Throw (Error "not in a meeting") |}.


(** An event whose [data] has a [null] entry in [tool_calls], and a
    well-formed call under [payload]. *)
Definition null_entry_event : value :=
  VObj [("data", VObj [("tool_calls", VArr [VNull])]);
        ("payload", shape_direct)].

(** The joined session after a completed teardown. *)
Definition stopped : world := cleanupConversation env_ok joined.

(** The first page of [storyContent]. *)
Definition first_page : PageContent :=
  {| Quiz.title := "Meet Hoppy the Rabbit";
     text := "Once upon a time in the magical forest of Whisperwood, there lived a little rabbit named Hoppy. Hoppy loved to explore and make new friends.";
     quiz :=
       Some {| multipleChoice :=
                 {| question := "What is the name of the little rabbit?";
                    options :=
                      [ {| option_text := "Hoppy"; isCorrect := true |};
                        {| option_text := "Bunny"; isCorrect := false |};
                        {| option_text := "Fluffy"; isCorrect := false |} ] |};
               spelling :=
                 {| word := "rabbit";
                    hint := "This furry animal hops around" |} |} |}.

(** A page that brings no quiz of its own. *)
Definition bare_page : PageContent :=
  {| Quiz.title := "Goodbye";
     text := "All of Hoppy's friends waved goodbye.";
     quiz := None |}.

(** A page without a quiz whose first pieces hold accented letters. *)
Definition accent_page : PageContent :=
  {| Quiz.title := "Encore";
     text := "déjà vu story time";
     quiz := None |}.

(** A page whose word to spell starts with an accented letter. *)
Definition ecole_page : PageContent :=
  {| Quiz.title := "School";
     text := "Hoppy goes to school.";
     quiz :=
       Some {| multipleChoice :=
                 {| question := "Where does Hoppy go?";
                    options :=
                      [ {| option_text := "To school"; isCorrect := true |};
                        {| option_text := "To the sea"; isCorrect := false |} ] |};
               spelling :=
                 {| word := "école"; hint := "The French word for school" |} |} |}.

(** A shelf with one book whose title starts with an accented letter. *)
Definition french_shelf : list Book :=
  [ {| Catalog.title := "école des fées"; author := "K. Durand";
       subject := "STORY"; difficulty_level := "beginner";
       target_age_min := 5; target_age_max := 8;
       description := None |};
    {| Catalog.title := "Counting Stars"; author := "C. Okoro";
       subject := "MATHS"; difficulty_level := "beginner";
       target_age_min := 4; target_age_max := 9;
       description := None |} ].

Definition two_cameras : list MediaDeviceInfo :=
  [ {| deviceId := "cam-front"; label := "Front" |};
    {| deviceId := "cam-back"; label := "Back" |} ].

(** The spelling step with two cameras found. *)
Definition at_spelling : Quiz.state Z :=
  setAvailableCameras two_cameras
    (setShowSpelling true (setShowMultipleChoice false (Quiz.initial Z))).

(** Tesseract misreads the word, Gemini reads it. *)
Definition second_engine_reads : camera_env Z :=
  {| webcam := true;
     screenshot := Some "data:image/jpeg;base64,AAAA";
     tesseract_reads := Ok ("  rabdit ", 61%Z);
     geminiKey := "g-key";
     gemini_reads := Ok ("RABBIT!", 1%Z) |}.

End Cases.

(* ================================================================== *)
(** * Properties of the normalizer *)
(* ================================================================== *)

Section NormalizerFacts.
Import Js Normalizer.
Context `{Runtime}.

Lemma size_pos (v : value) : 1 <= size v.
Proof. destruct v; simpl; lia. Qed.

Lemma size_assoc (k : string) (kvs : list (string * value)) :
  truthy (assoc k kvs) = true ->
  size (assoc k kvs) < S (list_sum (map (fun kv => S (size (snd kv))) kvs)).
Proof.
  induction kvs as [|[k' v] rest IH]; simpl; intros Ht.
  - discriminate.
  - destruct (k' =? k)%string.
    + lia.
    + specialize (IH Ht). lia.
Qed.

Lemma size_prop (v : value) (k : string) :
  truthy (prop v k) = true -> size (prop v k) < size v.
Proof.
  destruct v; simpl; try discriminate.
  apply size_assoc.
Qed.

Lemma size_first (v : value) :
  nonempty v = true -> size (first v) < size v.
Proof.
  destruct v as [| | | | |[|x vs]|]; simpl; try discriminate.
  intros _. lia.
Qed.

Lemma conversation_event_ext (r1 r2 : value -> res (option toolcall))
  (data : value) :
  (forall d, size d < size data -> r1 d = r2 d) ->
  conversation_event r1 data = conversation_event r2 data.
Proof.
  intros Hr. unfold conversation_event.
  destruct (_ || _ || _); [|reflexivity].
  destruct (truthy (prop data "properties")) eqn:Hp; [|reflexivity].
  rewrite (Hr _ (size_prop _ _ Hp)). reflexivity.
Qed.

Lemma choices_response_ext (r1 r2 : value -> res (option toolcall))
  (data : value) :
  (forall d, size d < size data -> r1 d = r2 d) ->
  choices_response r1 data = choices_response r2 data.
Proof.
  intros Hr. unfold choices_response.
  destruct (truthy (prop data "choices")) eqn:Hc; [|reflexivity].
  destruct (isArray (prop data "choices")); [|reflexivity].
  destruct (nonempty (prop data "choices")) eqn:Hn; [|reflexivity].
  cbn [andb].
  unfold get.
  destruct (nullish (first (prop data "choices"))); [reflexivity|].
  destruct (truthy (prop (first (prop data "choices")) "message")) eqn:Hm;
    [|reflexivity].
  destruct (truthy (prop (prop (first (prop data "choices")) "message")
                         "tool_calls")) eqn:Ht; [|reflexivity].
  cbn [andb].
  rewrite Hr; [reflexivity|].
  pose proof (size_prop _ _ Hc).
  pose proof (size_first _ Hn).
  pose proof (size_prop _ _ Hm).
  pose proof (size_prop _ _ Ht).
  simpl. lia.
Qed.

Lemma extract_body_ext (r1 r2 : value -> res (option toolcall))
  (data : value) :
  (forall d, size d < size data -> r1 d = r2 d) ->
  extract_body r1 data = extract_body r2 data.
Proof.
  intros Hr. unfold extract_body, strategies.
  destruct (negb (truthy data)); [reflexivity|].
  cbn [run].
  rewrite (conversation_event_ext r1 r2 data Hr).
  rewrite (choices_response_ext r1 r2 data Hr).
  reflexivity.
Qed.

(** Any fuel from [size data] upwards gives the same result. *)
Lemma extract_fuel_stable (n m : nat) (data : value) :
  size data <= n -> size data <= m ->
  extract_fuel n data = extract_fuel m data.
Proof.
  revert m data.
  induction n as [|n IH]; intros m data Hn Hm.
  - pose proof (size_pos data). lia.
  - destruct m as [|m].
    + pose proof (size_pos data). lia.
    + cbn [extract_fuel]. apply extract_body_ext.
      intros d Hd. apply IH; lia.
Qed.

(** The model satisfies the recursive equation of the source function. *)
Lemma extractToolCallFromData_unfold (data : value) :
  extractToolCallFromData data = extract_body extractToolCallFromData data.
Proof.
  unfold extractToolCallFromData at 1.
  destruct (size data) as [|n] eqn:Hs.
  - pose proof (size_pos data). lia.
  - cbn [extract_fuel]. apply extract_body_ext.
    intros d Hd. unfold extractToolCallFromData.
    apply extract_fuel_stable; lia.
Qed.

(** A falsy payload yields nothing. *)
Lemma extract_falsy (data : value) :
  truthy data = false -> extractToolCallFromData data = Ok None.
Proof.
  intros Hf. rewrite extractToolCallFromData_unfold.
  unfold extract_body. rewrite Hf. reflexivity.
Qed.














End NormalizerFacts.

Section NormalizerShapes.
Import Js Normalizer.




End NormalizerShapes.

(* ================================================================== *)
(** * Substrings and letter case *)
(* ================================================================== *)

Section TextFacts.
Import Js Catalog Reading.

Lemma append_assoc (a b c : string) :
  ((a ++ b) ++ c = a ++ (b ++ c))%string.
Proof. induction a as [|x a IH]; cbn; [reflexivity|]. now rewrite IH. Qed.

Lemma append_empty_r (a : string) : (a ++ "")%string = a.
Proof. induction a as [|x a IH]; cbn; congruence. Qed.

Lemma prefix_occurs (p s : string) :
  prefix p s = true <-> exists rest, s = (p ++ rest)%string.
Proof.
  revert s. induction p as [|c p IH]; intros s.
  - split; [intros _; exists s; reflexivity|].
    intros _. destruct s; reflexivity.
  - destruct s as [|d s]; cbn [prefix].
    + split; [discriminate|]. intros [rest Hrest]. discriminate.
    + destruct (ascii_dec c d) as [->|Hne].
      * rewrite IH. split; intros [rest Hrest]; exists rest.
        -- cbn. rewrite <- Hrest. reflexivity.
        -- cbn in Hrest. injection Hrest as ->. reflexivity.
      * split; [discriminate|]. intros [rest Hrest]. cbn in Hrest.
        injection Hrest as -> _. elim Hne. reflexivity.
Qed.

(** [includes] decides the substring relation. *)
Lemma includes_occurs (s sub : string) :
  includes s sub = true <-> occurs sub s.
Proof.
  unfold occurs. induction s as [|c s IH]; cbn [includes].
  - rewrite orb_false_r, prefix_occurs. split.
    + intros [rest Hrest]. exists ""%string, rest. exact Hrest.
    + intros (before & after_ & Heq).
      destruct before as [|x before]; [|discriminate].
      exists after_. exact Heq.
  - rewrite orb_true_iff, prefix_occurs, IH. split.
    + intros [[rest Hrest]|(before & after_ & Heq)].
      * exists ""%string, rest. exact Hrest.
      * exists (String c before), after_. cbn. rewrite Heq. reflexivity.
    + intros (before & after_ & Heq). destruct before as [|x before].
      * left. exists after_. exact Heq.
      * right. cbn in Heq. injection Heq as -> ->.
        exists before, after_. reflexivity.
Qed.

Lemma includes_empty (s : string) : includes s "" = true.
Proof. destruct s; reflexivity. Qed.

Lemma every_ascii_complete (c : ascii) : In c every_ascii.
Proof.
  unfold every_ascii. rewrite <- (ascii_nat_embedding c).
  apply in_map, in_seq. pose proof (nat_ascii_bounded c). lia.
Qed.

Lemma same_letterb_iff (c d : ascii) :
  same_letterb c d = true <-> same_letter c d.
Proof.
  assert (Hpaired : forall x y, paired x y = true <-> In (x, y) letter_pairs).
  { intros x y. unfold paired. rewrite existsb_exists. split.
    - intros ([a b] & Hin & Heq). cbn [fst snd] in Heq.
      apply andb_true_iff in Heq as [Ha Hb].
      apply Ascii.eqb_eq in Ha, Hb. subst. exact Hin.
    - intros Hin. exists (x, y). split; [exact Hin|].
      cbn [fst snd]. rewrite !Ascii.eqb_refl. reflexivity. }
  unfold same_letterb, same_letter.
  rewrite !orb_true_iff, Ascii.eqb_eq, !Hpaired. tauto.
Qed.

(** Two characters have the same lower-case form exactly when they are the
    same letter. *)
Lemma lower_ascii_same (c d : ascii) :
  lower_ascii c = lower_ascii d <-> same_letter c d.
Proof.
  rewrite <- same_letterb_iff, <- Ascii.eqb_eq.
  assert (Hall :
            forallb (fun x =>
              forallb (fun y =>
                Bool.eqb (Ascii.eqb (lower_ascii x) (lower_ascii y))
                         (same_letterb x y)) every_ascii) every_ascii
            = true) by (vm_compute; reflexivity).
  rewrite forallb_forall in Hall.
  specialize (Hall c (every_ascii_complete c)).
  rewrite forallb_forall in Hall.
  specialize (Hall d (every_ascii_complete d)).
  apply eqb_prop in Hall. rewrite Hall. tauto.
Qed.

Lemma ascii_toLowerCase_app (a b : string) :
  ascii_toLowerCase (a ++ b)
  = (ascii_toLowerCase a ++ ascii_toLowerCase b)%string.
Proof. induction a as [|c a IH]; cbn; [reflexivity|]. now rewrite IH. Qed.

Lemma ascii_toLowerCase_split (s a b : string) :
  ascii_toLowerCase s = (a ++ b)%string ->
  exists s1 s2, s = (s1 ++ s2)%string
                /\ ascii_toLowerCase s1 = a /\ ascii_toLowerCase s2 = b.
Proof.
  revert s. induction a as [|x a IH]; intros s Heq.
  - exists ""%string, s. repeat split. exact Heq.
  - destruct s as [|c s]; [discriminate|]. cbn in Heq.
    injection Heq as Hc Hrest.
    destruct (IH s Hrest) as (s1 & s2 & -> & H1 & H2).
    exists (String c s1), s2. cbn. rewrite Hc, H1. repeat split. exact H2.
Qed.

Lemma same_text_lower (s t : string) :
  same_text s t <-> ascii_toLowerCase s = ascii_toLowerCase t.
Proof.
  split.
  - induction 1 as [|c d s t Hcd _ IH]; [reflexivity|]. cbn.
    rewrite (proj2 (lower_ascii_same c d) Hcd), IH. reflexivity.
  - revert t. induction s as [|c s IH]; intros [|d t] Heq;
      try discriminate; [constructor|].
    cbn in Heq. injection Heq as Hc Hrest. constructor.
    + apply lower_ascii_same. exact Hc.
    + exact (IH t Hrest).
Qed.

(** Containment of the folded texts is containment with the case of the
    letters A to Z ignored. *)
Lemma folded_occurs (needle text : string) :
  occurs (ascii_toLowerCase needle) (ascii_toLowerCase text)
  <-> occurs_ignoring_case needle text.
Proof.
  unfold occurs, occurs_ignoring_case. split.
  - intros (before & after_ & Heq).
    destruct (ascii_toLowerCase_split _ _ _ Heq) as (s1 & s23 & -> & _ & H23).
    destruct (ascii_toLowerCase_split _ _ _ H23) as (s2 & s3 & -> & H2 & _).
    exists s1, s2, s3. split; [reflexivity|].
    apply same_text_lower. exact H2.
  - intros (before & found & after_ & -> & Hsame).
    apply same_text_lower in Hsame.
    exists (ascii_toLowerCase before), (ascii_toLowerCase after_).
    rewrite !ascii_toLowerCase_app, Hsame. reflexivity.
Qed.

Lemma filter_all {A} (p : A -> bool) (l : list A) :
  (forall x, In x l -> p x = true) -> filter p l = l.
Proof.
  induction l as [|x l IH]; simpl; intros Hp; [reflexivity|].
  rewrite (Hp x (or_introl eq_refl)). f_equal. apply IH.
  intros y Hy. apply Hp. right. exact Hy.
Qed.

Lemma filter_none {A} (p : A -> bool) (l : list A) :
  (forall x, In x l -> p x = false) -> filter p l = [].
Proof.
  induction l as [|x l IH]; simpl; intros Hp; [reflexivity|].
  rewrite (Hp x (or_introl eq_refl)). apply IH.
  intros y Hy. apply Hp. right. exact Hy.
Qed.

(** Two predicates that agree on the elements of a list filter it
    alike. *)
Lemma filter_agree {A} (p q : A -> bool) (l : list A) :
  (forall x, In x l -> (p x = true <-> q x = true)) ->
  filter p l = filter q l.
Proof.
  induction l as [|x l IH]; cbn [filter]; intros Hpq; [reflexivity|].
  rewrite (IH (fun y Hy => Hpq y (or_intror Hy))).
  pose proof (Hpq x (or_introl eq_refl)) as Hx.
  destruct (p x), (q x); try reflexivity.
  - destruct Hx as [Hx _]. discriminate (Hx eq_refl).
  - destruct Hx as [_ Hx]. discriminate (Hx eq_refl).
Qed.

Context `{Runtime}.

Lemma toLowerCase_empty : toLowerCase "" = ""%string.
Proof. exact (toLowerCase_ascii "" eq_refl). Qed.

Lemma lowered_includes (needle : string) (texts : list string) :
  existsb (fun field => includes (toLowerCase field) (toLowerCase needle))
          texts = true
  <-> lowered_in needle texts.
Proof.
  unfold lowered_in. rewrite existsb_exists.
  split; intros (field & Hin & Hfound); exists field; (split; [exact Hin|]);
    apply includes_occurs; exact Hfound.
Qed.

(** The predicate of [getRecommendedBooks] decides whether one of the
    four texts of the book holds the preference, both lower-cased. *)
Lemma recommends_reading (p : string) (book : Book) :
  recommends (toLowerCase p) book = true
  <-> lowered_in p (recommendation_texts book).
Proof.
  rewrite <- lowered_includes.
  unfold recommends, recommendation_texts.
  destruct (description book); cbn [existsb app];
    rewrite ?orb_false_r, ?orb_assoc; tauto.
Qed.

(** On ASCII text the lower-cased containment ignores the case of the
    letters A to Z and nothing else. *)
Lemma lowered_ignoring_case (needle : string) (texts : list string) :
  ascii_text needle = true ->
  forallb ascii_text texts = true ->
  (lowered_in needle texts <-> ignoring_case_in needle texts).
Proof.
  intros Hneedle Htexts. unfold lowered_in, ignoring_case_in.
  rewrite forallb_forall in Htexts.
  split; intros (field & Hin & Hfound); exists field; (split; [exact Hin|]).
  - apply folded_occurs.
    rewrite <- (toLowerCase_ascii needle Hneedle),
      <- (toLowerCase_ascii field (Htexts field Hin)).
    exact Hfound.
  - rewrite (toLowerCase_ascii needle Hneedle),
      (toLowerCase_ascii field (Htexts field Hin)).
    apply folded_occurs. exact Hfound.
Qed.

End TextFacts.

(* ================================================================== *)
(** * Properties of the dispatcher *)
(* ================================================================== *)

Section DispatcherFacts.
Import Js Catalog Normalizer World Dispatcher.
Context `{Runtime}.
Variable books : list Book.

(** The number the subject filter reports. *)
Lemma subject_count (s : string) (l : list Book) :
  length (filter (subject_matches (VStr s)) l)
  = if s =? "ALL" then length l
    else count_occ string_dec (map subject l) s.
Proof.
  destruct (s =? "ALL") eqn:Hall.
  - rewrite filter_all; [reflexivity|].
    intros b _. unfold subject_matches. simpl. rewrite Hall. reflexivity.
  - induction l as [|b l IH]; simpl; [reflexivity|].
    unfold subject_matches at 1. simpl str_eq. rewrite Hall. simpl orb.
    destruct (string_dec (subject b) s) as [Heq|Hne].
    + rewrite Heq, String.eqb_refl. simpl. rewrite <- Heq at 2.
      rewrite IH. rewrite Heq. reflexivity.
    + destruct (s =? subject b) eqn:Heq.
      * apply String.eqb_eq in Heq. congruence.
      * exact IH.
Qed.

(** What [executeToolCall] does on a subject filter. *)
Lemma executeToolCall_subject (args : value) (s : string) (w : world) :
  get args "subject" = Ok (VStr s) ->
  let tc := {| function_name := VStr "filter_books_by_subject";
               arguments := args |} in
  let text := (ToString (function_name tc) ++ "("
                 ++ JSON_stringify args ++ ")")%string in
  executeToolCall books tc w
  = setConnectionStatus
      ("✅ Showing "
         ++ string_of_nat (length (filter (subject_matches (VStr s)) books))
         ++ " " ++ s ++ " books from our catalog")
      (emit (OnFilterChange (subject_criteria (VStr s)))
         (setToolCallHistory (slice_last4 (toolCallHistory w) ++ [text])
            (setLastToolCall text (emit (ExecuteToolCall tc) w)))).
Proof.
  intros Hget tc text. unfold executeToolCall, dispatch.
  cbn [function_name arguments tc str_eq String.eqb Ascii.eqb Bool.eqb].
  rewrite Hget. reflexivity.
Qed.

(** What [executeToolCall] does on a recommendation request. *)
Lemma executeToolCall_recommend (args : value) (p : string) (w : world) :
  get args "preferences" = Ok (VStr p) ->
  let tc := {| function_name := VStr "recommend_books"; arguments := args |} in
  let text := (ToString (function_name tc) ++ "("
                 ++ JSON_stringify args ++ ")")%string in
  executeToolCall books tc w
  = setConnectionStatus
      ("✅ Found " ++ string_of_nat (length (getRecommendedBooks books p))
         ++ " recommendations")
      (emit (OnBookRecommendation (getRecommendedBooks books p))
         (setToolCallHistory (slice_last4 (toolCallHistory w) ++ [text])
            (setLastToolCall text (emit (ExecuteToolCall tc) w)))).
Proof.
  intros Hget tc text. unfold executeToolCall, dispatch.
  cbn [function_name arguments tc str_eq String.eqb Ascii.eqb Bool.eqb].
  rewrite Hget. reflexivity.
Qed.

(** The callbacks a recommendation request reaches. *)
Lemma recommend_callbacks (args : value) (p : string) (w : world) :
  get args "preferences" = Ok (VStr p) ->
  let w' := executeToolCall books
              {| function_name := VStr "recommend_books";
                 arguments := args |} w in
  recommendations w'
  = recommendations w ++ [getRecommendedBooks books p]
  /\ filter_changes w' = filter_changes w.
Proof.
  intros Hget w'. subst w'.
  rewrite (executeToolCall_recommend args w Hget).
  split.
  - unfold recommendations; simpl trace.
    rewrite !flat_map_app; simpl; rewrite !app_nil_r; reflexivity.
  - unfold filter_changes; simpl trace.
    rewrite !flat_map_app; simpl; rewrite !app_nil_r; reflexivity.
Qed.

(** The recommended books are the first six chosen by any test that
    decides, on the books of the catalog, whether one of the four texts
    holds the preference. *)
Lemma getRecommendedBooks_reading (p : string) (chooses : Book -> bool) :
  (forall b, In b books ->
             (chooses b = true
              <-> Reading.lowered_in p (Reading.recommendation_texts b))) ->
  getRecommendedBooks books p = firstn 6 (filter chooses books).
Proof.
  intros Hchooses. unfold getRecommendedBooks. cbv zeta. f_equal.
  apply filter_agree. intros b Hin.
  rewrite (recommends_reading p b). symmetry. exact (Hchooses b Hin).
Qed.

End DispatcherFacts.

Section DispatcherClaims.
Import Js Catalog Normalizer World Dispatcher Reading Examples Cases.

(** C6.  Dispatching [filter_books_by_subject] with a string [subject]
    calls [onFilterChange] exactly once, with [{ selectedSubject: subject }]
    unchanged, calls no recommendation callback, and reports the number of
    catalog items whose [subject] equals the argument exactly, or the size
    of the catalog for the sentinel [ALL]; with three [SCIENCE] items the
    status reads [Showing 3 SCIENCE books]. *)
Theorem filter_by_subject_dispatch `{Runtime} (books : list Book)
  (args : value) (s : string) (w : world) :
  get args "subject" = Ok (VStr s) ->
  let w' := executeToolCall books
              {| function_name := VStr "filter_books_by_subject";
                 arguments := args |} w in
  let n := if s =? "ALL" then length books
           else count_occ string_dec (map subject books) s in
  filter_changes w' = filter_changes w ++ [subject_criteria (VStr s)]
  /\ recommendations w' = recommendations w
  /\ connectionStatus w'
     = ("✅ Showing " ++ string_of_nat n ++ " " ++ s
          ++ " books from our catalog")%string
  /\ (s = "SCIENCE" ->
      count_occ string_dec (map subject books) "SCIENCE" = 3 ->
      connectionStatus w' = "✅ Showing 3 SCIENCE books from our catalog").
Proof.
  intros Hget w' n. subst w'.
  rewrite (executeToolCall_subject books args w Hget).
  split; [|split; [|split]].
  - unfold filter_changes; simpl trace.
    rewrite !flat_map_app; simpl; rewrite !app_nil_r; reflexivity.
  - unfold recommendations; simpl trace.
    rewrite !flat_map_app; simpl; rewrite !app_nil_r; reflexivity.
  - cbn [connectionStatus setConnectionStatus].
    rewrite subject_count. reflexivity.
  - intros Hs H3. cbn [connectionStatus setConnectionStatus].
    rewrite subject_count. subst s. simpl String.eqb. cbv iota.
    rewrite H3. reflexivity.
Qed.

(** C6, witness: the catalog of ten books, three of them [SCIENCE]. *)
Lemma filter_by_subject_dispatch_witness :
  length catalog = 10
  /\ count_occ string_dec (map subject catalog) "SCIENCE" = 3
  /\ filter_changes
       (@executeToolCall Json.reference catalog canonical (initial 0))
     = [subject_criteria (VStr "SCIENCE")]
  /\ connectionStatus
       (@executeToolCall Json.reference catalog canonical (initial 0))
     = "✅ Showing 3 SCIENCE books from our catalog".
Proof.
  split; [reflexivity|]. split; [reflexivity|].
  destruct (@filter_by_subject_dispatch Json.reference catalog
              (VObj [("subject", VStr "SCIENCE")]) "SCIENCE" (initial 0)
              eq_refl) as (Hchanges & _ & _ & Hthree).
  split; [exact Hchanges | exact (Hthree eq_refl eq_refl)].
Defined.

(** C7.  Dispatching [recommend_books] with a preference text passes to
    [onBookRecommendation], and not to [onFilterChange], the first six at
    most, in catalog order, of the items one of whose title, description,
    subject and author holds the text as a substring once both are
    lower-cased; on ASCII text that is containment with the case of the
    letters ignored.  When no item holds [dragon], the callback receives
    the empty list. *)
Theorem recommend_books_dispatch `{Runtime} (books : list Book)
  (args : value) (p : string) (w : world) :
  get args "preferences" = Ok (VStr p) ->
  let w' := executeToolCall books
              {| function_name := VStr "recommend_books";
                 arguments := args |} w in
  (forall chooses : Book -> bool,
      (forall b, In b books ->
                 (chooses b = true
                  <-> lowered_in p (recommendation_texts b))) ->
      recommendations w'
      = recommendations w ++ [firstn 6 (filter chooses books)])
  /\ (exists chooses : Book -> bool,
         forall b, chooses b = true
                   <-> lowered_in p (recommendation_texts b))
  /\ (exists chosen,
         recommendations w' = recommendations w ++ [chosen]
         /\ length chosen <= 6)
  /\ filter_changes w' = filter_changes w
  /\ (ascii_text p = true ->
      forall b, forallb ascii_text (recommendation_texts b) = true ->
                (lowered_in p (recommendation_texts b)
                 <-> ignoring_case_in p (recommendation_texts b)))
  /\ (p = "dragon" ->
      (forall b, In b books ->
                 ~ lowered_in "dragon" (recommendation_texts b)) ->
      recommendations w' = recommendations w ++ [[]]).
Proof.
  intros Hget w'.
  destruct (recommend_callbacks books args w Hget) as [Hcalls Hnone].
  fold w' in Hcalls, Hnone.
  assert (Hreading :
            forall chooses : Book -> bool,
              (forall b, In b books ->
                         (chooses b = true
                          <-> lowered_in p (recommendation_texts b))) ->
              recommendations w'
              = recommendations w ++ [firstn 6 (filter chooses books)]).
  { intros chooses Hchooses. rewrite Hcalls.
    rewrite (@getRecommendedBooks_reading _ books p chooses Hchooses).
    reflexivity. }
  split; [exact Hreading|].
  split; [exists (recommends (toLowerCase p)); apply recommends_reading|].
  split.
  { exists (getRecommendedBooks books p). split; [exact Hcalls|].
    apply firstn_le_length. }
  split; [exact Hnone|].
  split; [intros Hp b Hb; exact (@lowered_ignoring_case _ p _ Hp Hb)|].
  intros -> Hnot.
  rewrite (Hreading (fun _ => false)).
  - rewrite filter_none; [reflexivity|]. intros b _. reflexivity.
  - intros b Hin. split; [discriminate|].
    intros Hfound. elim (Hnot b Hin Hfound).
Qed.

(** C7, witness: no book of the catalog holds [dragon]; and on a shelf
    with a title in small accented letters, the same word in capitals
    selects the book. *)
Lemma recommend_books_dispatch_witness :
  (forall b, In b catalog ->
             ~ @lowered_in Json.reference "dragon" (recommendation_texts b))
  /\ recommendations
       (@executeToolCall Json.reference catalog
          {| function_name := VStr "recommend_books";
             arguments := VObj [("preferences", VStr "dragon")] |}
          (initial 0))
     = [[]]
  /\ recommendations
       (@executeToolCall Json.reference french_shelf
          {| function_name := VStr "recommend_books";
             arguments := VObj [("preferences", VStr "ÉCOLE")] |}
          (initial 0))
     = [firstn 1 french_shelf].
Proof.
  assert (Hnone : forall b, In b catalog ->
                    ~ @lowered_in Json.reference "dragon"
                        (recommendation_texts b)).
  { intros b Hin Hfound.
    apply (@recommends_reading Json.reference "dragon" b) in Hfound.
    simpl in Hin.
    repeat (destruct Hin as [<-|Hin]; [discriminate Hfound|]).
    contradiction. }
  split; [exact Hnone|].
  destruct (@recommend_books_dispatch Json.reference catalog
              (VObj [("preferences", VStr "dragon")]) "dragon" (initial 0)
              eq_refl) as (_ & _ & _ & _ & _ & Hdragon).
  split; [exact (Hdragon eq_refl Hnone)|].
  destruct (@recommend_books_dispatch Json.reference french_shelf
              (VObj [("preferences", VStr "ÉCOLE")]) "ÉCOLE" (initial 0)
              eq_refl) as (Hchosen & _).
  exact (Hchosen (@recommends Json.reference (toLowerCase "ÉCOLE"))
           (fun b _ => @recommends_reading Json.reference "ÉCOLE" b)).
Defined.

(** C10.  With the empty preference text every item matches, so
    [recommend_books] hands the recommendation callback the first
    [min 6 (length books)] items of the catalog, in order. *)
Theorem recommend_empty_preference `{Runtime} (books : list Book)
  (w : world) :
  let w' := executeToolCall books
              {| function_name := VStr "recommend_books";
                 arguments := VObj [("preferences", VStr "")] |} w in
  recommendations w'
  = recommendations w ++ [firstn (Nat.min 6 (length books)) books]
  /\ length (firstn (Nat.min 6 (length books)) books)
     = Nat.min 6 (length books)
  /\ getRecommendedBooks books "" = firstn 6 books.
Proof.
  intros w'.
  assert (Hall : getRecommendedBooks books "" = firstn 6 books).
  { unfold getRecommendedBooks. cbv zeta. rewrite toLowerCase_empty.
    rewrite filter_all; [reflexivity|].
    intros b _. unfold recommends. rewrite includes_empty. reflexivity. }
  assert (Hmin : firstn (Nat.min 6 (length books)) books = firstn 6 books).
  { destruct (Nat.le_ge_cases 6 (length books)) as [Hle|Hge].
    - rewrite Nat.min_l by exact Hle. reflexivity.
    - rewrite Nat.min_r by exact Hge.
      rewrite firstn_all. symmetry. apply firstn_all2. exact Hge. }
  destruct (recommend_callbacks books (VObj [("preferences", VStr "")]) w
              eq_refl) as [Hcalls _].
  split; [|split].
  - subst w'. rewrite Hcalls, Hall, Hmin. reflexivity.
  - rewrite length_firstn. apply Nat.min_l. apply Nat.le_min_r.
  - exact Hall.
Qed.

End DispatcherClaims.

Section EventClaims.
Import Js Catalog Normalizer World Dispatcher Examples.

Lemma executed_track_replica (data : value) (w w1 : world) :
  track_replica data w = Ok w1 -> executed w1 = executed w.
Proof.
  unfold track_replica.
  destruct (is_utterance "replica" data); [|intros [= <-]; reflexivity].
  destruct (includes_any _ _) as [m|e]; [|discriminate]. cbn [bind].
  destruct (includes_any _ _) as [f|e]; [|discriminate]. cbn [bind].
  destruct (negb f && negb m); [intros [= <-]; reflexivity|].
  destruct m; intros [= <-]; reflexivity.
Qed.

Lemma quiet_bind (r : res (option toolcall))
  (k : option toolcall -> res (option toolcall)) :
  quiet r -> quiet (k None) -> quiet (x <- r ;; k x).
Proof.
  intros [->|[e ->]] Hk; cbn [bind]; [exact Hk|].
  right. exists e. reflexivity.
Qed.

Lemma quiet_bind_any {A} (r : res A) (k : A -> res (option toolcall)) :
  (forall x, quiet (k x)) -> quiet (x <- r ;; k x).
Proof.
  intros Hk. destruct r as [x|e]; cbn [bind]; [apply Hk|].
  right. exists e. reflexivity.
Qed.

Lemma quiet_none : quiet (Ok None).
Proof. left. reflexivity. Qed.

Lemma probe_quiet `{Runtime} (guard : bool) (payload : value) :
  quiet (extractToolCallFromData payload) -> quiet (probe None guard payload).
Proof.
  intros Hq. unfold probe. destruct guard; [exact Hq | apply quiet_none].
Qed.

(** When no probed payload yields a call, neither do the five probing
    methods together. *)
Lemma probe_all_unmatched `{Runtime} (event : value) :
  (forall p c, In p (probed event) ->
               extractToolCallFromData p <> Ok (Some c)) ->
  quiet (probe_all event (prop event "data")).
Proof.
  intros Hnone.
  assert (Hcase : forall p, In p (probed event) ->
                            quiet (extractToolCallFromData p)).
  { intros p Hin. destruct (extractToolCallFromData p) as [[c|]|e] eqn:E.
    - exfalso. exact (Hnone p c Hin E).
    - apply quiet_none.
    - right. exists e. reflexivity. }
  unfold probe_all.
  apply quiet_bind; [apply probe_quiet, Hcase; simpl; tauto|].
  apply quiet_bind; [apply probe_quiet, Hcase; simpl; tauto|].
  apply quiet_bind; [apply probe_quiet, Hcase; simpl; tauto|].
  apply quiet_bind; [apply probe_quiet, Hcase; simpl; tauto|].
  destruct (_ && _); [|apply quiet_none].
  apply quiet_bind_any. intros tagged.
  destruct (_ || _); [apply Hcase; simpl; tauto | apply quiet_none].
Qed.

(** C5, counterexample.  The event [{ payload: { function_name, arguments } }]
    matches none of the six strategies and is no user utterance, yet the
    handler also probes [event.payload] and the dispatcher runs. *)
Lemma wrapped_payload_is_dispatched :
  @extractToolCallFromData Json.reference wrapped_event = Ok None
  /\ recognized_user_utterance wrapped_event = false
  /\ executed
       (after (@handleTavusEvent Json.reference catalog wrapped_event
                 (initial 0)) (initial 0))
     = [canonical].
Proof. repeat split; reflexivity. Qed.

(** C5 (amended).  If none of the payloads the handler probes (the event's
    [data], the event itself, its [payload] and its [message]) matches a
    strategy of the normalizer, and the event is not a user utterance with
    speech text, then [executeToolCall] is not invoked for that event. *)
Theorem unmatched_event_not_dispatched `{Runtime} (books : list Book)
  (event : value) (w : world) :
  (forall p c, In p (probed event) ->
               extractToolCallFromData p <> Ok (Some c)) ->
  recognized_user_utterance event = false ->
  executed (after (handleTavusEvent books event w) w) = executed w.
Proof.
  intros Hnone Hutter. unfold handleTavusEvent, get.
  destruct (nullish event); [reflexivity|]. cbn [bind].
  destruct (track_replica (prop event "data") w) as [w1|e] eqn:Htrack;
    [|reflexivity].
  cbn [bind after].
  rewrite <- (executed_track_replica _ _ Htrack).
  unfold process.
  destruct (probe_all_unmatched Hnone) as [->|[e ->]];
    [|reflexivity].
  cbn [bind].
  unfold recognized_user_utterance in Hutter.
  destruct (is_utterance "user" (prop event "data")); [|reflexivity].
  simpl in Hutter. unfold tryManualToolCall.
  destruct (prop (prop (prop event "data") "properties") "speech");
    try discriminate; reflexivity.
Qed.

(** C5, witness: an event that only announces the start of the
    conversation dispatches nothing. *)
Lemma unmatched_event_not_dispatched_witness :
  executed
    (after (@handleTavusEvent Json.reference catalog noise_event joined)
       joined)
  = executed joined.
Proof.
  apply (@unmatched_event_not_dispatched Json.reference catalog noise_event
           joined).
  - intros p c Hin. simpl in Hin.
    destruct Hin as [<-|[<-|[<-|[<-|[]]]]]; discriminate.
  - reflexivity.
Defined.

End EventClaims.

(* ================================================================== *)
(** * Properties of the media binder *)
(* ================================================================== *)

Section MediaClaims.
Import Js Catalog World Media Examples.
Variable books : list Book.
Variable isVolumeOn_captured : bool.

Lemma replicaConnected_display (t : track) (w : world) :
  replicaConnected (displayReplicaVideo isVolumeOn_captured t w) = replicaConnected w.
Proof. unfold displayReplicaVideo. destruct (videoRef w); reflexivity. Qed.

Lemma replicaConnected_audio (t : track) (w : world) :
  replicaConnected (handleReplicaAudio isVolumeOn_captured t w) = replicaConnected w.
Proof.
  unfold handleReplicaAudio. destruct (videoRef w) as [v|]; [|reflexivity].
  destruct (srcObject v); reflexivity.
Qed.

(** One step of the loop: the flag and the signal rise together. *)
Lemma visit_ready (w : world) (has : bool) (entry : string * participant) :
  snd (visit books isVolumeOn_captured (w, has) entry) = has || ready entry
  /\ replicaConnected (fst (visit books isVolumeOn_captured (w, has) entry))
     = if ready entry then true else replicaConnected w.
Proof.
  destruct entry as [id p]. unfold visit, ready. cbn [fst snd].
  destruct (id =? "local"); [cbn; rewrite orb_false_r; auto|].
  cbn [negb andb].
  destruct (playable (video_slot p)), (playable (audio_slot p)); cbn [andb fst snd];
    repeat match goal with
           | |- context [track_of ?s] => destruct (track_of s)
           end;
    rewrite ?replicaConnected_audio, ?replicaConnected_display,
            ?orb_true_r, ?orb_false_r; auto.
Qed.

Lemma fold_visit_ready (ps : list (string * participant)) :
  forall (w : world) (has : bool),
    snd (fold_left (visit books isVolumeOn_captured) ps (w, has)) = has || some_ready ps
    /\ replicaConnected (fst (fold_left (visit books isVolumeOn_captured) ps (w, has)))
       = if some_ready ps then true else replicaConnected w.
Proof.
  induction ps as [|entry ps IH]; intros w has.
  - cbn. rewrite orb_false_r. auto.
  - cbn [fold_left].
    destruct (visit books isVolumeOn_captured (w, has) entry) as [w1 has1] eqn:Hv.
    destruct (visit_ready w has entry) as [Hhas Hconn].
    rewrite Hv in Hhas, Hconn. cbn [fst snd] in Hhas, Hconn.
    destruct (IH w1 has1) as [IHhas IHconn].
    rewrite IHhas, IHconn, Hhas, Hconn.
    change (some_ready (entry :: ps)) with (ready entry || some_ready ps).
    destruct (ready entry), (some_ready ps), has; auto.
Qed.

Lemma visit_idle (w : world) (has : bool) (entry : string * participant) :
  idle entry = true -> visit books isVolumeOn_captured (w, has) entry = (w, has).
Proof.
  destruct entry as [id p]. unfold idle, visit. cbn [fst snd].
  destruct (id =? "local"); [reflexivity|].
  destruct (playable (video_slot p)), (playable (audio_slot p));
    try discriminate; reflexivity.
Qed.

Lemma fold_visit_idle (ps : list (string * participant)) (w : world)
  (has : bool) :
  forallb idle ps = true -> fold_left (visit books isVolumeOn_captured) ps (w, has) = (w, has).
Proof.
  induction ps as [|entry ps IH]; cbn [forallb fold_left]; [reflexivity|].
  intros Hall. apply andb_prop in Hall. destruct Hall as [Hentry Hrest].
  rewrite (visit_idle w has entry Hentry). exact (IH Hrest).
Qed.

End MediaClaims.

Section MediaBinding.
Import Js Catalog World Media Examples.

(** C8, counterexample.  A replica whose video is playable while its audio
    is still loading: the video track is attached to the sink at once. *)
Lemma video_only_is_bound :
  playable (audio_slot video_only) = false
  /\ bound_tracks mounted = []
  /\ bound_tracks
       (updateReplicaVideo catalog true
          [("local", local_participant); ("replica", video_only)] mounted)
     = [video_track].
Proof. repeat split; reflexivity. Qed.

(** C8 (amended).  The replica-connected signal is raised exactly when
    some remote participant has both tracks playable, and nothing is
    attached while no remote track is playable.  Tracks are attached one
    by one: a playable video track is attached although the audio is not
    playable, and a playable audio track joins the stream the sink already
    holds. *)
Theorem media_binding (books : list Book) (isVolumeOn_captured : bool)
  (ps : list (string * participant)) (w : world) :
  callObjectRef w = Some DailyCall ->
  replicaConnected (updateReplicaVideo books isVolumeOn_captured ps w)
  = some_ready ps
  /\ (forallb idle ps = true ->
      bound_tracks (updateReplicaVideo books isVolumeOn_captured ps w)
      = bound_tracks w)
  /\ (forall id p vt v,
        (id =? "local") = false ->
        playable (video_slot p) = true ->
        track_of (video_slot p) = Some vt ->
        playable (audio_slot p) = false ->
        videoRef w = Some v ->
        bound_tracks (updateReplicaVideo books isVolumeOn_captured [(id, p)] w)
        = [vt])
  /\ (forall id p at' v cur,
        (id =? "local") = false ->
        playable (video_slot p) = false ->
        playable (audio_slot p) = true ->
        track_of (audio_slot p) = Some at' ->
        videoRef w = Some v ->
        srcObject v = Some cur ->
        bound_tracks (updateReplicaVideo books isVolumeOn_captured [(id, p)] w)
        = filter is_video cur ++ [at']).
Proof.
  intros Hcall. unfold updateReplicaVideo. rewrite Hcall.
  split; [|split; [|split]].
  - destruct (fold_left (visit books isVolumeOn_captured) ps (w, false))
      as [w' has] eqn:Hfold.
    destruct (fold_visit_ready books isVolumeOn_captured ps w false) as [Hhas Hconn].
    rewrite Hfold in Hhas, Hconn. cbn [fst snd orb] in Hhas, Hconn.
    rewrite Hhas. destruct (some_ready ps); [exact Hconn | reflexivity].
  - intros Hidle. rewrite (fold_visit_idle books isVolumeOn_captured ps w false Hidle).
    reflexivity.
  - intros id p vt v Hid Hvideo Htrack Haudio Hsink.
    cbn [fold_left]. unfold visit. rewrite Hid, Hvideo, Haudio, Htrack.
    cbn [andb]. unfold displayReplicaVideo. rewrite Hsink. reflexivity.
  - intros id p at' v cur Hid Hvideo Haudio Htrack Hsink Hcur.
    cbn [fold_left]. unfold visit. rewrite Hid, Hvideo, Haudio, Htrack.
    cbn [andb]. unfold handleReplicaAudio. rewrite Hsink, Hcur. reflexivity.
Qed.

(** C8, witness: the mounted session and a replica with both tracks
    playable. *)
Lemma media_binding_witness :
  callObjectRef mounted = Some DailyCall
  /\ replicaConnected
       (updateReplicaVideo catalog true
          [("local", local_participant); ("replica", both_ready)] mounted)
     = true.
Proof.
  split; [reflexivity|].
  destruct (@media_binding catalog true
              [("local", local_participant); ("replica", both_ready)]
              mounted eq_refl) as [Hready _].
  exact Hready.
Defined.

End MediaBinding.

(* ================================================================== *)
(** * Properties of the session lifecycle *)
(* ================================================================== *)

Section LifecycleFacts.
Import Js Catalog Normalizer World Lifecycle.

Lemma provider_ends_emit (c : call) (w : world) :
  provider_ends (emit c w)
  = provider_ends w
    ++ match c with ProviderEnd id => [(now w, id)] | _ => [] end.
Proof.
  unfold provider_ends, emit. simpl trace. rewrite flat_map_app. simpl.
  destruct c; simpl; rewrite ?app_nil_r; reflexivity.
Qed.

(** Teardown does not touch the clock, the queue or the history. *)
Lemma cleanup_preserves (e : env) (w : world) :
  now (cleanupConversation e w) = now w
  /\ timers (cleanupConversation e w) = timers w
  /\ toolCallHistory (cleanupConversation e w) = toolCallHistory w
  /\ lastToolCall (cleanupConversation e w) = lastToolCall w
  /\ naturalResponseCount (cleanupConversation e w) = naturalResponseCount w
  /\ restrictedResponseCount (cleanupConversation e w)
     = restrictedResponseCount w.
Proof.
  unfold cleanupConversation, endConversation, clear_video.
  destruct w as [t call id sink ? ? ? ? ? ? ? ? ? ? ? ? ? ?]; cbn.
  destruct call, (leave_result e), id as [[|? ?]|], (apiKey e =? ""),
    (end_response e), sink; cbn; repeat split; reflexivity.
Qed.

(** A start does not touch the history or the counters. *)
Lemma initialize_preserves (e : env) (w : world) :
  toolCallHistory (initializeAIAssistant e w) = toolCallHistory w
  /\ lastToolCall (initializeAIAssistant e w) = lastToolCall w
  /\ naturalResponseCount (initializeAIAssistant e w) = naturalResponseCount w
  /\ restrictedResponseCount (initializeAIAssistant e w)
     = restrictedResponseCount w.
Proof.
  unfold initializeAIAssistant, createLibraryConversation, joinConversation,
    failed.
  destruct (negb (isConfigured e)); [repeat split; reflexivity|].
  destruct (checkLibraryPersona e); [|repeat split; reflexivity].
  destruct (apiKey e =? ""); [repeat split; reflexivity|].
  destruct (create_response e) as [x|d t|[c|x]];
    try (repeat split; reflexivity).
  destruct (negb (daily_loaded e)); [repeat split; reflexivity|].
  destruct (join_result e); [|repeat split; reflexivity].
  destruct (setLocalVideo_result e); repeat split; reflexivity.
Qed.

(** After a successful start the queue holds the three timers; the final
    warning is due at the join instant itself. *)
Lemma timers_armed (e : env) (w : world) (c : TavusConversation) :
  isConfigured e = true ->
  checkLibraryPersona e = Ok tt ->
  create_response e = HttpOk (Ok c) ->
  daily_loaded e = true ->
  join_result e = Ok tt ->
  setLocalVideo_result e = Ok tt ->
  timers (initializeAIAssistant e w)
  = timers w
    ++ [ {| due := (now w + 45000)%Z; action := WrapUp |};
         {| due := (now w + 0)%Z; action := FinalWarning |};
         {| due := (now w + 60000)%Z; action := HardTermination |} ].
Proof.
  intros Hconf Hpersona Hcreate Hdaily Hjoin Hvideo.
  unfold initializeAIAssistant, createLibraryConversation, joinConversation.
  rewrite Hconf, Hpersona. cbn [negb].
  unfold isConfigured in Hconf. apply andb_prop in Hconf.
  destruct Hconf as [Hkey _]. apply negb_true_iff in Hkey. rewrite Hkey.
  rewrite Hcreate, Hdaily, Hjoin, Hvideo. cbn [negb].
  unfold setTimeout. simpl. rewrite <- !app_assoc. reflexivity.
Qed.

(** Once both refs are cleared, the three session timers do nothing. *)
Lemma fire_after_stop (e : env) (a : timer_action) (w : world) :
  callObjectRef w = None ->
  conversationIdRef w = None ->
  a <> RestartInitialize ->
  fire e a w = w.
Proof.
  intros Hcall Hid Ha. destruct a; cbn [fire]; unfold escalate;
    rewrite ?Hcall, ?Hid; try reflexivity.
  contradiction.
Qed.


(** ** The timer queue always drains *)

Lemma earliest_le (l : list timer) (d : Z) :
  earliest l = Some d -> forall tm, In tm l -> (d <= due tm)%Z.
Proof.
  revert d. induction l as [|x l IH]; intros d; cbn [earliest].
  - discriminate.
  - destruct (earliest l) as [d'|] eqn:He.
    + intros [= <-] tm [<-|Hin]; [lia|].
      specialize (IH d' eq_refl tm Hin). lia.
    + intros [= <-] tm [<-|Hin]; [lia|].
      destruct l; [contradiction|]. cbn in He.
      destruct (earliest l); discriminate.
Qed.

Lemma earliest_take (l : list timer) (d : Z) :
  earliest l = Some d -> exists tm rest, take d l = Some (tm, rest).
Proof.
  revert d. induction l as [|x l IH]; intros d; cbn [earliest take].
  - discriminate.
  - destruct (due x =? d)%Z eqn:Hx; [eauto|].
    apply Z.eqb_neq in Hx.
    destruct (earliest l) as [d'|] eqn:He.
    + intros [= Hd].
      assert (d' = d) by lia. subst d'.
      destruct (IH d eq_refl) as (tm & rest & ->). eauto.
    + intros [= Hd]. contradiction.
Qed.

Lemma take_weight (d : Z) (l : list timer) (tm : timer) (rest : list timer) :
  take d l = Some (tm, rest) ->
  list_sum (map weight l) = weight tm + list_sum (map weight rest).
Proof.
  revert rest. induction l as [|x l IH]; intros rest; cbn [take].
  - discriminate.
  - destruct (due x =? d)%Z.
    + intros [= <- <-]. reflexivity.
    + destruct (take d l) as [[y rest']|]; [|discriminate].
      intros [= <- <-]. specialize (IH rest' eq_refl).
      change (list_sum (map weight (x :: l)))
        with (weight x + list_sum (map weight l)).
      change (list_sum (map weight (x :: rest')))
        with (weight x + list_sum (map weight rest')).
      lia.
Qed.

Lemma next_timer_none (t : Z) (l : list timer) :
  next_timer t l = None -> forall tm, In tm l -> (t < due tm)%Z.
Proof.
  unfold next_timer. destruct (earliest l) as [d|] eqn:He.
  - destruct (d <=? t)%Z eqn:Hd.
    + destruct (earliest_take l He) as (tm & rest & ->). discriminate.
    + intros _ tm Hin. apply Z.leb_gt in Hd.
      pose proof (earliest_le l He tm Hin). lia.
  - intros _ tm Hin. destruct l as [|x l]; [contradiction|].
    cbn in He. destruct (earliest l); discriminate.
Qed.

Lemma next_timer_weight (t : Z) (l : list timer) (tm : timer)
  (rest : list timer) :
  next_timer t l = Some (tm, rest) ->
  list_sum (map weight l) = weight tm + list_sum (map weight rest).
Proof.
  unfold next_timer. destruct (earliest l) as [d|]; [|discriminate].
  destruct (d <=? t)%Z; [|discriminate]. apply take_weight.
Qed.

Lemma initialize_weight (e : env) (w : world) :
  list_sum (map weight (timers (initializeAIAssistant e w)))
  <= list_sum (map weight (timers w)) + 3.
Proof.
  assert (Hsame : forall x, timers x = timers w ->
            list_sum (map weight (timers x))
            <= list_sum (map weight (timers w)) + 3).
  { intros x ->. lia. }
  unfold initializeAIAssistant, createLibraryConversation, joinConversation,
    failed.
  destruct (negb (isConfigured e)); [apply Hsame; reflexivity|].
  destruct (checkLibraryPersona e); [|apply Hsame; reflexivity].
  destruct (apiKey e =? ""); [apply Hsame; reflexivity|].
  destruct (create_response e) as [x|d t|[c|x]];
    try (apply Hsame; reflexivity).
  destruct (negb (daily_loaded e)); [apply Hsame; reflexivity|].
  destruct (join_result e); [|apply Hsame; reflexivity].
  destruct (setLocalVideo_result e); [|apply Hsame; reflexivity].
  unfold setTimeout. cbn [timers set_timers setIsConnecting].
  rewrite !map_app, !list_sum_app.
  cbn [timers set_timers setConnectionStatus setIsConnected emit set_trace
       set_callObjectRef set_conversationIdRef setConversation setError
       setIsConnecting].
  cbn [map list_sum weight action]. simpl. lia.
Qed.

(** A firing lowers the total weight of the queue it was taken from. *)
Lemma fire_weight (e : env) (tm : timer) (w : world) :
  list_sum (map weight (timers (fire e (action tm) w)))
  < weight tm + list_sum (map weight (timers w)).
Proof.
  assert (Hsame : forall x, timers x = timers w ->
            list_sum (map weight (timers x))
            < S (list_sum (map weight (timers w)))).
  { intros x ->. lia. }
  unfold weight at 2. destruct (action tm); cbn [fire].
  - apply Hsame. unfold escalate.
    destruct (callObjectRef w), (conversationIdRef w) as [id|];
      try destruct (truthy_id (Some id)); reflexivity.
  - apply Hsame. unfold escalate.
    destruct (callObjectRef w), (conversationIdRef w) as [id|];
      try destruct (truthy_id (Some id)); reflexivity.
  - apply Hsame. destruct (truthy_id (conversationIdRef w)); [|reflexivity].
    destruct (cleanup_preserves e
                (setConnectionStatus "Conversation ended due to time limit" w))
      as (_ & -> & _). reflexivity.
  - pose proof (initialize_weight e w). lia.
Qed.

Lemma run_timers_quiescent (n : nat) (e : env) (t : Z) :
  forall w,
    list_sum (map weight (timers w)) < n ->
    forall tm, In tm (timers (run_timers n e t w)) -> (t < due tm)%Z.
Proof.
  induction n as [|n IH]; intros w Hn; [lia|].
  cbn [run_timers].
  destruct (next_timer t (timers w)) as [[tm rest]|] eqn:Hnext.
  - apply IH.
    pose proof (next_timer_weight t (timers w) Hnext) as Hw.
    pose proof (fire_weight e tm
                  (set_now (Z.max (now w) (due tm)) (set_timers rest w)))
      as Hf.
    cbn [timers set_now set_timers] in Hf. lia.
  - cbn [timers set_now]. exact (next_timer_none t (timers w) Hnext).
Qed.

(** [advance] never runs out of fuel: no timer due at [t] or before is
    left pending. *)
Lemma advance_quiescent (e : env) (t : Z) (w : world) :
  forall tm, In tm (timers (advance e t w)) -> (t < due tm)%Z.
Proof.
  unfold advance, budget. apply run_timers_quiescent. lia.
Qed.

(** ** Teardown in closed form *)

(** A teardown whose collaborators succeed. *)
Lemma cleanup_ok (e : env) (w : world) :
  teardown_succeeds e = true ->
  cleanupConversation e w
  = let w1 := match callObjectRef w with
              | Some _ => set_callObjectRef None
                            (emit TransportDestroy (emit TransportLeave w))
              | None => w
              end in
    let w2 := match conversationIdRef w with
              | Some id => if truthy_id (Some id)
                           then emit (ProviderEnd id) w1 else w1
              | None => w1
              end in
    cleanupConversation_reset w2.
Proof.
  unfold teardown_succeeds. intros Hok.
  apply andb_prop in Hok. destruct Hok as [Hok Hend].
  apply andb_prop in Hok. destruct Hok as [Hkey Hleave].
  apply negb_true_iff in Hkey.
  unfold cleanupConversation, endConversation. rewrite Hkey.
  destruct (leave_result e) as [[]|]; [|discriminate].
  destruct (end_response e) as [| |data]; try discriminate.
  destruct (callObjectRef w);
    cbn [conversationIdRef set_callObjectRef emit set_trace];
    destruct (conversationIdRef w) as [id|]; try reflexivity;
    destruct (truthy_id (Some id)); reflexivity.
Qed.

(** A teardown that finds both refs cleared only resets. *)
Lemma cleanup_idle (e : env) (w : world) :
  callObjectRef w = None ->
  conversationIdRef w = None ->
  cleanupConversation e w = cleanupConversation_reset w.
Proof.
  intros Hcall Hid. unfold cleanupConversation. rewrite Hcall, Hid.
  reflexivity.
Qed.

(** The state the reset leaves. *)
Lemma reset_fields (w : world) :
  trace (cleanupConversation_reset w) = trace w
  /\ callObjectRef (cleanupConversation_reset w) = callObjectRef w
  /\ conversationIdRef (cleanupConversation_reset w) = None
  /\ conversation (cleanupConversation_reset w) = None
  /\ isConnected (cleanupConversation_reset w) = false
  /\ replicaConnected (cleanupConversation_reset w) = false
  /\ connectionStatus (cleanupConversation_reset w) = "Ready to start".
Proof.
  unfold cleanupConversation_reset, clear_video.
  cbn [videoRef set_conversationIdRef setConnectionStatus setReplicaConnected
       setIsConnected setConversation].
  destruct (videoRef w); repeat split; reflexivity.
Qed.

(** Resetting a state that has just been reset changes nothing. *)
Lemma reset_twice (w : world) :
  cleanupConversation_reset (cleanupConversation_reset w)
  = cleanupConversation_reset w.
Proof.
  unfold cleanupConversation_reset, clear_video.
  destruct w as [t call id sink ? ? ? ? ? ? ? ? ? ? ? ? ? ?].
  destruct sink; reflexivity.
Qed.

End LifecycleFacts.

Section LifecycleClaims.
Import Js Catalog Normalizer World Dispatcher Lifecycle Examples.

(** C1, the code at the failing input.  A session joined at time [0] and
    left alone: the urgent final warning leaves at the join instant, the
    wrap-up at [45000], nothing is sent at [55000], and the termination
    ends the conversation at [60000]. *)
Theorem final_warning_sent_at_join :
  timers joined
  = [ {| due := 45000; action := WrapUp |};
      {| due := 0; action := FinalWarning |};
      {| due := 60000; action := HardTermination |} ]
  /\ sent_messages (advance env_ok 0 joined)
     = [(0%Z, instruction "c-1" finalWarningText)]
  /\ sent_messages (advance env_ok 60000 joined)
     = [(0%Z, instruction "c-1" finalWarningText);
        (45000%Z, instruction "c-1" wrapUpText)]
  /\ provider_ends (advance env_ok 59999 joined) = []
  /\ provider_ends (advance env_ok 60000 joined) = [(60000%Z, "c-1")].
Proof. vm_compute. repeat split; reflexivity. Qed.

(** The part of C1 the code does honour: a [stop()] at [30000] leaves the
    wrap-up and termination timers with nothing to do. *)
Lemma stop_silences_timers :
  let stopped := cleanupConversation env_ok (advance env_ok 30000 joined) in
  sent_messages (advance env_ok 60000 stopped) = sent_messages stopped
  /\ provider_ends (advance env_ok 60000 stopped) = [(30000%Z, "c-1")]
  /\ timers (advance env_ok 60000 stopped) = [].
Proof. vm_compute. repeat split; reflexivity. Qed.

(** The timers are never cleared, only disarmed by the two refs: after a
    restart at [20000] the first session's wrap-up reaches the second
    session at [45000] and its termination ends the second session at
    [60000], 39 seconds after it was joined. *)
Lemma stale_timers_reach_next_session :
  let second :=
    advance env_ok 21000 (restartConversation env_ok (advance env_ok 20000 joined)) in
  let later := advance env_ok 60000 second in
  isConnected second = true
  /\ provider_ends second = [(20000%Z, "c-1")]
  /\ sent_messages later
     = sent_messages second ++ [(45000%Z, instruction "c-1" wrapUpText)]
  /\ provider_ends later = [(20000%Z, "c-1"); (60000%Z, "c-1")]
  /\ isConnected later = false.
Proof. vm_compute. repeat split; reflexivity. Qed.

(** C2, counterexample.  From the idle state two calls of [stop()] make no
    provider call at all, not exactly one. *)
Lemma stop_twice_from_idle :
  provider_ends
    (cleanupConversation env_ok (cleanupConversation env_ok (initial 0)))
  = []
  /\ length (provider_ends
               (cleanupConversation env_ok
                  (cleanupConversation env_ok (initial 0)))) <> 1.
Proof. split; [reflexivity | discriminate]. Qed.

(** C2 (amended).  When the transport leave and the provider end of the
    first [stop()] succeed, a second [stop()] changes nothing, whatever the
    collaborators would answer: the session is in the same terminal state
    and no further call is made.  The first call ends the conversation
    exactly once if an id was held, and makes no provider call otherwise. *)
Theorem stop_idempotent (e1 e2 : env) (w : world) :
  teardown_succeeds e1 = true ->
  let stopped := cleanupConversation e1 w in
  cleanupConversation e2 stopped = stopped
  /\ provider_ends stopped
     = provider_ends w
       ++ match conversationIdRef w with
          | Some id => if truthy_id (Some id) then [(now w, id)] else []
          | None => []
          end
  /\ callObjectRef stopped = None
  /\ conversationIdRef stopped = None
  /\ conversation stopped = None
  /\ isConnected stopped = false
  /\ replicaConnected stopped = false
  /\ connectionStatus stopped = "Ready to start".
Proof.
  intros Hok stopped. subst stopped.
  rewrite (cleanup_ok e1 w Hok). cbv zeta.
  match goal with
  | |- context [cleanupConversation_reset ?x] => set (ended := x)
  end.
  destruct (reset_fields ended)
    as (Htrace & Hcall & Hid & Hconv & Hconn & Hrep & Hstatus).
  assert (Hnocall : callObjectRef ended = None).
  { subst ended. destruct (callObjectRef w) eqn:Hc;
      destruct (conversationIdRef w) as [id|];
      try destruct (truthy_id (Some id)); try reflexivity; exact Hc. }
  split; [|split; [|repeat split; congruence]].
  - rewrite cleanup_idle by congruence. apply reset_twice.
  - unfold provider_ends at 1. rewrite Htrace. fold (provider_ends ended).
    subst ended.
    destruct (callObjectRef w), (conversationIdRef w) as [id|];
      try destruct (truthy_id (Some id));
      rewrite ?provider_ends_emit; cbn [now emit set_trace set_callObjectRef];
      try (change (provider_ends (set_callObjectRef None ?x))
             with (provider_ends x));
      rewrite ?provider_ends_emit, ?app_nil_r; reflexivity.
Qed.

(** Why the first teardown has to succeed: when the provider rejects the
    end request the id stays stored, and the next [stop()] asks again. *)
Lemma failed_end_is_retried :
  conversationIdRef (cleanupConversation env_end_fails joined) = Some "c-1"
  /\ provider_ends
       (cleanupConversation env_ok (cleanupConversation env_end_fails joined))
     = [(0%Z, "c-1"); (0%Z, "c-1")].
Proof. vm_compute. split; reflexivity. Qed.

(** C2, witness: stopping the joined session twice ends the conversation
    once. *)
Lemma stop_idempotent_witness :
  teardown_succeeds env_ok = true
  /\ cleanupConversation env_join_fails (cleanupConversation env_ok joined)
     = cleanupConversation env_ok joined
  /\ provider_ends (cleanupConversation env_ok joined) = [(0%Z, "c-1")].
Proof.
  split; [reflexivity|].
  destruct (stop_idempotent env_ok env_join_fails joined eq_refl)
    as (Hsame & Hends & _).
  split; [exact Hsame | exact Hends].
Defined.

(** C4, counterexample.  The conversation is created and the join is
    rejected: the handle stays stored, the call object stays allocated,
    and no provider end call is made. *)
Lemma join_failure_leaves_handle :
  let w := initializeAIAssistant env_join_fails (initial 0) in
  error w = Some "room is full"
  /\ conversationIdRef w = Some "c-1"
  /\ conversation w = Some conv
  /\ callObjectRef w = Some DailyCall
  /\ provider_ends w = [].
Proof. repeat split; reflexivity. Qed.

Lemma reason_not_empty (err : exn) :
  (if message_of err =? "" then "Failed to create conversation"
   else message_of err) <> "".
Proof.
  destruct (message_of err =? "") eqn:Hm; [discriminate|].
  intros Heq. rewrite Heq in Hm. discriminate.
Qed.

(** Closes one failing path of [initializeAIAssistant]: the fields read
    off the final state, and a reason that is not empty. *)
Ltac failed_start :=
  cbn; unfold provider_ends; cbn; rewrite ?flat_map_app; cbn;
  rewrite ?app_nil_r; repeat split; try reflexivity;
  eexists; (split; [reflexivity|]);
  first [apply reason_not_empty | discriminate].

(** C4 (amended).  If [start()] fails in the provider-create step or in
    the transport-join step, the controller records a non-empty reason,
    shows the failure status, clears the connecting flag, arms no timer
    and makes no provider end call.  After a create failure no new handle
    is stored; after a join failure the created conversation and its id
    stay stored. *)
Theorem start_failure (e : env) (w : world) :
  isConfigured e = true ->
  let w' := initializeAIAssistant e w in
  ((personaId e = "" \/ forall c, create_response e <> HttpOk (Ok c)) ->
   start_failed w w'
   /\ conversationIdRef w' = conversationIdRef w
   /\ conversation w' = conversation w)
  /\ (forall c,
        personaId e <> "" ->
        create_response e = HttpOk (Ok c) ->
        join_fails e ->
        start_failed w w'
        /\ conversationIdRef w' = Some (conversation_id c)
        /\ conversation w' = Some c).
Proof.
  intros Hconf w'. subst w'.
  unfold initializeAIAssistant. rewrite Hconf. cbn [negb].
  unfold isConfigured in Hconf. apply andb_prop in Hconf.
  destruct Hconf as [Hkey _]. apply negb_true_iff in Hkey.
  unfold checkLibraryPersona, createLibraryConversation, joinConversation,
    start_failed, failed.
  rewrite Hkey.
  split.
  - intros [Hpersona|Hcreate].
    + rewrite Hpersona. failed_start.
    + destruct (personaId e =? ""); [failed_start|].
      destruct (create_response e) as [x|d t|[c|x]]; try failed_start.
      exfalso. exact (Hcreate c eq_refl).
  - intros c Hpersona Hcreate Hjoin.
    apply String.eqb_neq in Hpersona. rewrite Hpersona, Hcreate.
    destruct Hjoin as [Hdaily|[[x Hj]|[x Hv]]].
    + rewrite Hdaily. failed_start.
    + rewrite Hj. destruct (daily_loaded e); failed_start.
    + rewrite Hv. destruct (daily_loaded e), (join_result e); failed_start.
Qed.

(** C4, witness: the provider refuses the create, and the transport
    refuses the join. *)
Lemma start_failure_witness :
  start_failed (initial 0) (initializeAIAssistant env_create_fails (initial 0))
  /\ conversationIdRef (initializeAIAssistant env_create_fails (initial 0))
     = None
  /\ start_failed (initial 0) (initializeAIAssistant env_join_fails (initial 0))
  /\ conversationIdRef (initializeAIAssistant env_join_fails (initial 0))
     = Some "c-1".
Proof.
  destruct (start_failure env_create_fails (initial 0) eq_refl) as [Hcreate _].
  destruct (start_failure env_join_fails (initial 0) eq_refl) as [_ Hjoin].
  destruct Hcreate as (Hfailed & Hid & _).
  { right. intros c. discriminate. }
  destruct (Hjoin conv) as (Hfailed' & Hid' & _).
  { discriminate. }
  { reflexivity. }
  { right. left. exists (Error "room is full"). reflexivity. }
  repeat split; try assumption; apply Hfailed || apply Hfailed'.
Defined.

(** C9, counterexample.  A tool call is dispatched, then the session is
    restarted and the new session starts: the history and the last-call
    slot still hold the old call. *)
Lemma restart_keeps_history :
  let before := @executeToolCall Json.reference catalog canonical joined in
  let restarted := advance env_ok 1000 (restartConversation env_ok before) in
  isConnected restarted = true
  /\ toolCallHistory before <> []
  /\ toolCallHistory restarted = toolCallHistory before
  /\ lastToolCall restarted = lastToolCall before
  /\ lastToolCall restarted <> "".
Proof. vm_compute. repeat split; try reflexivity; discriminate. Qed.

(** C9 (amended).  [restart()] performs [stop()], clears the persona flag,
    resets the two response counters to zero and schedules a fresh
    [start()] one second later; it leaves the tool-call history and the
    last-call slot as they were, and so does the start that follows. *)
Theorem restart_behaviour (e : env) (w : world) :
  let stopped := cleanupConversation e w in
  let restarted := restartConversation e w in
  timers restarted
  = timers stopped ++ [{| due := (now w + 1000)%Z;
                          action := RestartInitialize |}]
  /\ trace restarted = trace stopped
  /\ callObjectRef restarted = callObjectRef stopped
  /\ conversationIdRef restarted = conversationIdRef stopped
  /\ conversation restarted = conversation stopped
  /\ isConnected restarted = isConnected stopped
  /\ connectionStatus restarted = connectionStatus stopped
  /\ naturalResponseCount restarted = 0%Z
  /\ restrictedResponseCount restarted = 0%Z
  /\ personaCreated restarted = false
  /\ toolCallHistory restarted = toolCallHistory w
  /\ lastToolCall restarted = lastToolCall w
  /\ (forall e', fire e' RestartInitialize restarted
                 = initializeAIAssistant e' restarted)
  /\ (forall e',
        let started := initializeAIAssistant e' restarted in
        toolCallHistory started = toolCallHistory w
        /\ lastToolCall started = lastToolCall w
        /\ naturalResponseCount started = 0%Z
        /\ restrictedResponseCount started = 0%Z).
Proof.
  intros stopped restarted.
  destruct (cleanup_preserves e w) as (Hnow & _ & Hhist & Hlast & _).
  assert (Hr : restarted
               = setTimeout RestartInitialize (Some 1000%Z)
                   (setRestrictedResponseCount 0%Z
                      (setNaturalResponseCount 0%Z
                         (setPersonaCreated false stopped)))) by reflexivity.
  assert (Hh : toolCallHistory restarted = toolCallHistory w).
  { rewrite Hr. cbn. exact Hhist. }
  assert (Hl : lastToolCall restarted = lastToolCall w).
  { rewrite Hr. cbn. exact Hlast. }
  repeat split; try (rewrite Hr; reflexivity); try assumption.
  - rewrite Hr. unfold setTimeout. cbn. fold stopped in Hnow.
    rewrite Hnow. reflexivity.
  - destruct (initialize_preserves e' restarted) as (-> & _). exact Hh.
  - destruct (initialize_preserves e' restarted) as (_ & -> & _). exact Hl.
  - destruct (initialize_preserves e' restarted) as (_ & _ & -> & _).
    rewrite Hr. reflexivity.
  - destruct (initialize_preserves e' restarted) as (_ & _ & _ & ->).
    rewrite Hr. reflexivity.
Qed.

End LifecycleClaims.

(* ================================================================== *)
(** * Further properties of the dispatcher *)
(* ================================================================== *)

Section DispatchMore.
Import Js Catalog Normalizer World Dispatcher Reading Observations Examples.
Context `{Runtime}.
Variable books : list Book.

Lemma filter_res_total {A} (p : A -> res bool) (q : A -> bool) (l : list A) :
  (forall x, p x = Ok (q x)) -> filter_res p l = Ok (filter q l).
Proof.
  intros Hp. induction l as [|x l IH]; [reflexivity|].
  cbn [filter_res filter]. rewrite Hp, IH. cbn [bind].
  destruct (q x); reflexivity.
Qed.

(** A dispatch that returns changed the status and the trace only, and
    appended at most one callback. *)
Lemma dispatch_frame (fname args : value) (w w' : world) :
  dispatch books fname args w = Ok w' ->
  toolCallHistory w' = toolCallHistory w
  /\ lastToolCall w' = lastToolCall w
  /\ naturalResponseCount w' = naturalResponseCount w
  /\ restrictedResponseCount w' = restrictedResponseCount w
  /\ executed w' = executed w
  /\ ((filter_changes w' = filter_changes w
       /\ recommendations w' = recommendations w)
      \/ ((exists c, filter_changes w' = filter_changes w ++ [c])
          /\ recommendations w' = recommendations w)
      \/ (filter_changes w' = filter_changes w
          /\ exists bs, recommendations w' = recommendations w ++ [bs])).
Proof.
  unfold dispatch.
  repeat match goal with
         | |- context [if str_eq fname ?k then _ else _] =>
             destruct (str_eq fname k)
         end;
    repeat match goal with
           | |- context [bind ?m _] =>
               let E := fresh "E" in
               destruct m eqn:E; cbn [bind]; [|discriminate]
           end;
    intros [= <-];
    unfold executed, filter_changes, recommendations; cbn [trace
      setConnectionStatus emit set_trace toolCallHistory lastToolCall
      naturalResponseCount restrictedResponseCount];
    rewrite ?flat_map_app; cbn [flat_map snd app]; rewrite ?app_nil_r;
    repeat split; eauto 6.
Qed.

(** What every call of [executeToolCall] does before it dispatches. *)
Lemma executeToolCall_logged (tc : toolcall) (w : world) :
  let text := (ToString (function_name tc) ++ "("
                 ++ JSON_stringify (arguments tc) ++ ")")%string in
  toolCallHistory (executeToolCall books tc w)
  = slice_last4 (toolCallHistory w) ++ [text]
  /\ lastToolCall (executeToolCall books tc w) = text
  /\ executed (executeToolCall books tc w) = executed w ++ [tc]
  /\ naturalResponseCount (executeToolCall books tc w)
     = naturalResponseCount w
  /\ restrictedResponseCount (executeToolCall books tc w)
     = restrictedResponseCount w.
Proof.
  intros text. unfold executeToolCall. fold text.
  set (logged := setToolCallHistory _ _).
  assert (Hexec : executed logged = executed w ++ [tc]).
  { subst logged. unfold executed. cbn [trace setToolCallHistory
      setLastToolCall emit set_trace].
    rewrite flat_map_app. cbn. reflexivity. }
  destruct (dispatch books (function_name tc) (arguments tc) logged)
    as [w'|e] eqn:Hd.
  - destruct (dispatch_frame _ _ _ Hd) as (-> & -> & -> & -> & -> & _).
    subst logged. repeat split; try reflexivity. exact Hexec.
  - subst logged. repeat split; try reflexivity. exact Hexec.
Qed.




(** The callbacks reached from a logged call whose dispatch is known. *)
Lemma executeToolCall_dispatched (fname args : value) (w : world) :
  let tc := {| function_name := fname; arguments := args |} in
  let text := (ToString fname ++ "(" ++ JSON_stringify args ++ ")")%string in
  let logged :=
    setToolCallHistory (slice_last4 (toolCallHistory w) ++ [text])
      (setLastToolCall text (emit (ExecuteToolCall tc) w)) in
  executeToolCall books tc w
  = match dispatch books fname args logged with
    | Ok w' => w'
    | Throw _ => setConnectionStatus "❌ Error executing action" logged
    end
  /\ filter_changes logged = filter_changes w
  /\ recommendations logged = recommendations w.
Proof.
  intros tc text logged. split; [reflexivity|].
  subst logged. unfold filter_changes, recommendations.
  cbn [trace setToolCallHistory setLastToolCall emit set_trace].
  rewrite !flat_map_app. cbn. rewrite !app_nil_r. split; reflexivity.
Qed.


(** X3.  A known action whose arguments are [null] or [undefined] reaches
    no callback either: the [TypeError] is caught, the status reports the
    error, and the call stays in the history. *)
Theorem missing_arguments (name : string) (args : value) (w : world) :
  In name known_actions ->
  nullish args = true ->
  let w' := executeToolCall books
              {| function_name := VStr name; arguments := args |} w in
  filter_changes w' = filter_changes w
  /\ recommendations w' = recommendations w
  /\ connectionStatus w' = "❌ Error executing action"
  /\ last (toolCallHistory w') "" = lastToolCall w'.
Proof.
  intros Hname Hnull w'. subst w'.
  destruct (executeToolCall_dispatched (VStr name) args w)
    as (Heq & Hf & Hr).
  destruct (executeToolCall_logged
              {| function_name := VStr name; arguments := args |} w)
    as (Hh & Hl & _).
  assert (Hthrow : forall x,
            dispatch books (VStr name) args x = Throw TypeError).
  { intros x. unfold dispatch, get. rewrite Hnull.
    simpl in Hname.
    destruct Hname as [<-|[<-|[<-|[<-|[<-|[]]]]]]; reflexivity. }
  split; [|split; [|split]].
  - rewrite Heq, Hthrow. exact Hf.
  - rewrite Heq, Hthrow. exact Hr.
  - rewrite Heq, Hthrow. reflexivity.
  - rewrite Hh, Hl. apply last_last.
Qed.

(** The test of the search decides whether the title, the description or
    the author holds the term, both lower-cased. *)
Lemma found_by_search_reading (t : string) (book : Book) :
  found_by_search t book = true <-> lowered_in t (search_texts book).
Proof.
  rewrite <- lowered_includes. unfold found_by_search, search_texts.
  destruct (description book); cbn [existsb app];
    rewrite ?orb_false_r, ?orb_assoc; tauto.
Qed.

(** X4.  [search_books] with a text forwards the raw term to
    [onFilterChange], once, and reports how many books hold the term in
    their title, description or author once both are lower-cased; on ASCII
    text that is containment with the case of the letters ignored.  The
    subject is not searched. *)
Theorem search_books_dispatch (args : value) (t : string) (w : world) :
  get args "searchTerm" = Ok (VStr t) ->
  let w' := executeToolCall books
              {| function_name := VStr "search_books"; arguments := args |}
              w in
  filter_changes w' = filter_changes w ++ [search_criteria (VStr t)]
  /\ recommendations w' = recommendations w
  /\ (forall finds : Book -> bool,
        (forall b, In b books ->
                   (finds b = true <-> lowered_in t (search_texts b))) ->
        connectionStatus w'
        = ("✅ Found " ++ string_of_nat (length (filter finds books))
             ++ " " ++ dquote ++ t ++ dquote ++ " books")%string)
  /\ (exists finds : Book -> bool,
         forall b, finds b = true <-> lowered_in t (search_texts b))
  /\ (ascii_text t = true ->
      forall b, forallb ascii_text (search_texts b) = true ->
                (lowered_in t (search_texts b)
                 <-> ignoring_case_in t (search_texts b))).
Proof.
  intros Hget w'. subst w'.
  destruct (executeToolCall_dispatched (VStr "search_books") args w)
    as (Heq & Hf & Hr).
  rewrite Heq. unfold dispatch.
  cbn [str_eq String.eqb Ascii.eqb Bool.eqb]. rewrite Hget. cbn [bind].
  rewrite (filter_res_total (search_matches (VStr t)) (found_by_search t))
    by reflexivity.
  cbn [bind]. unfold filter_changes, recommendations in *.
  cbn [trace setConnectionStatus emit set_trace connectionStatus] in *.
  rewrite !flat_map_app, Hf, Hr. cbn. rewrite !app_nil_r.
  split; [reflexivity|]. split; [reflexivity|]. split; [|split].
  - intros finds Hfinds.
    rewrite (filter_agree (found_by_search t) finds books); [reflexivity|].
    intros b Hin. rewrite (found_by_search_reading t b). symmetry.
    exact (Hfinds b Hin).
  - exists (found_by_search t). apply found_by_search_reading.
  - intros Ht b Hb.
    exact (@lowered_ignoring_case _ t (search_texts b) Ht Hb).
Qed.


(** X6.  [filter_books_by_difficulty] forwards the level unchanged and
    counts the books whose [difficulty_level] equals it exactly, or all of
    them for [ALL]. *)
Theorem filter_by_difficulty_dispatch (args : value) (d : string)
  (w : world) :
  get args "difficulty" = Ok (VStr d) ->
  let w' := executeToolCall books
              {| function_name := VStr "filter_books_by_difficulty";
                 arguments := args |} w in
  let n := if d =? "ALL" then length books
           else count_occ string_dec (map difficulty_level books) d in
  filter_changes w' = filter_changes w ++ [difficulty_criteria (VStr d)]
  /\ recommendations w' = recommendations w
  /\ connectionStatus w'
     = ("✅ Showing " ++ string_of_nat n ++ " " ++ d ++ " books")%string.
Proof.
  intros Hget w' n. subst w'.
  destruct (executeToolCall_dispatched (VStr "filter_books_by_difficulty")
              args w) as (Heq & Hf & Hr).
  rewrite Heq. unfold dispatch.
  cbn [str_eq String.eqb Ascii.eqb Bool.eqb]. rewrite Hget. cbn [bind].
  assert (Hcount : length (filter (difficulty_matches (VStr d)) books) = n).
  { subst n. clear. destruct (d =? "ALL") eqn:Hall.
    - rewrite filter_all; [reflexivity|].
      intros b _. unfold difficulty_matches. simpl. rewrite Hall. reflexivity.
    - induction books as [|b l IH]; [reflexivity|]. cbn [filter map count_occ].
      unfold difficulty_matches at 1. simpl str_eq. rewrite Hall. simpl orb.
      destruct (string_dec (difficulty_level b) d) as [Heq|Hne].
      + rewrite Heq, String.eqb_refl. cbn [length]. rewrite IH. reflexivity.
      + destruct (d =? difficulty_level b) eqn:E.
        * apply String.eqb_eq in E. congruence.
        * exact IH. }
  unfold filter_changes, recommendations in *.
  cbn [trace setConnectionStatus emit set_trace connectionStatus] in *.
  rewrite !flat_map_app, Hf, Hr, Hcount. cbn. rewrite !app_nil_r.
  repeat split; reflexivity.
Qed.

End DispatchMore.

Section DispatchMoreCases.
Import Js Json Catalog Normalizer World Dispatcher Reading Observations.
Import Examples Cases.


(** X3, witness: a search whose arguments are [null]. *)
Lemma missing_arguments_witness :
  connectionStatus
    (@executeToolCall Json.reference catalog
       {| function_name := VStr "search_books"; arguments := VNull |} joined)
  = "❌ Error executing action".
Proof.
  destruct (@missing_arguments Json.reference catalog "search_books" VNull
              joined (or_intror (or_intror (or_introl eq_refl))) eq_refl)
    as (_ & _ & Hstatus & _).
  exact Hstatus.
Defined.

(** X4, witness: one book of the catalog carries the term sky. *)
Lemma search_books_dispatch_witness :
  connectionStatus
    (@executeToolCall Json.reference catalog
       {| function_name := VStr "search_books";
          arguments := VObj [("searchTerm", VStr "sky")] |} (initial 0))
  = ("✅ Found 1 " ++ dquote ++ "sky" ++ dquote ++ " books")%string
  /\ filter_changes
       (@executeToolCall Json.reference catalog
          {| function_name := VStr "search_books";
             arguments := VObj [("searchTerm", VStr "sky")] |} (initial 0))
     = [search_criteria (VStr "sky")].
Proof.
  destruct (@search_books_dispatch Json.reference catalog
              (VObj [("searchTerm", VStr "sky")]) "sky" (initial 0) eq_refl)
    as (Hchanges & _ & Hstatus & _).
  split; [|exact Hchanges].
  exact (Hstatus (@found_by_search Json.reference "sky")
           (fun b _ => @found_by_search_reading Json.reference "sky" b)).
Defined.


(** X6, witness: every book of the catalog is at the beginner level, and
    the level is compared as it is written. *)
Lemma filter_by_difficulty_dispatch_witness :
  connectionStatus
    (@executeToolCall Json.reference catalog
       {| function_name := VStr "filter_books_by_difficulty";
          arguments := VObj [("difficulty", VStr "BEGINNER")] |} (initial 0))
  = "✅ Showing 0 BEGINNER books".
Proof.
  destruct (@filter_by_difficulty_dispatch Json.reference catalog
              (VObj [("difficulty", VStr "BEGINNER")]) "BEGINNER" (initial 0)
              eq_refl) as (_ & _ & Hstatus).
  exact Hstatus.
Defined.

End DispatchMoreCases.

Section HandlerMore.
Import Js Catalog Normalizer World Dispatcher Observations Examples.
Context `{Runtime}.
Variable books : list Book.

(** A filter call with a one-field argument object reaches
    [onFilterChange] once and nothing else. *)
Lemma manual_reaches_filter (fname key arg : string) (w : world) :
  In (fname, key)
     [ ("filter_books_by_subject", "subject");
       ("filter_books_by_difficulty", "difficulty");
       ("search_books", "searchTerm") ] ->
  let w' := executeToolCall books (manual fname key arg) w in
  executed w' = executed w ++ [manual fname key arg]
  /\ (exists c, filter_changes w' = filter_changes w ++ [c])
  /\ recommendations w' = recommendations w.
Proof.
  intros Hin w'. subst w'.
  destruct (executeToolCall_logged books (manual fname key arg) w)
    as (_ & _ & Hexec & _).
  split; [exact Hexec|].
  unfold manual.
  destruct (executeToolCall_dispatched books (VStr fname)
              (VObj [(key, VStr arg)]) w) as (Heq & Hf & Hr).
  rewrite Heq. clear Heq.
  simpl in Hin. destruct Hin as [Hp|[Hp|[Hp|[]]]]; injection Hp as <- <-;
    unfold dispatch; cbn [str_eq String.eqb Ascii.eqb Bool.eqb get nullish
      prop assoc bind];
    rewrite ?(filter_res_total (search_matches (VStr arg))
                (found_by_search arg)) by reflexivity;
    cbn [bind]; unfold filter_changes, recommendations in *;
    cbn [trace setConnectionStatus emit set_trace] in *;
    rewrite !flat_map_app, Hf, Hr; cbn; rewrite ?app_nil_r;
    split; eauto.
Qed.

(** Refutes a mention of a story once the test for it has failed. *)
Ltac no_story :=
  let Hs := fresh "Hs" in
  intros Hs;
  first
    [ discriminate Hs
    | match goal with
      | Hno : includes ?s "story" = false |- _ =>
          change (includes s "story" = true) in Hs; congruence
      end ].

(** X7.  Whatever the user says, the keyword fallback makes at most one
    call; the call it makes is a known filter or search with well-formed
    arguments, so it reaches [onFilterChange] exactly once and never the
    recommendation callback; and a speech that mentions a story, in any
    letter case, always selects the subject [STORY], whatever else it
    mentions. *)
Theorem manual_fallback (speech : string) (w : world) :
  exists w',
    tryManualToolCall books (VStr speech) w = Ok w'
    /\ (if existsb (includes (toLowerCase speech)) manual_keywords then
          (exists tc c,
              executed w' = executed w ++ [tc]
              /\ filter_changes w' = filter_changes w ++ [c])
          /\ recommendations w' = recommendations w
        else w' = w)
    /\ (contains_ci speech "story" = true ->
        executed w'
        = executed w ++ [manual "filter_books_by_subject" "subject" "STORY"]).
Proof.
  unfold tryManualToolCall, contains_ci, manual_keywords.
  cbn [value_toLowerCase bind existsb].
  rewrite (toLowerCase_ascii "story" eq_refl).
  change (ascii_toLowerCase "story") with "story".
  set (s := toLowerCase speech).
  assert (Hcall : forall fname key arg,
            In (fname, key)
               [ ("filter_books_by_subject", "subject");
                 ("filter_books_by_difficulty", "difficulty");
                 ("search_books", "searchTerm") ] ->
            (exists tc c,
                executed (executeToolCall books (manual fname key arg) w)
                = executed w ++ [tc]
                /\ filter_changes (executeToolCall books (manual fname key arg) w)
                   = filter_changes w ++ [c])
            /\ recommendations (executeToolCall books (manual fname key arg) w)
               = recommendations w).
  { intros fname key arg Hin.
    destruct (manual_reaches_filter arg w Hin)
      as (He & [c Hc] & Hr).
    split; [|exact Hr]. exists (manual fname key arg), c. split; assumption. }
  destruct (includes s "story") eqn:H1.
  { eexists. split; [reflexivity|]. cbn [orb]. split.
    - apply Hcall. simpl. tauto.
    - intros _.
      apply (@manual_reaches_filter "filter_books_by_subject" "subject"
               "STORY" w). simpl. tauto. }
  destruct (includes s "stories") eqn:H2.
  { eexists. split; [reflexivity|]. cbn [orb]. split; [|no_story].
    apply Hcall. simpl. tauto. }
  destruct (includes s "science") eqn:H3.
  { eexists. split; [reflexivity|]. cbn [orb]. split; [|no_story].
    apply Hcall. simpl. tauto. }
  destruct (includes s "math") eqn:H4.
  { eexists. split; [reflexivity|]. cbn [orb]. split; [|no_story].
    apply Hcall. simpl. tauto. }
  destruct (includes s "animal") eqn:H5.
  { eexists. split; [reflexivity|]. cbn [orb]. split; [|no_story].
    apply Hcall. simpl. tauto. }
  destruct (includes s "rabbit") eqn:H6.
  { eexists. split; [reflexivity|]. cbn [orb]. split; [|no_story].
    apply Hcall. simpl. tauto. }
  destruct (includes s "easy") eqn:H7.
  { eexists. split; [reflexivity|]. cbn [orb]. split; [|no_story].
    apply Hcall. simpl. tauto. }
  destruct (includes s "beginner") eqn:H8.
  { eexists. split; [reflexivity|]. cbn [orb]. split; [|no_story].
    apply Hcall. simpl. tauto. }
  eexists. split; [reflexivity|]. cbn [orb]. split; [reflexivity|no_story].
Qed.

(** The bookkeeping on replica utterances moves the two counters
    together, by one at most, and touches no callback. *)
Lemma track_replica_counters (data : value) (w w1 : world) :
  track_replica data w = Ok w1 ->
  (naturalResponseCount w1 - restrictedResponseCount w1
   = naturalResponseCount w - restrictedResponseCount w)%Z
  /\ (naturalResponseCount w <= naturalResponseCount w1
      <= naturalResponseCount w + 1)%Z.
Proof.
  unfold track_replica.
  destruct (is_utterance "replica" data); [|intros [= <-]; lia].
  destruct (includes_any _ _) as [m|e]; [|discriminate]. cbn [bind].
  destruct (includes_any _ _) as [f|e]; [|discriminate]. cbn [bind].
  destruct (negb f && negb m); [intros [= <-]; cbn; lia|].
  destruct m; intros [= <-]; cbn; lia.
Qed.

(** The [try] block dispatches at most once and leaves the counters. *)
Lemma process_once (event data : value) (w w' : world) :
  process books event data w = Ok w' ->
  (exists l, executed w' = executed w ++ l /\ length l <= 1)
  /\ naturalResponseCount w' = naturalResponseCount w
  /\ restrictedResponseCount w' = restrictedResponseCount w.
Proof.
  unfold process.
  destruct (probe_all event data) as [[tc|]|e]; cbn [bind];
    [| |discriminate].
  - intros [= <-].
    destruct (executeToolCall_logged books tc w) as (_ & _ & He & Hn & Hr).
    split; [|split; assumption]. exists [tc]. split; [exact He|cbn; lia].
  - destruct (is_utterance "user" data).
    + destruct (prop (prop data "properties") "speech") as [| | | |speech| |];
        try discriminate.
      unfold tryManualToolCall. cbn [value_toLowerCase bind].
      repeat match goal with
             | |- context [if ?b then _ else _] => destruct b
             end;
        intros [= <-];
        try (split; [exists []; rewrite app_nil_r; split;
                     [reflexivity|cbn; lia] | split; reflexivity]);
        match goal with
        | |- context [executeToolCall books ?tc w] =>
            destruct (executeToolCall_logged books tc w)
              as (_ & _ & He & Hn & Hr);
            split; [exists [tc]; split; [exact He|cbn; lia]
                   | split; assumption]
        end.
    + intros [= <-]. split; [|split; reflexivity].
      exists []. rewrite app_nil_r. split; [reflexivity|cbn; lia].
Qed.

(** X8.  An event makes [executeToolCall] run once at most, whatever its
    shape. *)
Theorem one_dispatch_per_event (event : value) (w : world) :
  exists l,
    executed (after (handleTavusEvent books event w) w) = executed w ++ l
    /\ length l <= 1.
Proof.
  unfold handleTavusEvent, get.
  destruct (nullish event);
    [exists []; rewrite app_nil_r; split; [reflexivity|cbn; lia]|].
  cbn [bind].
  destruct (track_replica (prop event "data") w) as [w1|e] eqn:Htrack;
    [|exists []; rewrite app_nil_r; split; [reflexivity|cbn; lia]].
  cbn [bind after].
  rewrite <- (executed_track_replica _ _ Htrack).
  destruct (process books event (prop event "data") w1) as [w2|e] eqn:Hp.
  - exact (proj1 (process_once _ _ _ Hp)).
  - exists []. rewrite app_nil_r. split; [reflexivity|cbn; lia].
Qed.

(** X9.  Every event moves the two response counters together: their
    difference never changes, and they grow by one at most. *)
Theorem counters_move_together (event : value) (w : world) :
  let w' := after (handleTavusEvent books event w) w in
  (naturalResponseCount w' - restrictedResponseCount w'
   = naturalResponseCount w - restrictedResponseCount w)%Z
  /\ (naturalResponseCount w <= naturalResponseCount w'
      <= naturalResponseCount w + 1)%Z.
Proof.
  intros w'. subst w'. unfold handleTavusEvent, get.
  destruct (nullish event); [cbn; lia|]. cbn [bind].
  destruct (track_replica (prop event "data") w) as [w1|e] eqn:Htrack;
    [|cbn; lia].
  cbn [bind after].
  pose proof (track_replica_counters _ _ Htrack) as Hc.
  destruct (process books event (prop event "data") w1) as [w2|e] eqn:Hp;
    [|exact Hc].
  destruct (process_once _ _ _ Hp) as (_ & -> & ->). exact Hc.
Qed.

Lemma data_probe_wins (event : value) (c : toolcall) (w : world) :
  extractToolCallFromData (prop event "data") = Ok (Some c) ->
  truthy (prop event "data") = true
  /\ nullish event = false
  /\ process books event (prop event "data") w
     = Ok (executeToolCall books c w).
Proof.
  intros Hdata.
  assert (Htruthy : truthy (prop event "data") = true).
  { destruct (truthy (prop event "data")) eqn:Ht; [reflexivity|].
    rewrite (extract_falsy _ Ht) in Hdata. discriminate. }
  split; [exact Htruthy|]. split.
  - destruct event; try reflexivity; discriminate.
  - unfold process, probe_all, probe. rewrite Htruthy, Hdata. cbn [bind].
    reflexivity.
Qed.


(** X11.  An exception while the payload under [data] is normalized (a
    [tool_calls] entry that is [null], arguments that are not JSON) ends
    the handling of the event: nothing is dispatched, even when the event
    carries a well-formed call elsewhere. *)
Theorem throwing_probe_drops_event (event : value) (e : exn)
  (w w1 : world) :
  extractToolCallFromData (prop event "data") = Throw e ->
  track_replica (prop event "data") w = Ok w1 ->
  handleTavusEvent books event w = Ok w1
  /\ executed w1 = executed w.
Proof.
  intros Hdata Htrack.
  assert (Htruthy : truthy (prop event "data") = true).
  { destruct (truthy (prop event "data")) eqn:Ht; [reflexivity|].
    rewrite (extract_falsy _ Ht) in Hdata. discriminate. }
  assert (Hevent : nullish event = false).
  { destruct event; try reflexivity; discriminate. }
  split; [|exact (executed_track_replica _ _ Htrack)].
  unfold handleTavusEvent, get. rewrite Hevent. cbn [bind].
  rewrite Htrack. cbn [bind].
  unfold process, probe_all, probe. rewrite Htruthy, Hdata. cbn [bind].
  reflexivity.
Qed.

(** X12.  A payload that is not a plain object (a string, a number, a
    boolean, an array, [null], [undefined]) yields no tool call and raises
    nothing. *)
Theorem non_object_payload (data : value) :
  not_object data = true -> extractToolCallFromData data = Ok None.
Proof.
  intros Hno. rewrite extractToolCallFromData_unfold. unfold extract_body.
  destruct data; try discriminate; try reflexivity;
    destruct (negb (truthy _)); reflexivity.
Qed.

(** X13.  Only the [tool_calls] and [function] shapes parse JSON text: a
    direct-fields payload whose [arguments] are JSON text is dispatched
    with the text as it is, so a subject filter reads no [subject] from
    it, forwards [undefined] and counts no book. *)
Theorem direct_text_arguments (text : string) (w : world) :
  text <> "" ->
  let event :=
    VObj [("data", VObj [("function_name", VStr "filter_books_by_subject");
                         ("arguments", VStr text)])] in
  exists w',
    handleTavusEvent books event w = Ok w'
    /\ executed w'
       = executed w ++ [{| function_name := VStr "filter_books_by_subject";
                           arguments := VStr text |}]
    /\ filter_changes w' = filter_changes w ++ [subject_criteria VUndef]
    /\ connectionStatus w' = "✅ Showing 0 undefined books from our catalog".
Proof.
  intros Htext event.
  set (payload := VObj [("function_name", VStr "filter_books_by_subject");
                        ("arguments", VStr text)]).
  assert (Hextract :
    extractToolCallFromData payload
    = Ok (Some {| function_name := VStr "filter_books_by_subject";
                  arguments := VStr text |})).
  { rewrite extractToolCallFromData_unfold. unfold extract_body, payload.
    apply String.eqb_neq in Htext.
    unfold strategies, run, direct_fields. cbn. rewrite Htext. reflexivity. }
  eexists. split.
  - destruct (@data_probe_wins event _ w Hextract) as (_ & _ & Hprocess).
    unfold handleTavusEvent, get.
    change (nullish event) with false. cbn [bind].
    change (track_replica (prop event "data") w) with (Ok w).
    cbn [bind]. rewrite Hprocess. reflexivity.
  - destruct (executeToolCall_logged books
                {| function_name := VStr "filter_books_by_subject";
                   arguments := VStr text |} w) as (_ & _ & He & _).
    split; [exact He|].
    destruct (executeToolCall_dispatched books
                (VStr "filter_books_by_subject") (VStr text) w)
      as (Heq & Hf & Hr).
    rewrite Heq. unfold dispatch.
    cbn [str_eq String.eqb Ascii.eqb Bool.eqb get nullish prop bind].
    assert (Hnone : filter (subject_matches VUndef) books = []).
    { apply filter_none. intros b _. reflexivity. }
    rewrite Hnone. unfold filter_changes in *.
    cbn [trace setConnectionStatus emit set_trace connectionStatus] in *.
    rewrite flat_map_app, Hf. cbn. split; reflexivity.
Qed.

End HandlerMore.

Section HandlerMoreCases.
Import Js Json Catalog Normalizer World Dispatcher Observations Examples Cases.


(** X11, witness: the [null] entry makes the normalizer throw, and the
    call under [payload] is never looked at. *)
Lemma throwing_probe_drops_event_witness :
  @extractToolCallFromData Json.reference (prop null_entry_event "data")
  = Throw TypeError
  /\ @handleTavusEvent Json.reference catalog null_entry_event joined
     = Ok joined.
Proof.
  split; [reflexivity|].
  destruct (@throwing_probe_drops_event Json.reference catalog
              null_entry_event TypeError joined joined eq_refl eq_refl)
    as [Hhandled _].
  exact Hhandled.
Defined.

(** X12, witness: a payload that is a text. *)
Lemma non_object_payload_witness :
  @extractToolCallFromData Json.reference (VStr "tool_call") = Ok None.
Proof.
  apply (@non_object_payload Json.reference (VStr "tool_call")). reflexivity.
Defined.

(** X13, witness: arguments sent as the text of an empty object. *)
Lemma direct_text_arguments_witness :
  exists w',
    @handleTavusEvent Json.reference catalog
      (VObj [("data", VObj [("function_name", VStr "filter_books_by_subject");
                            ("arguments", VStr "{}")])]) joined
    = Ok w'
    /\ filter_changes w' = filter_changes joined ++ [subject_criteria VUndef].
Proof.
  assert (Htext : "{}"%string <> ""%string) by discriminate.
  destruct (@direct_text_arguments Json.reference catalog "{}" joined Htext)
    as (w' & Hhandled & _ & Hchanges & _).
  exists w'. split; [exact Hhandled | exact Hchanges].
Defined.

End HandlerMoreCases.

(* ================================================================== *)
(** * Further properties of the media binder *)
(* ================================================================== *)

Section MediaMore.
Import Js Catalog World Media Observations Examples.
Variable books : list Book.
Variable isVolumeOn_captured : bool.

(** Participants without a playable track, and the local one, do not
    take part in the binding. *)
Lemma update_skips_idle (before after_ : list (string * participant))
  (entry : string * participant) (w : world) :
  forallb idle before = true ->
  forallb idle after_ = true ->
  updateReplicaVideo books isVolumeOn_captured (before ++ entry :: after_) w
  = updateReplicaVideo books isVolumeOn_captured [entry] w.
Proof.
  intros Hb Ha. unfold updateReplicaVideo.
  destruct (callObjectRef w); [|reflexivity].
  rewrite fold_left_app, (fold_visit_idle books isVolumeOn_captured before w false Hb).
  cbn [fold_left].
  destruct (visit books isVolumeOn_captured (w, false) entry) as [w1 h1].
  rewrite (fold_visit_idle books isVolumeOn_captured after_ w1 h1 Ha). reflexivity.
Qed.

(** X14.  When the only remote participant with playable tracks has both
    of them playable, the sink ends up holding exactly its video track
    followed by its audio track, whatever it held before, and the replica
    is reported connected. *)
Theorem ready_participant_bound (before after_ : list (string * participant))
  (id : string) (p : participant) (vt at' : track) (v : video) (w : world) :
  callObjectRef w = Some DailyCall ->
  videoRef w = Some v ->
  forallb idle before = true ->
  forallb idle after_ = true ->
  (id =? "local") = false ->
  playable (video_slot p) = true ->
  playable (audio_slot p) = true ->
  track_of (video_slot p) = Some vt ->
  track_of (audio_slot p) = Some at' ->
  kind vt = Video ->
  let w' := updateReplicaVideo books isVolumeOn_captured (before ++ (id, p) :: after_) w in
  bound_tracks w' = [vt; at']
  /\ replicaConnected w' = true
  /\ isConnecting w' = false.
Proof.
  intros Hcall Hsink Hb Ha Hid Hv Hau Hvt Hat Hkind w'. subst w'.
  rewrite (update_skips_idle before after_ (id, p) w Hb Ha).
  unfold updateReplicaVideo. rewrite Hcall. cbn [fold_left].
  unfold visit. rewrite Hid, Hv, Hau, Hvt, Hat. cbn [andb].
  unfold displayReplicaVideo, handleReplicaAudio.
  cbn [videoRef setIsConnecting setConnectionStatus setReplicaConnected].
  rewrite Hsink. cbn [videoRef set_videoRef srcObject].
  unfold bound_tracks. cbn [videoRef set_videoRef srcObject filter].
  unfold is_video. rewrite Hkind. repeat split; reflexivity.
Qed.

Lemma is_video_kind (t : track) : is_video t = match kind t with
                                                | Video => true
                                                | Audio => false
                                                end.
Proof. reflexivity. Qed.

(** Adding an audio track leaves the video tracks of a stream as they
    were. *)
Lemma videos_after_audio (stream : list track) (t : track) :
  kind t = Audio ->
  filter is_video (filter is_video stream ++ [t]) = filter is_video stream.
Proof.
  intros Hk. rewrite filter_app. cbn [filter]. rewrite is_video_kind, Hk.
  rewrite app_nil_r. induction stream as [|x l IH]; [reflexivity|].
  cbn [filter]. destruct (is_video x) eqn:Hx; [|exact IH].
  cbn [filter]. rewrite Hx, IH. reflexivity.
Qed.

(** X15.  Re-binding is idempotent: with at most one remote participant
    that has a playable track, and slots that hold tracks of their own
    kind, running [updateReplicaVideo] again on the same participants
    changes nothing. *)
Theorem rebinding_idempotent (before after_ : list (string * participant))
  (entry : string * participant) (w : world) :
  forallb idle before = true ->
  forallb idle after_ = true ->
  well_kinded (snd entry) ->
  let ps := before ++ entry :: after_ in
  updateReplicaVideo books isVolumeOn_captured ps (updateReplicaVideo books isVolumeOn_captured ps w)
  = updateReplicaVideo books isVolumeOn_captured ps w.
Proof.
  intros Hb Ha [Hvk Hak] ps. subst ps.
  rewrite !(update_skips_idle before after_ entry _ Hb Ha).
  destruct entry as [id p]. cbn [snd] in Hvk, Hak.
  unfold updateReplicaVideo, visit. cbn [fold_left].
  destruct w as [t call cid sink ? ? ? ? ? ? ? ? ? ? ? ? ? ?].
  cbn [callObjectRef].
  destruct call as [c|]; [|reflexivity].
  destruct (id =? "local"); [destruct sink; reflexivity|].
  destruct (playable (video_slot p)), (playable (audio_slot p));
    cbn [andb];
    destruct (track_of (video_slot p)) as [vt|] eqn:Hvt;
    destruct (track_of (audio_slot p)) as [at'|] eqn:Hat;
    try (specialize (Hvk _ eq_refl));
    try (specialize (Hak _ eq_refl));
    unfold displayReplicaVideo, handleReplicaAudio;
    destruct sink as [[[stream|] m]|];
    cbn -[is_video filter];
    rewrite ?videos_after_audio by assumption;
    cbn [filter app]; rewrite ?is_video_kind, ?Hvk, ?Hak;
    try reflexivity.
Qed.

End MediaMore.

Section MediaMoreCases.
Import Js Catalog World Media Observations Examples Cases.

(** X14, witness: the local participant and a replica with both tracks
    playable, on the mounted session. *)
Lemma ready_participant_bound_witness :
  bound_tracks
    (updateReplicaVideo catalog true
       [("local", local_participant); ("replica", both_ready)] mounted)
  = [video_track; audio_track].
Proof.
  destruct (@ready_participant_bound catalog true
              [("local", local_participant)] [] "replica" both_ready
              video_track audio_track
              {| srcObject := None; muted := false |} mounted
              eq_refl eq_refl eq_refl eq_refl eq_refl eq_refl eq_refl
              eq_refl eq_refl eq_refl) as (Hbound & _).
  exact Hbound.
Defined.

(** X15, witness: the same participants, bound twice. *)
Lemma rebinding_idempotent_witness :
  updateReplicaVideo catalog true
    [("local", local_participant); ("replica", both_ready)]
    (updateReplicaVideo catalog true
       [("local", local_participant); ("replica", both_ready)] mounted)
  = updateReplicaVideo catalog true
      [("local", local_participant); ("replica", both_ready)] mounted.
Proof.
  assert (Hkinds : well_kinded both_ready).
  { split; intros t Ht; injection Ht as <-; reflexivity. }
  exact (@rebinding_idempotent catalog true [("local", local_participant)] []
           ("replica", both_ready) mounted eq_refl eq_refl Hkinds).
Defined.

End MediaMoreCases.

(* ================================================================== *)
(** * Further properties of the session lifecycle and the panel *)
(* ================================================================== *)

Section LifecycleMore.
Import Js Catalog Normalizer World Lifecycle Panel Examples.

(** X16.  Without an API key and a replica id, or without a persona id,
    [initializeAIAssistant] gives up before any collaborator is called:
    the trace, the refs, the stored conversation and the timers stay as
    they were, and a reason is shown. *)
Theorem start_guards (e : env) (w : world) :
  isConfigured e = false \/ personaId e = "" ->
  let w' := initializeAIAssistant e w in
  trace w' = trace w
  /\ callObjectRef w' = callObjectRef w
  /\ conversationIdRef w' = conversationIdRef w
  /\ conversation w' = conversation w
  /\ isConnected w' = isConnected w
  /\ timers w' = timers w
  /\ exists reason, error w' = Some reason /\ reason <> "".
Proof.
  intros Hguard w'. subst w'. unfold initializeAIAssistant.
  destruct (isConfigured e) eqn:Hconf; cbn [negb].
  - destruct Hguard as [Hfalse|Hpersona]; [discriminate|].
    unfold checkLibraryPersona. rewrite Hpersona. cbn.
    repeat split; try reflexivity. eexists. split; [reflexivity|discriminate].
  - cbn. repeat split; try reflexivity.
    eexists. split; [reflexivity|discriminate].
Qed.

(** X17.  A start whose collaborators all succeed asks the provider for
    the conversation first, then creates the call object, joins the
    conversation's URL and switches the local camera off, in this order;
    it stores the handle and leaves the session connected, without
    error. *)
Theorem start_success (e : env) (c : TavusConversation) (w : world) :
  start_succeeds e c ->
  let w' := initializeAIAssistant e w in
  trace w'
  = trace w ++ [ (now w, ProviderCreate); (now w, CreateCallObject);
                 (now w, TransportJoin (conversation_url c));
                 (now w, TransportSetLocalVideo false) ]
  /\ conversation w' = Some c
  /\ conversationIdRef w' = Some (conversation_id c)
  /\ callObjectRef w' = Some DailyCall
  /\ isConnected w' = true
  /\ isConnecting w' = false
  /\ error w' = None.
Proof.
  intros (Hconf & Hpersona & Hcreate & Hdaily & Hjoin & Hvideo) w'. subst w'.
  unfold initializeAIAssistant, checkLibraryPersona,
    createLibraryConversation, joinConversation.
  rewrite Hconf. apply String.eqb_neq in Hpersona. rewrite Hpersona.
  unfold isConfigured in Hconf. apply andb_prop in Hconf.
  destruct Hconf as [Hkey _]. apply negb_true_iff in Hkey. rewrite Hkey.
  rewrite Hcreate, Hdaily, Hjoin, Hvideo. cbn [negb].
  unfold setTimeout, emit. cbn. rewrite <- !app_assoc.
  repeat split; reflexivity.
Qed.

(** Once the provider has created the conversation, it is stored whether
    or not the join succeeds. *)
Lemma created_is_stored (e : env) (c : TavusConversation) (w : world) :
  isConfigured e = true ->
  personaId e <> "" ->
  create_response e = HttpOk (Ok c) ->
  conversation (initializeAIAssistant e w) = Some c.
Proof.
  intros Hconf Hpersona Hcreate.
  unfold initializeAIAssistant, checkLibraryPersona,
    createLibraryConversation, joinConversation, failed.
  rewrite Hconf. apply String.eqb_neq in Hpersona. rewrite Hpersona.
  unfold isConfigured in Hconf. apply andb_prop in Hconf.
  destruct Hconf as [Hkey _]. apply negb_true_iff in Hkey. rewrite Hkey.
  rewrite Hcreate. cbn [negb].
  destruct (negb (daily_loaded e)); [reflexivity|].
  destruct (join_result e); [|reflexivity].
  destruct (setLocalVideo_result e); reflexivity.
Qed.

(** X18.  Once the provider has created a conversation, opening the panel
    does not start another session, also when the join had failed; the
    stored conversation blocks it until a teardown clears it. *)
Theorem open_does_not_start_twice (e e2 : env) (c : TavusConversation)
  (p : panel) :
  isConfigured e = true ->
  personaId e <> "" ->
  create_response e = HttpOk (Ok c) ->
  let started := set_session (initializeAIAssistant e (session p)) p in
  session (handleOpen e2 started) = session started
  /\ isOpen (handleOpen e2 started) = true.
Proof.
  intros Hconf Hpersona Hcreate started. subst started.
  unfold handleOpen. cbn [session set_session setIsOpen setShouldPulse].
  rewrite (@created_is_stored e c (session p) Hconf Hpersona Hcreate).
  split; reflexivity.
Qed.

(** X19.  A teardown that fails keeps what it could not release: when the
    transport refuses to leave, nothing but the attempt happens and no
    provider call is made; when the provider refuses the end request, the
    call object is gone but the conversation id, the stored conversation
    and the connected flag are not reset. *)
Theorem teardown_failure_keeps_handle (e : env) (w : world) :
  (forall call x,
      callObjectRef w = Some call ->
      leave_result e = Throw x ->
      cleanupConversation e w = emit TransportLeave w)
  /\ (forall id,
        (callObjectRef w = None \/ exists u, leave_result e = Ok u) ->
        conversationIdRef w = Some id ->
        id <> "" ->
        (apiKey e = "" \/ forall d, end_response e <> HttpOk d) ->
        let w' := cleanupConversation e w in
        conversationIdRef w' = Some id
        /\ callObjectRef w' = None
        /\ conversation w' = conversation w
        /\ isConnected w' = isConnected w
        /\ connectionStatus w' = connectionStatus w).
Proof.
  split.
  - intros call x Hcall Hleave. unfold cleanupConversation.
    rewrite Hcall, Hleave. reflexivity.
  - intros id Hleft Hid Hne Hend w'. subst w'.
    apply String.eqb_neq in Hne.
    unfold cleanupConversation, endConversation.
    destruct (callObjectRef w) as [call|] eqn:Hcall.
    + destruct Hleft as [Hnone|[u Hu]]; [discriminate|]. rewrite Hu.
      cbn [conversationIdRef set_callObjectRef emit set_trace].
      rewrite Hid. cbn [truthy_id]. rewrite Hne. cbn [negb].
      destruct Hend as [->|Hend]; [cbn; repeat split; assumption|].
      destruct (apiKey e =? ""); [cbn; repeat split; assumption|].
      destruct (end_response e) as [ex|d t|d];
        [cbn; repeat split; assumption..|].
      exfalso. exact (Hend d eq_refl).
    + rewrite Hid. cbn [truthy_id]. rewrite Hne. cbn [negb].
      destruct Hend as [->|Hend]; [cbn; repeat split; assumption|].
      destruct (apiKey e =? ""); [cbn; repeat split; assumption|].
      destruct (end_response e) as [ex|d t|d];
        [cbn; repeat split; assumption..|].
      exfalso. exact (Hend d eq_refl).
Qed.

(** X20.  A teardown that succeeds calls the transport before the
    provider: leave, destroy, then the end request for the stored id. *)
Theorem teardown_order (e : env) (w : world) (call : CallObject)
  (id : string) :
  teardown_succeeds e = true ->
  callObjectRef w = Some call ->
  conversationIdRef w = Some id ->
  id <> "" ->
  trace (cleanupConversation e w)
  = trace w ++ [ (now w, TransportLeave); (now w, TransportDestroy);
                 (now w, ProviderEnd id) ].
Proof.
  intros Hok Hcall Hid Hne. rewrite (@cleanup_ok e w Hok). cbv zeta.
  rewrite Hcall, Hid. cbn [truthy_id]. apply String.eqb_neq in Hne.
  rewrite Hne. cbn [negb].
  destruct (reset_fields
              (emit (ProviderEnd id)
                 (set_callObjectRef None
                    (emit TransportDestroy (emit TransportLeave w)))))
    as (-> & _).
  unfold emit. cbn. rewrite <- !app_assoc. reflexivity.
Qed.

Lemma take_members (d : Z) (l : list timer) (tm : timer)
  (rest : list timer) :
  take d l = Some (tm, rest) -> In tm l /\ incl rest l.
Proof.
  revert rest. induction l as [|x l IH]; intros rest; cbn [take].
  - discriminate.
  - destruct (due x =? d)%Z.
    + intros [= <- <-]. split; [left; reflexivity|].
      intros y Hy. right. exact Hy.
    + destruct (take d l) as [[y rest']|]; [|discriminate].
      intros [= <- <-]. destruct (IH rest' eq_refl) as [Hin Hincl].
      split; [right; exact Hin|].
      intros z [<-|Hz]; [left; reflexivity|right; exact (Hincl z Hz)].
Qed.

Lemma next_timer_members (t : Z) (l : list timer) (tm : timer)
  (rest : list timer) :
  next_timer t l = Some (tm, rest) -> In tm l /\ incl rest l.
Proof.
  unfold next_timer. destruct (earliest l) as [d|]; [|discriminate].
  destruct (d <=? t)%Z; [|discriminate]. apply take_members.
Qed.

(** With both refs cleared and no restart pending, letting time pass
    changes the clock and the queue only. *)
Lemma run_timers_silent (n : nat) (e : env) (t : Z) :
  forall w,
    callObjectRef w = None ->
    conversationIdRef w = None ->
    no_restart_pending w ->
    let w' := run_timers n e t w in
    trace w' = trace w
    /\ connectionStatus w' = connectionStatus w
    /\ isConnected w' = isConnected w
    /\ callObjectRef w' = None
    /\ conversationIdRef w' = None.
Proof.
  induction n as [|n IH]; intros w Hcall Hid Hpending; cbn [run_timers].
  - repeat split; assumption.
  - destruct (next_timer t (timers w)) as [[tm rest]|] eqn:Hnext.
    + destruct (next_timer_members t (timers w) Hnext) as [Hin Hincl].
      unfold no_restart_pending in Hpending.
      rewrite Forall_forall in Hpending.
      set (w1 := set_now (Z.max (now w) (due tm)) (set_timers rest w)).
      rewrite (@fire_after_stop e (action tm) w1 Hcall Hid (Hpending tm Hin)).
      destruct (IH w1 Hcall Hid) as (Ht & Hs & Hc & Hr1 & Hr2).
      { unfold no_restart_pending. rewrite Forall_forall.
        intros x Hx. apply Hpending, Hincl. exact Hx. }
      split; [rewrite Ht; reflexivity|].
      split; [rewrite Hs; reflexivity|].
      split; [rewrite Hc; reflexivity|].
      split; assumption.
    + repeat split; assumption.
Qed.

(** X21.  After a completed [stop()] the session timers, although never
    cleared, do nothing when they fire: however long one waits, no message
    is sent, no call is made and the status stays. *)
Theorem silent_after_stop (e : env) (t : Z) (w : world) :
  callObjectRef w = None ->
  conversationIdRef w = None ->
  no_restart_pending w ->
  trace (advance e t w) = trace w
  /\ connectionStatus (advance e t w) = connectionStatus w
  /\ isConnected (advance e t w) = isConnected w.
Proof.
  intros Hcall Hid Hpending. unfold advance.
  destruct (run_timers_silent (budget (timers w)) e t Hcall Hid Hpending)
    as (Ht & Hs & Hc & _).
  repeat split; assumption.
Qed.

(** X22.  [toggleMute] acts only on a connected session that holds a call
    object.  It then asks the transport for the microphone state opposite
    to the new muted flag; the flag flips when the request succeeds, and
    stays, with an error shown, when it fails. *)
Theorem toggle_mute (result : res unit) (p : panel) :
  (callObjectRef (session p) = None \/ isConnected (session p) = false ->
   toggleMute result p = p)
  /\ (callObjectRef (session p) <> None ->
      isConnected (session p) = true ->
      let p' := toggleMute result p in
      localAudio p' = localAudio p ++ [isMuted p]
      /\ match result with
         | Ok _ =>
             isMuted p' = negb (isMuted p)
             /\ session p' = session p
             /\ last (localAudio p') true = negb (isMuted p')
         | Throw _ =>
             isMuted p' = isMuted p
             /\ error (session p') = Some "Error toggling mute"
         end).
Proof.
  unfold toggleMute. split.
  - intros [Hnone|Hoff].
    + rewrite Hnone. reflexivity.
    + rewrite Hoff. destruct (callObjectRef (session p)); reflexivity.
  - intros Hcall Hon. rewrite Hon.
    destruct (callObjectRef (session p)); [|contradiction].
    rewrite negb_involutive.
    destruct result; cbn; rewrite ?last_last, ?negb_involutive;
      repeat split; reflexivity.
Qed.

(** X23.  [toggleVolume] flips the volume flag and brings the sink's
    [muted] flag in line with it; it leaves the stream, the trace and the
    connection state alone, and toggling twice restores the flag. *)
Theorem toggle_volume (w : world) :
  let w' := toggleVolume w in
  isVolumeOn w' = negb (isVolumeOn w)
  /\ (forall v', videoRef w' = Some v' ->
                 muted v' = isVolumeOn w /\ Media.bound_tracks w' = Media.bound_tracks w)
  /\ trace w' = trace w
  /\ isConnected w' = isConnected w
  /\ replicaConnected w' = replicaConnected w
  /\ isVolumeOn (toggleVolume w') = isVolumeOn w.
Proof.
  intros w'. subst w'. unfold toggleVolume, Media.bound_tracks.
  cbn [videoRef setIsVolumeOn isVolumeOn].
  destruct (videoRef w) as [v|] eqn:Hv.
  - cbn. rewrite !negb_involutive.
    split; [reflexivity|]. split; [|repeat split; reflexivity].
    intros v0 [= <-]. cbn. split; reflexivity.
  - cbn. rewrite Hv. cbn. rewrite !negb_involutive.
    split; [reflexivity|]. split; [|repeat split; reflexivity].
    intros v0 Hv0. discriminate.
Qed.

Lemma cleanup_connecting (e : env) (w : world) :
  isConnecting (cleanupConversation e w) = isConnecting w.
Proof.
  unfold cleanupConversation, endConversation, cleanupConversation_reset,
    clear_video.
  destruct w as [t call id sink ? ? ? ? ? ? ? ? ? ? ? ? ? ?]; cbn.
  destruct call, (leave_result e), id as [[|? ?]|], (apiKey e =? ""),
    (end_response e), sink; reflexivity.
Qed.

(** X24.  Leaving closes the panel and tears the session down.  After a
    teardown that completes, the next opening starts a new session on
    what the teardown left; after one the transport refused, the
    conversation is still stored and the next opening starts nothing. *)
Theorem leave_then_open (e e2 : env) (p : panel) :
  isOpen (leaveConversation e p) = false
  /\ (teardown_succeeds e = true ->
      isConnecting (session p) = false ->
      session (handleOpen e2 (leaveConversation e p))
      = initializeAIAssistant e2 (cleanupConversation e (session p)))
  /\ (forall call x c,
        callObjectRef (session p) = Some call ->
        leave_result e = Throw x ->
        conversation (session p) = Some c ->
        session (handleOpen e2 (leaveConversation e p))
        = emit TransportLeave (session p)).
Proof.
  split; [reflexivity|]. split.
  - intros Hok Hidle. unfold handleOpen, leaveConversation.
    cbn [session set_session setIsOpen setShouldPulse].
    rewrite (cleanup_connecting e (session p)), Hidle.
    rewrite (@cleanup_ok e (session p) Hok). cbv zeta.
    match goal with
    | |- context [cleanupConversation_reset ?w2] =>
        destruct (reset_fields w2) as (_ & _ & _ & -> & -> & _)
    end.
    reflexivity.
  - intros call x c Hcall Hleave Hconv.
    assert (Hleft : cleanupConversation e (session p)
                    = emit TransportLeave (session p)).
    { unfold cleanupConversation. rewrite Hcall, Hleave. reflexivity. }
    unfold handleOpen, leaveConversation.
    cbn [session set_session setIsOpen setShouldPulse].
    rewrite Hleft.
    change (conversation (emit TransportLeave (session p)))
      with (conversation (session p)).
    rewrite Hconv. reflexivity.
Qed.

End LifecycleMore.

Section LifecycleMoreCases.
Import Js Catalog Normalizer World Lifecycle Panel Examples Cases.

(** X16, witness: without a persona id nothing is traced. *)
Lemma start_guards_witness :
  trace (initializeAIAssistant env_no_persona (initial 0)) = [].
Proof.
  destruct (@start_guards env_no_persona (initial 0) (or_intror eq_refl))
    as (Htrace & _).
  exact Htrace.
Defined.

(** X17, witness: the successful start at time [0]. *)
Lemma start_success_witness :
  trace joined
  = [ (0%Z, ProviderCreate); (0%Z, CreateCallObject);
      (0%Z, TransportJoin "https://tavus.daily.co/c-1");
      (0%Z, TransportSetLocalVideo false) ]
  /\ isConnected joined = true.
Proof.
  assert (Hok : start_succeeds env_ok conv).
  { repeat split; try reflexivity. discriminate. }
  destruct (@start_success env_ok conv (initial 0) Hok)
    as (Htrace & _ & _ & _ & Hconnected & _).
  split; [exact Htrace | exact Hconnected].
Defined.

(** X20, witness: the teardown of the joined session. *)
Lemma teardown_order_witness :
  trace stopped
  = trace joined ++ [ (0%Z, TransportLeave); (0%Z, TransportDestroy);
                      (0%Z, ProviderEnd "c-1") ].
Proof.
  assert (Hid : "c-1"%string <> ""%string) by discriminate.
  exact (@teardown_order env_ok joined DailyCall "c-1" eq_refl eq_refl
           eq_refl Hid).
Defined.

(** X19, witness: the transport refuses to leave the joined session, and
    the provider refuses to end it. *)
Lemma teardown_failure_keeps_handle_witness :
  cleanupConversation env_leave_fails joined = emit TransportLeave joined
  /\ conversationIdRef (cleanupConversation env_end_fails joined)
     = Some "c-1"%string
  /\ callObjectRef (cleanupConversation env_end_fails joined) = None.
Proof.
  assert (Hid : "c-1"%string <> ""%string) by discriminate.
  assert (Hend : forall d, end_response env_end_fails <> HttpOk d)
    by (intros d; cbn; discriminate).
  split.
  - exact (proj1 (@teardown_failure_keeps_handle env_leave_fails joined)
             DailyCall (Error "not in a meeting") eq_refl eq_refl).
  - destruct (proj2 (@teardown_failure_keeps_handle env_end_fails joined)
                "c-1"%string (or_intror (ex_intro _ tt eq_refl)) eq_refl Hid
                (or_intror Hend))
      as (Hkept & Hcall & _).
    split; [exact Hkept | exact Hcall].
Defined.

(** X21, witness: a day after the teardown of the joined session, whose
    timers are still pending, nothing more was traced. *)
Lemma silent_after_stop_witness :
  timers stopped <> []
  /\ trace (advance env_ok 86400000 stopped) = trace stopped.
Proof.
  split; [discriminate|].
  assert (Hnone : no_restart_pending stopped).
  { unfold no_restart_pending.
    let pending := eval vm_compute in (timers stopped) in
    change (timers stopped) with pending.
    repeat constructor; discriminate. }
  destruct (@silent_after_stop env_ok 86400000 stopped eq_refl eq_refl Hnone)
    as (Htrace & _).
  exact Htrace.
Defined.

(** X18, witness: the join failed, the conversation is stored, and opening
    the panel again asks the provider for nothing. *)
Lemma open_does_not_start_twice_witness :
  isConnected (initializeAIAssistant env_join_fails (initial 0)) = false
  /\ session
       (handleOpen env_ok
          (set_session (initializeAIAssistant env_join_fails (initial 0))
             (closed (initial 0))))
     = initializeAIAssistant env_join_fails (initial 0).
Proof.
  split; [reflexivity|].
  assert (Hpersona : personaId env_join_fails <> ""%string) by discriminate.
  destruct (@open_does_not_start_twice env_join_fails env_ok conv
              (closed (initial 0)) eq_refl Hpersona eq_refl) as [Hsame _].
  exact Hsame.
Defined.

(** X22, witness: on the joined session the first toggle mutes and asks
    the transport to switch the microphone off. *)
Lemma toggle_mute_witness :
  isMuted (toggleMute (Ok tt) (closed joined)) = true
  /\ localAudio (toggleMute (Ok tt) (closed joined)) = [false]
  /\ toggleMute (Ok tt) (closed (initial 0)) = closed (initial 0).
Proof.
  assert (Hcall : callObjectRef (session (closed joined)) <> None)
    by discriminate.
  destruct (proj2 (@toggle_mute (Ok tt) (closed joined)) Hcall eq_refl)
    as (Haudio & Hmuted & _).
  split; [exact Hmuted|]. split; [exact Haudio|].
  exact (proj1 (@toggle_mute (Ok tt) (closed (initial 0)))
           (or_introl eq_refl)).
Defined.

(** X24, witness: the joined session is left cleanly and the panel opened
    again, which asks the provider a second time; when the transport
    refuses to leave, it is asked once only. *)
Lemma leave_then_open_witness :
  session (handleOpen env_ok (leaveConversation env_ok (closed joined)))
  = initializeAIAssistant env_ok stopped
  /\ session
       (handleOpen env_ok (leaveConversation env_leave_fails (closed joined)))
     = emit TransportLeave joined.
Proof.
  destruct (@leave_then_open env_ok env_ok (closed joined))
    as (_ & Hclean & _).
  destruct (@leave_then_open env_leave_fails env_ok (closed joined))
    as (_ & _ & Hrefused).
  split.
  - exact (Hclean eq_refl eq_refl).
  - exact (Hrefused DailyCall (Error "not in a meeting") conv
             eq_refl eq_refl eq_refl).
Defined.

End LifecycleMoreCases.

(* ================================================================== *)
(** * Properties of the quiz modal *)
(* ================================================================== *)

Section QuizFacts.
Import Js Quiz Reading.
Context {runtime : Runtime}.
Variable number : Type.
Variable zero : number.
Variable hundredth : number -> number.
Variable pageContent : PageContent.


Lemma switch_times_cameras (n : nat) (s : state number) :
  availableCameras (switch_times n s) = availableCameras s.
Proof.
  induction n as [|n IH]; [reflexivity|]. cbn [switch_times].
  unfold switchCamera. rewrite IH.
  destruct (length (availableCameras s) <=? 1)%nat; [exact IH|].
  cbn. exact IH.
Qed.

Lemma switch_times_index (n : nat) (s : state number) :
  1 < length (availableCameras s) ->
  currentCameraIndex (switch_times n s)
  = if (n =? 0)%nat then currentCameraIndex s
    else (currentCameraIndex s + n) mod length (availableCameras s).
Proof.
  intros Hmany. induction n as [|n IH]; [reflexivity|].
  cbn [switch_times]. unfold switchCamera.
  rewrite switch_times_cameras.
  destruct (length (availableCameras s) <=? 1)%nat eqn:Hle;
    [apply Nat.leb_le in Hle; lia|].
  cbn [currentCameraIndex setCurrentCameraIndex setCapturedImage
       setOcrResults setIsProcessing].
  rewrite IH. cbn [Nat.eqb]. destruct (n =? 0)%nat eqn:Hn.
  - apply Nat.eqb_eq in Hn. subst n. reflexivity.
  - rewrite Nat.Div0.add_mod_idemp_l. f_equal. lia.
Qed.

(** X25.  With one camera or none [switchCamera] does nothing.  With
    several it always lands on an existing camera, so the constraints
    name that device exactly, and as many switches as there are cameras
    lead back to the camera one started from. *)
Theorem switch_camera_cycles (s : state number) :
  (length (availableCameras s) <= 1 -> switchCamera s = s)
  /\ (1 < length (availableCameras s) ->
      (exists camera,
          nth_error (availableCameras s)
                    (currentCameraIndex (switchCamera s)) = Some camera
          /\ getCurrentCameraConstraints (switchCamera s)
             = ExactDevice (deviceId camera))
      /\ (currentCameraIndex s < length (availableCameras s) ->
          currentCameraIndex
            (switch_times (length (availableCameras s)) s)
          = currentCameraIndex s)).
Proof.
  split.
  - intros Hfew. unfold switchCamera.
    apply Nat.leb_le in Hfew. rewrite Hfew. reflexivity.
  - intros Hmany. split.
    + unfold getCurrentCameraConstraints, switchCamera.
      destruct (length (availableCameras s) <=? 1)%nat eqn:Hle;
        [apply Nat.leb_le in Hle; lia|].
      cbn [currentCameraIndex availableCameras setCurrentCameraIndex
           setCapturedImage setOcrResults setIsProcessing].
      destruct (nth_error (availableCameras s)
                  ((currentCameraIndex s + 1) mod length (availableCameras s)))
        as [camera|] eqn:Hnth.
      * exists camera. split; reflexivity.
      * apply nth_error_None in Hnth.
        pose proof (Nat.mod_upper_bound (currentCameraIndex s + 1)
                      (length (availableCameras s))). lia.
    + intros Hin. rewrite (switch_times_index _ s Hmany).
      destruct (length (availableCameras s) =? 0)%nat eqn:Hz;
        [apply Nat.eqb_eq in Hz; lia|].
      rewrite <- Nat.Div0.add_mod_idemp_r, Nat.Div0.mod_same, Nat.add_0_r.
      apply Nat.mod_small. exact Hin.
Qed.

Lemma find_some_of_member {A} (p : A -> bool) (l : list A) (x : A) :
  In x l -> p x = true -> exists y, find p l = Some y /\ p y = true.
Proof.
  induction l as [|a l IH]; [contradiction|].
  intros [<-|Hin] Hp; cbn [find].
  - rewrite Hp. eauto.
  - destruct (p a) eqn:Ha; [eauto|]. exact (IH Hin Hp).
Qed.

(** X26.  The answer recorded for a click is the text of the first option
    that is as correct as the clicked one, not the clicked option itself:
    with two wrong options, a click on the second records the first.  The
    score rises by one exactly for a correct option. *)
Theorem recorded_choice (opt : QuizOption) (s : state number) :
  In opt (options (multipleChoice (quiz_of pageContent))) ->
  exists first,
    find (fun o => Bool.eqb (isCorrect o) (isCorrect opt))
         (options (multipleChoice (quiz_of pageContent))) = Some first
    /\ isCorrect first = isCorrect opt
    /\ selectedMultipleChoiceAnswer (click_option pageContent opt s)
       = option_text first
    /\ score (click_option pageContent opt s)
       = score s + (if isCorrect opt then 1 else 0)
    /\ isTransitioning (click_option pageContent opt s) = true.
Proof.
  intros Hin.
  destruct (find_some_of_member
              (fun o => Bool.eqb (isCorrect o) (isCorrect opt)) _ opt Hin
              (eqb_reflx _)) as (first & Hfind & Hsame).
  exists first. split; [exact Hfind|].
  split; [apply eqb_prop; exact Hsame|].
  unfold click_option, handleMultipleChoiceAnswer. rewrite Hfind.
  destruct (isCorrect opt); cbn; repeat split; try reflexivity; lia.
Qed.

Lemma letters_only_all (s : string) : all_letters (letters_only s) = true.
Proof.
  induction s as [|c s IH]; [reflexivity|]. cbn [letters_only].
  destruct ((97 <=? nat_of_ascii c)%nat && (nat_of_ascii c <=? 122)%nat)
    eqn:Hc; [|exact IH].
  cbn [all_letters]. unfold is_letter. rewrite Hc. exact IH.
Qed.

Lemma all_letters_fixed (s : string) :
  all_letters s = true -> letters_only s = s.
Proof.
  induction s as [|c s IH]; [reflexivity|]. cbn [all_letters letters_only].
  unfold is_letter. intros H. apply andb_true_iff in H as [Hc Hs].
  rewrite Hc. f_equal. exact (IH Hs).
Qed.

Lemma prefix_all_letters (p s : string) :
  prefix p s = true -> all_letters s = true -> all_letters p = true.
Proof.
  revert s. induction p as [|c p IH]; intros s Hp Hs; [reflexivity|].
  destruct s as [|d s]; [discriminate|]. cbn [prefix] in Hp.
  destruct (ascii_dec c d) as [->|]; [|discriminate].
  cbn [all_letters] in *. apply andb_true_iff in Hs as [Hd Hs].
  rewrite Hd. exact (IH s Hp Hs).
Qed.

Lemma includes_all_letters (s sub : string) :
  includes s sub = true -> all_letters s = true -> all_letters sub = true.
Proof.
  induction s as [|c s IH]; cbn [includes]; intros Hin Hs.
  - rewrite orb_false_r in Hin. exact (prefix_all_letters _ _ Hin Hs).
  - apply orb_true_iff in Hin as [Hp|Hin].
    + exact (prefix_all_letters _ _ Hp Hs).
    + cbn [all_letters] in Hs. apply andb_true_iff in Hs as [_ Hs].
      exact (IH Hin Hs).
Qed.

Lemma reads_word_letters (read target : string) :
  reads_word read target = true ->
  letters_only (toLowerCase target) = toLowerCase target.
Proof.
  unfold reads_word. intros Hin. apply all_letters_fixed.
  exact (includes_all_letters _ _ Hin (letters_only_all _)).
Qed.

(** X27.  What an engine read is stripped of everything but a to z before
    the word is looked for in it, the word is not: a word that holds any
    other character once lower-cased (a comma, an apostrophe, a digit) is
    never found, whatever was read, and a capture cannot raise the
    score. *)
Theorem camera_needs_plain_word (e : camera_env number) (s : state number) :
  letters_only (toLowerCase (word (spelling (quiz_of pageContent))))
  <> toLowerCase (word (spelling (quiz_of pageContent))) ->
  (forall read,
      reads_word read (word (spelling (quiz_of pageContent))) = false)
  /\ score (captureImage zero hundredth pageContent e s) = score s
  /\ ~ In Confetti
         (skipn (length (effects s))
                (effects (captureImage zero hundredth pageContent e s))).
Proof.
  intros Hword.
  assert (Hnever : forall read,
             reads_word read (word (spelling (quiz_of pageContent))) = false).
  { intros read.
    destruct (reads_word read _) eqn:Hread; [|reflexivity].
    elim Hword. exact (reads_word_letters _ _ Hread). }
  split; [exact Hnever|].
  unfold captureImage.
  destruct (webcam e); cbn [negb].
  2:{ split; [reflexivity|]. rewrite skipn_all. intros []. }
  destruct (screenshot e) as [imageSrc|].
  2:{ split; [reflexivity|]. cbn. rewrite skipn_all. intros []. }
  destruct (imageSrc =? "")%string.
  { split; [reflexivity|]. cbn. rewrite skipn_all. intros []. }
  unfold recognise, processWithTesseract, processWithGemini.
  destruct (tesseract_reads e) as [[read conf]|ex].
  - cbn [ocr_text]. rewrite Hnever.
    destruct (geminiKey e =? "")%string; cbn [negb].
    + split; [reflexivity|]. cbn.
      rewrite <- ?app_assoc, skipn_app, skipn_all, Nat.sub_diag. cbn.
      intros [H|[H|[]]]; discriminate.
    + destruct (gemini_reads e) as [[read' conf']|ex'].
      * cbn [ocr_text]. rewrite Hnever.
        split; [reflexivity|]. cbn.
        rewrite <- ?app_assoc, skipn_app, skipn_all, Nat.sub_diag. cbn.
        intros [H|[H|[H|[]]]]; discriminate.
      * split; [reflexivity|]. cbn.
        rewrite <- ?app_assoc, skipn_app, skipn_all, Nat.sub_diag. cbn.
        intros [H|[H|[H|[]]]]; discriminate.
  - split; [reflexivity|]. cbn.
    rewrite <- ?app_assoc, skipn_app, skipn_all, Nat.sub_diag. cbn.
    intros [H|[H|[]]]; discriminate.
Qed.

(** X28.  A capture asks Tesseract first and Gemini only when Tesseract
    answered without the word and a Gemini key is set.  The score rises by
    one exactly when an engine that was asked read the word, the
    processing flag is cleared on every path, and when Tesseract throws
    the only result shown is the processing error and the score panel is
    left as it was. *)
Theorem capture_outcome (e : camera_env number) (s : state number)
  (imageSrc : string) :
  webcam e = true -> screenshot e = Some imageSrc -> imageSrc <> ""%string ->
  let target := word (spelling (quiz_of pageContent)) in
  let s' := captureImage zero hundredth pageContent e s in
  let first_reads :=
    match tesseract_reads e with
    | Ok (read, _) => reads_word (trim read) target
    | Throw _ => false
    end in
  let second_asked :=
    match tesseract_reads e with
    | Ok _ => negb first_reads && negb (geminiKey e =? "")
    | Throw _ => false
    end in
  let second_reads :=
    match gemini_reads e with
    | Ok (read, _) => reads_word read target
    | Throw _ => false
    end in
  isProcessing s' = false
  /\ capturedImage s' = Some imageSrc
  /\ consulted s'
     = consulted s ++ tesseract :: (if second_asked then [gemini] else [])
  /\ score s'
     = score s + (if first_reads || (second_asked && second_reads)
                  then 1 else 0)
  /\ match tesseract_reads e with
     | Ok _ =>
         showScore s' = true
         /\ length (ocrResults s') = (if first_reads then 1 else 2)
     | Throw _ =>
         showScore s' = showScore s
         /\ ocrResults s'
            = [{| ocr_text := "Processing Error"; confidence := zero;
                  method := tesseract |}]
     end.
Proof.
  intros Hcam Hshot Hsrc. cbv zeta.
  unfold captureImage. rewrite Hcam, Hshot. cbn [negb].
  apply String.eqb_neq in Hsrc. rewrite Hsrc.
  unfold recognise, processWithTesseract, processWithGemini, consulted.
  destruct (tesseract_reads e) as [[read conf]|ex].
  - cbn [ocr_text].
    destruct (reads_word (trim read) _) eqn:Hfirst.
    + cbn. rewrite ?flat_map_app. cbn. rewrite ?app_nil_r.
      repeat split; reflexivity.
    + destruct (geminiKey e =? "")%string; cbn [negb andb orb].
      * cbn. rewrite ?flat_map_app. cbn. rewrite ?app_nil_r.
        repeat split; lia.
      * destruct (gemini_reads e) as [[read' conf']|ex'].
        -- cbn [ocr_text].
           destruct (reads_word read' _); cbn; rewrite ?flat_map_app; cbn;
             rewrite ?app_nil_r, <- ?app_assoc; repeat split;
             try reflexivity; lia.
        -- cbn. rewrite ?flat_map_app. cbn.
           rewrite ?app_nil_r, <- ?app_assoc. repeat split;
             try reflexivity; lia.
  - cbn. rewrite ?flat_map_app. cbn. rewrite ?app_nil_r.
    repeat split; try reflexivity; lia.
Qed.

Lemma no_space_head (c : ascii) (s : string) :
  ~ occurs " " (String c s) -> Ascii.eqb c " " = false /\ ~ occurs " " s.
Proof.
  intros Hno. split.
  - destruct (Ascii.eqb c " ") eqn:Hc; [|reflexivity].
    apply Ascii.eqb_eq in Hc. subst c. elim Hno.
    exists ""%string, s. reflexivity.
  - intros (before & after_ & ->). elim Hno.
    exists (String c before), after_. reflexivity.
Qed.

(** A text without a space is one piece. *)
Lemma split_from_piece (acc p : string) :
  ~ occurs " " p -> split_from acc p = [(acc ++ p)%string].
Proof.
  revert acc. induction p as [|c p IH]; intros acc Hno.
  - cbn. rewrite append_empty_r. reflexivity.
  - destruct (no_space_head Hno) as [Hc Hp]. cbn [split_from].
    rewrite Hc, (IH _ Hp), append_assoc. reflexivity.
Qed.

(** A piece followed by a space: the piece ends there. *)
Lemma split_from_next (acc p rest : string) :
  ~ occurs " " p ->
  split_from acc (p ++ " " ++ rest)
  = (acc ++ p)%string :: split_from "" rest.
Proof.
  revert acc. induction p as [|c p IH]; intros acc Hno.
  - cbn. rewrite append_empty_r. reflexivity.
  - destruct (no_space_head Hno) as [Hc Hp].
    cbn [append split_from]. rewrite Hc, (IH _ Hp), append_assoc.
    reflexivity.
Qed.

(** The pieces of a text between its single spaces are those
    [split(' ')] returns. *)
Lemma cut_is_split (s : string) (pieces : list string) :
  cut_at_spaces s pieces -> pieces = split_space s.
Proof.
  intros (Hsome & Hjoin & Hno). subst s. unfold split_space.
  induction pieces as [|p rest IH]; [elim Hsome; reflexivity|].
  inversion Hno as [|? ? Hp Hrest]; subst.
  destruct rest as [|q rest].
  - cbn. rewrite (split_from_piece "" Hp). reflexivity.
  - change (String.concat " " (p :: q :: rest))
      with (p ++ " " ++ String.concat " " (q :: rest))%string.
    rewrite (split_from_next "" (String.concat " " (q :: rest)) Hp).
    cbn [append]. f_equal. apply IH; [discriminate|exact Hrest].
Qed.

Lemma split_from_joins (piece s : string) :
  String.concat " " (split_from piece s) = (piece ++ s)%string.
Proof.
  revert piece. induction s as [|c s IH]; intros piece.
  - cbn. rewrite append_empty_r. reflexivity.
  - cbn [split_from]. destruct (Ascii.eqb c " ") eqn:Hc.
    + apply Ascii.eqb_eq in Hc. subst c.
      specialize (IH ""%string).
      destruct (split_from "" s) as [|q qs] eqn:Hq.
      * destruct s; cbn in Hq; [discriminate|].
        destruct (Ascii.eqb _ _) in Hq; discriminate.
      * change (String.concat " " (piece :: q :: qs))
          with (piece ++ " " ++ String.concat " " (q :: qs))%string.
        rewrite IH. reflexivity.
    + rewrite IH, append_assoc. reflexivity.
Qed.

Lemma no_space_grows (acc : string) (c : ascii) :
  ~ occurs " " acc -> Ascii.eqb c " " = false ->
  ~ occurs " " (acc ++ String c "").
Proof.
  intros Hacc Hc. induction acc as [|a acc IH];
    intros (before & after_ & Heq).
  - destruct before as [|x before]; cbn in Heq.
    + injection Heq as -> _. discriminate Hc.
    + injection Heq as _ Heq. destruct before; discriminate.
  - destruct (no_space_head Hacc) as [Ha Hrest].
    destruct before as [|x before]; cbn in Heq.
    + injection Heq as -> _. discriminate Ha.
    + injection Heq as _ Heq. apply (IH Hrest).
      exists before, after_. exact Heq.
Qed.

Lemma split_from_no_space (acc s : string) :
  ~ occurs " " acc ->
  Forall (fun piece => ~ occurs " " piece) (split_from acc s).
Proof.
  revert acc. induction s as [|c s IH]; intros acc Hacc.
  - constructor; [exact Hacc|constructor].
  - cbn [split_from]. destruct (Ascii.eqb c " ") eqn:Hc.
    + constructor; [exact Hacc|]. apply IH.
      intros (before & after_ & Heq). destruct before; discriminate.
    + apply IH. exact (@no_space_grows acc c Hacc Hc).
Qed.

(** [split(' ')] cuts a text at its single spaces. *)
Lemma split_is_cut (s : string) : cut_at_spaces s (split_space s).
Proof.
  unfold cut_at_spaces, split_space. split; [|split].
  - generalize ""%string. induction s as [|c s IH]; intros acc;
      cbn [split_from]; [discriminate|].
    destruct (Ascii.eqb c " "); [discriminate|apply IH].
  - exact (split_from_joins "" s).
  - apply split_from_no_space.
    intros (before & after_ & Heq). destruct before; discriminate.
Qed.

Lemma find_first_such {A} (p : A -> bool) (l : list A) :
  match find p l with
  | Some x => first_such (fun y => p y = true) l x
  | None => Forall (fun y => p y = false) l
  end.
Proof.
  induction l as [|a l IH]; cbn [find]; [constructor|].
  destruct (p a) eqn:Ha.
  - exists [], l. repeat split; [constructor|exact Ha].
  - destruct (find p l) as [x|].
    + destruct IH as (before & after_ & -> & Hbefore & Hx).
      exists (a :: before), after_. repeat split; [|exact Hx].
      constructor; [congruence|exact Hbefore].
    + constructor; [exact Ha|exact IH].
Qed.

(** X29.  For a page without a quiz the word to spell is the first piece
    of the text, cut at its single spaces, that is longer than four UTF-16
    code units, or the word story when there is none.  It never holds a
    space and is at least five code units long; punctuation next to the
    word stays in it. *)
Theorem fallback_spelling_word :
  quiz pageContent = None ->
  let target := word (spelling (quiz_of pageContent)) in
  (exists pieces, cut_at_spaces (text pageContent) pieces)
  /\ (forall pieces,
        cut_at_spaces (text pageContent) pieces ->
        first_such (fun piece => 4 < utf16_length piece) pieces target
        \/ (target = "story"%string
            /\ Forall (fun piece => utf16_length piece <= 4) pieces))
  /\ ~ occurs " " target
  /\ 5 <= utf16_length target.
Proof.
  intros Hnone. cbv zeta.
  pose proof (split_is_cut (text pageContent)) as Hcut.
  assert (Hword :
            first_such (fun piece => 4 < utf16_length piece)
              (split_space (text pageContent))
              (word (spelling (quiz_of pageContent)))
            \/ (word (spelling (quiz_of pageContent)) = "story"%string
                /\ Forall (fun piece => utf16_length piece <= 4)
                     (split_space (text pageContent)))).
  { unfold quiz_of. rewrite Hnone. cbn [spelling word].
    pose proof (find_first_such (fun w => (4 <? utf16_length w)%nat)
                  (split_space (text pageContent))) as Hfind.
    destruct (find _ (split_space (text pageContent))) as [w|].
    - left. destruct Hfind as (before & after_ & Heq & Hbefore & Hw).
      exists before, after_. split; [exact Heq|]. split.
      + eapply Forall_impl; [|exact Hbefore]. cbv beta.
        intros piece Hp Hlong. apply Hp.
        apply (proj2 (Nat.ltb_lt 4 (utf16_length piece))). exact Hlong.
      + apply Nat.ltb_lt. exact Hw.
    - right. split; [reflexivity|].
      eapply Forall_impl; [|exact Hfind]. cbv beta. intros piece Hp.
      apply (proj1 (Nat.ltb_ge 4 (utf16_length piece))). exact Hp. }
  split; [exists (split_space (text pageContent)); exact Hcut|].
  split; [intros pieces Hpieces; rewrite (cut_is_split Hpieces);
          exact Hword|].
  destruct Hword as [(before & after_ & Heq & _ & Hlong)|[-> _]].
  - split; [|exact Hlong].
    destruct Hcut as (_ & _ & Hno). rewrite Heq in Hno.
    apply Forall_app in Hno as [_ Hno]. inversion Hno. assumption.
  - split; [|vm_compute; lia].
    intros (before & after_ & Heq).
    assert (Hin : includes "story" " " = true)
      by (apply includes_occurs; exists before, after_; exact Heq).
    discriminate Hin.
Qed.

Lemma emit_counts (e : effect) (s : state number) :
  next_pages (emit e s)
  = next_pages s + (match e with NextPage => 1 | _ => 0 end)
  /\ recorded_answers (emit e s)
     = recorded_answers s ++ (match e with AddQuizAnswer a => [a] | _ => [] end).
Proof.
  unfold next_pages, recorded_answers, emit. cbn [effects set_effects].
  rewrite filter_app, length_app, flat_map_app.
  destruct e; cbn; rewrite ?app_nil_r; split; reflexivity || lia.
Qed.

Lemma celebrate_fields (s : state number) :
  score (celebrateCorrectAnswer s) = score s
  /\ spellingAnswer (celebrateCorrectAnswer s) = spellingAnswer s
  /\ finalSpellingAnswer (celebrateCorrectAnswer s) = finalSpellingAnswer s
  /\ next_pages (celebrateCorrectAnswer s) = next_pages s
  /\ recorded_answers (celebrateCorrectAnswer s) = recorded_answers s.
Proof.
  unfold celebrateCorrectAnswer, readText.
  repeat split; try reflexivity.
  - rewrite !(proj1 (emit_counts _ _)). cbn. lia.
  - rewrite !(proj2 (emit_counts _ _)). cbn. rewrite !app_nil_r. reflexivity.
Qed.

Lemma click_fields (opt : QuizOption) (s : state number) :
  let s' := transition (click_option pageContent opt s) in
  score s' = score s + (if isCorrect opt then 1 else 0)
  /\ finalSpellingAnswer s' = finalSpellingAnswer s
  /\ next_pages s' = next_pages s
  /\ recorded_answers s' = recorded_answers s.
Proof.
  cbv zeta.
  unfold click_option, handleMultipleChoiceAnswer, transition.
  cbn [pendingTransitions set_pendingTransitions setIsTransitioning
       Nat.add].
  rewrite Nat.add_1_r.
  destruct (isCorrect opt).
  - destruct (celebrate_fields
                (setSelectedMultipleChoiceAnswer
                   match find (fun o => Bool.eqb (isCorrect o) true)
                           (options (multipleChoice (quiz_of pageContent)))
                   with Some o => option_text o | None => ""%string end
                   (setSelectedMultipleChoiceAnswer (option_text opt) s)))
      as (Hscore & _ & Hfinal & Hnext & Hrec).
    split; [cbn; lia|]. split; [exact Hfinal|].
    split; [exact Hnext|exact Hrec].
  - unfold readText. split; [cbn; lia|]. split; [reflexivity|]. split.
    + unfold next_pages. cbn. rewrite filter_app, length_app. cbn. lia.
    + unfold recorded_answers. cbn. rewrite flat_map_app. cbn.
      apply app_nil_r.
Qed.

Lemma submit_fields (s : state number) :
  let s' := handleSpellingSubmit pageContent s in
  score s'
  = score s
    + (if (toLowerCase (spellingAnswer s)
           =? toLowerCase (word (spelling (quiz_of pageContent))))%string
       then 1 else 0)
  /\ finalSpellingAnswer s' = spellingAnswer s
  /\ spellingAnswer s' = spellingAnswer s
  /\ showScore s' = true
  /\ next_pages s' = next_pages s
  /\ recorded_answers s' = recorded_answers s.
Proof.
  cbv zeta. unfold handleSpellingSubmit.
  change (spellingAnswer (setFinalSpellingAnswer (spellingAnswer s) s))
    with (spellingAnswer s).
  destruct (toLowerCase (spellingAnswer s) =? _)%string.
  - destruct (celebrate_fields
                (setFinalSpellingAnswer (spellingAnswer s) s))
      as (Hscore & Hspell & Hfinal & Hnext & Hrec).
    split; [cbn; lia|]. split; [exact Hfinal|]. split; [exact Hspell|].
    split; [reflexivity|]. split; [exact Hnext|exact Hrec].
  - unfold readText. split; [cbn; lia|]. do 3 (split; [reflexivity|]).
    split.
    + unfold next_pages. cbn -[append]. rewrite filter_app, length_app.
      cbn. lia.
    + unfold recorded_answers. cbn -[append]. rewrite flat_map_app. cbn.
      apply app_nil_r.
Qed.

Lemma continue_fields (s : state number) :
  let s' := handleContinue pageContent s in
  next_pages s' = next_pages s + (if (score s =? 2)%nat then 1 else 0)
  /\ recorded_answers s'
     = recorded_answers s
       ++ [{| pageTitle := title pageContent;
              multipleChoiceQuestion :=
                question (multipleChoice (quiz_of pageContent));
              multipleChoiceAnswer := selectedMultipleChoiceAnswer s;
              spellingWord := word (spelling (quiz_of pageContent));
              spellingAnswer_recorded :=
                if (finalSpellingAnswer s =? "")%string
                then spellingAnswer s else finalSpellingAnswer s;
              answer_isCorrect := (score s =? 2)%nat |}]
  /\ last (effects s') OnClose = OnClose
  /\ showScore s' = showScore s.
Proof.
  cbv zeta. unfold handleContinue.
  change (score (emit _ s)) with (score s).
  destruct (score s =? 2)%nat.
  - rewrite !(proj1 (emit_counts _ _)), !(proj2 (emit_counts _ _)).
    cbn [Nat.add]. rewrite !app_nil_r.
    repeat split; try lia.
    unfold emit at 1. cbn [effects set_effects]. apply last_last.
  - rewrite !(proj1 (emit_counts _ _)), !(proj2 (emit_counts _ _)).
    cbn [Nat.add]. rewrite !app_nil_r.
    repeat split; try lia.
    unfold emit at 1. cbn [effects set_effects]. apply last_last.
Qed.

(** X30.  One pass by the keyboard from a score of zero: the story moves
    to the next page exactly when the clicked option is correct and the
    typed answer and the word have the same lower-case form; on ASCII text
    that is equality with the case of the letters ignored.  Exactly one
    answer is recorded; it carries what was typed, is marked correct in
    the same case, and the modal closes last. *)
Theorem keyboard_pass (opt : QuizOption) (typed : string)
  (s : state number) :
  score s = 0 ->
  let s' := played pageContent opt typed s in
  let passed :=
    isCorrect opt
    && (toLowerCase typed
        =? toLowerCase (word (spelling (quiz_of pageContent))))%string in
  next_pages s' = next_pages s + (if passed then 1 else 0)
  /\ (exists answer,
         recorded_answers s' = recorded_answers s ++ [answer]
         /\ spellingAnswer_recorded answer = typed
         /\ spellingWord answer = word (spelling (quiz_of pageContent))
         /\ answer_isCorrect answer = passed)
  /\ last (effects s') OnClose = OnClose
  /\ showScore s' = true
  /\ (ascii_text typed = true ->
      ascii_text (word (spelling (quiz_of pageContent))) = true ->
      ((toLowerCase typed
        =? toLowerCase (word (spelling (quiz_of pageContent))))%string = true
       <-> same_text typed (word (spelling (quiz_of pageContent))))).
Proof.
  intros Hzero. cbv zeta. unfold played.
  destruct (click_fields opt s) as (Hscore1 & _ & Hnext1 & Hrec1).
  set (s1 := transition (click_option pageContent opt s)) in *.
  assert (Htyped : spellingAnswer (setSpellingAnswer typed s1) = typed)
    by reflexivity.
  assert (Hscore2 : score (setSpellingAnswer typed s1) = score s1)
    by reflexivity.
  assert (Hnext2 : next_pages (setSpellingAnswer typed s1) = next_pages s1)
    by reflexivity.
  assert (Hrec2 : recorded_answers (setSpellingAnswer typed s1)
                  = recorded_answers s1) by reflexivity.
  set (s2 := setSpellingAnswer typed s1) in *.
  destruct (submit_fields s2)
    as (Hscore3 & Hfinal3 & Hspell3 & Hshow3 & Hnext3 & Hrec3).
  set (s3 := handleSpellingSubmit pageContent s2) in *.
  destruct (continue_fields s3) as (Hnext4 & Hrec4 & Hlast & Hshow4).
  rewrite Hnext4, Hrec4, Hshow4, Hshow3, Hnext3, Hnext2, Hnext1,
    Hrec3, Hrec2, Hrec1, Hscore3, Hscore2, Hscore1, Hzero, Htyped,
    Hfinal3, Hspell3.
  assert (Hpassed :
            (0 + (if isCorrect opt then 1 else 0)
             + (if (toLowerCase typed
                    =? toLowerCase (word (spelling (quiz_of pageContent))))%string
                then 1 else 0) =? 2)%nat
            = isCorrect opt
              && (toLowerCase typed
                  =? toLowerCase (word (spelling (quiz_of pageContent))))%string).
  { destruct (isCorrect opt), (toLowerCase typed =? _)%string; reflexivity. }
  rewrite Hpassed.
  split; [reflexivity|]. split; [|split; [exact Hlast|split; [reflexivity|]]].
  - eexists. split; [reflexivity|].
    cbn [spellingAnswer_recorded spellingWord answer_isCorrect].
    rewrite Htyped. destruct (typed =? "")%string; repeat split.
  - intros Hascii Hword.
    rewrite String.eqb_eq, (toLowerCase_ascii typed Hascii),
      (toLowerCase_ascii _ Hword).
    symmetry. apply same_text_lower.
Qed.

End QuizFacts.

Section QuizCases.
Import Js Json Quiz Reading Cases.

(** X25, witness: with two cameras a switch selects the back camera, and
    two switches return to the front one. *)
Lemma switch_camera_cycles_witness :
  getCurrentCameraConstraints (switchCamera at_spelling)
  = ExactDevice "cam-back"
  /\ currentCameraIndex (switch_times 2 at_spelling) = 0.
Proof.
  assert (Hmany : 1 < length (availableCameras at_spelling)) by (cbn; lia).
  assert (Hin : currentCameraIndex at_spelling
                < length (availableCameras at_spelling)) by (cbn; lia).
  destruct (proj2 (@switch_camera_cycles Z at_spelling) Hmany)
    as [(camera & Hnth & Hasks) Hcycle].
  split.
  - rewrite Hasks. f_equal.
    assert (Hback :
              nth_error (availableCameras at_spelling)
                (currentCameraIndex (switchCamera at_spelling))
              = Some {| deviceId := "cam-back"; label := "Back" |})
      by reflexivity.
    rewrite Hback in Hnth. injection Hnth as <-. reflexivity.
  - exact (Hcycle Hin).
Defined.

(** X26, witness: on the first page of the story a click on Fluffy
    records Bunny. *)
Lemma recorded_choice_witness :
  selectedMultipleChoiceAnswer
    (click_option first_page
       {| option_text := "Fluffy"; isCorrect := false |} (initial Z))
  = "Bunny"%string.
Proof.
  destruct (@recorded_choice Z first_page
              {| option_text := "Fluffy"; isCorrect := false |} (initial Z)
              (or_intror (or_intror (or_introl eq_refl))))
    as (first & Hfind & _ & Hrecorded & _).
  rewrite Hrecorded.
  assert (Hbunny :
            find (fun o => Bool.eqb (isCorrect o) false)
                 (options (multipleChoice (quiz_of first_page)))
            = Some {| option_text := "Bunny"; isCorrect := false |})
    by reflexivity.
  cbn [isCorrect] in Hfind. rewrite Hbunny in Hfind.
  injection Hfind as <-. reflexivity.
Defined.

(** X27, witness: the word made up for the bare page carries an
    apostrophe, and an engine that reads it exactly is not accepted. *)
Lemma camera_needs_plain_word_witness :
  word (spelling (quiz_of bare_page)) = "Hoppy's"%string
  /\ reads_word "Hoppy's" (word (spelling (quiz_of bare_page))) = false
  /\ score (captureImage 0%Z (fun c => (c / 100)%Z) bare_page
              second_engine_reads at_spelling) = 0.
Proof.
  split; [reflexivity|].
  assert (Hword :
            letters_only (toLowerCase (word (spelling (quiz_of bare_page))))
            <> toLowerCase (word (spelling (quiz_of bare_page))))
    by (vm_compute; discriminate).
  destruct (@camera_needs_plain_word Json.reference Z 0%Z (fun c => (c / 100)%Z) bare_page
              second_engine_reads at_spelling Hword)
    as (Hnever & Hscore & _).
  split; [exact (Hnever "Hoppy's"%string) | exact Hscore].
Defined.

(** X28, witness: Tesseract misreads the word of the first page, Gemini
    reads it, and the score rises. *)
Lemma capture_outcome_witness :
  consulted (captureImage 0%Z (fun c => (c / 100)%Z) first_page
               second_engine_reads at_spelling)
  = [tesseract; gemini]
  /\ score (captureImage 0%Z (fun c => (c / 100)%Z) first_page
              second_engine_reads at_spelling) = 1.
Proof.
  assert (Hsrc : "data:image/jpeg;base64,AAAA"%string <> ""%string)
    by discriminate.
  destruct (@capture_outcome Json.reference Z 0%Z (fun c => (c / 100)%Z) first_page
              second_engine_reads at_spelling "data:image/jpeg;base64,AAAA"
              eq_refl eq_refl Hsrc) as (_ & _ & Hasked & Hscore & _).
  split; [exact Hasked | exact Hscore].
Defined.

(** X29, witness: on the bare page the word is the second piece, with
    its apostrophe; on a page that starts with a word of four accented and
    plain letters, the word is the first piece of five. *)
Lemma fallback_spelling_word_witness :
  word (spelling (quiz_of bare_page)) = "Hoppy's"%string
  /\ split_space (text accent_page) = ["déjà"; "vu"; "story"; "time"]%string
  /\ utf16_length "déjà" = 4
  /\ word (spelling (quiz_of accent_page)) = "story"%string
  /\ 5 <= utf16_length (word (spelling (quiz_of accent_page))).
Proof.
  split; [reflexivity|]. split; [reflexivity|]. split; [reflexivity|].
  split; [reflexivity|].
  destruct (@fallback_spelling_word accent_page eq_refl)
    as (_ & _ & _ & Hlong).
  exact Hlong.
Defined.

(** X30, witness: the right option and the word typed in capitals move
    the story on, also when the word starts with an accented letter. *)
Lemma keyboard_pass_witness :
  next_pages
    (played first_page {| option_text := "Hoppy"; isCorrect := true |}
       "RABBIT" (initial Z)) = 1
  /\ next_pages
       (played ecole_page {| option_text := "To school"; isCorrect := true |}
          "ÉCOLE" (initial Z)) = 1.
Proof.
  destruct (@keyboard_pass Json.reference Z first_page
              {| option_text := "Hoppy"; isCorrect := true |} "RABBIT"
              (initial Z) eq_refl) as (Hnext & _).
  destruct (@keyboard_pass Json.reference Z ecole_page
              {| option_text := "To school"; isCorrect := true |} "ÉCOLE"
              (initial Z) eq_refl) as (Hecole & _).
  split; [exact Hnext | exact Hecole].
Defined.

End QuizCases.
